(** * jira-diff-validator: a shallow embedding of the adapters

    The repository glues a version-control repository, an issue tracker and
    a text-generation model behind three HTTP routes:

    - [src/lib/jira-ticket-retrieval.ts]: the rich-text walker
      [extractTextFromADF], [JiraClient.getTicket], [jiraClientFrom] and
      the browser-side wrappers;
    - [src/app/api/git/route.ts]: [getBranches], [getCurrentBranch],
      [getDefaultBranch], [getDiff], [getProjectName];
    - [src/app/api/jira/route.ts] and [src/app/api/llm/route.ts]: the
      server-side [getTicket] and [validateDiffAgainstTicket];
    - [src/app/page.tsx]: the branch-name to ticket-identifier inference.

    JavaScript strings are sequences of UTF-16 code units and are modelled
    as such.  Values that arrive through [JSON.parse] are modelled by a
    tree type.  Exceptions are explicit ([completion]); the external world
    (file system, child processes, network, model provider, environment) is
    a set of oracles, and every call made to it is recorded in a trace. *)

From Stdlib Require Import String Ascii.
From Stdlib Require Import List NArith Bool Arith Lia Permutation Relations.
Import ListNotations.

Set Implicit Arguments.
Set Warnings "-register-all".


(** ** Strings *)

(** A JavaScript string: its UTF-16 code units. *)
Definition jsstring := list N.

(** An ASCII literal of the source, as code units. *)
Definition lit (s : string) : jsstring :=
  map N_of_ascii (list_ascii_of_string s).
Arguments lit s%_string.

(** The line feed of ['\n']. *)
Definition LF : N := 10.

Fixpoint str_eqb (a b : jsstring) : bool :=
  match a, b with
  | [], [] => true
  | x :: a', y :: b' => N.eqb x y && str_eqb a' b'
  | _, _ => false
  end.

(** [Array.prototype.join]. *)
Fixpoint join (sep : jsstring) (parts : list jsstring) : jsstring :=
  match parts with
  | [] => []
  | [p] => p
  | p :: rest => p ++ sep ++ join sep rest
  end.

(** [String.prototype.startsWith]. *)
Fixpoint startsWith (s prefix : jsstring) : bool :=
  match prefix, s with
  | [], _ => true
  | p :: prefix', c :: s' => N.eqb c p && startsWith s' prefix'
  | _ :: _, [] => false
  end.

(** [String.prototype.substring(n)] for [n] within the string. *)
Definition substring (n : nat) (s : jsstring) : jsstring := skipn n s.

(** [String.prototype.split('\n')] and, generally, on one code unit. *)
Fixpoint split (sep : N) (s : jsstring) : list jsstring :=
  match s with
  | [] => [[]]
  | c :: s' =>
      if N.eqb c sep then [] :: split sep s'
      else match split sep s' with
           | [] => [[c]]
           | first :: rest => (c :: first) :: rest
           end
  end.

(** WhiteSpace and LineTerminator of ECMAScript, the code units that
    [String.prototype.trim] removes. *)
Definition isWhiteSpace (c : N) : bool :=
  existsb (N.eqb c)
    [9; 10; 11; 12; 13; 32; 160; 5760; 8232; 8233; 8239; 8287; 12288; 65279]%N
  || (N.leb 8192 c && N.leb c 8202).

Fixpoint trimStart (s : jsstring) : jsstring :=
  match s with
  | c :: s' => if isWhiteSpace c then trimStart s' else s
  | [] => []
  end.

Definition trimEnd (s : jsstring) : jsstring := rev (trimStart (rev s)).

Definition trim (s : jsstring) : jsstring := trimEnd (trimStart s).

(** The code points a [for ... of] loop over a string yields: a high
    surrogate followed by a low surrogate is one element. *)
Definition isHighSurrogate (c : N) : bool := N.leb 55296 c && N.leb c 56319.
Definition isLowSurrogate (c : N) : bool := N.leb 56320 c && N.leb c 57343.

Fixpoint codePoints (s : jsstring) : list jsstring :=
  match s with
  | [] => []
  | c :: s' =>
      match s' with
      | d :: s'' =>
          if isHighSurrogate c && isLowSurrogate d
          then [c; d] :: codePoints s''
          else [c] :: codePoints s'
      | [] => [[c]]
      end
  end.

(** ** Exceptions and effects *)

(** What a [throw] carries: an instance of [Error] (or of a subclass such
    as [TypeError]) with its [message], or any other value, carried as the
    string [String(e)] gives. *)
Inductive exn :=
| JsError (message : jsstring)
| Thrown (rendered : jsstring).

(** The errors the engine itself raises.  The wording of the messages is
    V8's; no handler of the program branches on it. *)
Definition cannotRead (object property : jsstring) : exn :=
  JsError (lit "Cannot read properties of " ++ object ++ lit " (reading '"
           ++ property ++ lit "')").
Definition notIterable (expression : jsstring) : exn :=
  JsError (expression ++ lit " is not iterable").
Definition notConvertible : exn :=
  JsError (lit "Cannot convert object to primitive value").
Definition stackExhausted : exn :=
  JsError (lit "Maximum call stack size exceeded").

Inductive completion (A : Type) :=
| Normal (a : A)
| Abrupt (e : exn).
Arguments Normal {A} a.
Arguments Abrupt {A} e.

Class Monad (m : Type -> Type) := {
  ret : forall {A}, A -> m A;
  bind : forall {A B}, m A -> (A -> m B) -> m B
}.

Notation "x <- c ;; k" := (bind c (fun x => k))
  (at level 61, c at next level, right associativity).
Notation "c ;;; k" := (bind c (fun _ => k))
  (at level 61, right associativity).

#[global] Instance completion_monad : Monad completion := {
  ret := fun A a => Normal a;
  bind := fun A B c k =>
    match c with
    | Normal a => k a
    | Abrupt e => Abrupt e
    end
}.

(** ** Values read from JSON *)

(** A value as [JSON.parse] builds it, plus [undefined] (what reading a
    missing property gives).  A number is carried as the string that
    [Number::toString] prints for it, the only thing the program does with
    one besides testing it for zero; the rendering of zero is [0].  An
    object lists its members in source order. *)
Inductive value :=
| VUndefined
| VNull
| VBool (b : bool)
| VNumber (repr : jsstring)
| VString (s : jsstring)
| VArray (items : list value)
| VObject (props : list (jsstring * value)).

(** Own data property of an object built by [JSON.parse]: of two members
    with the same name the later one wins. *)
Fixpoint lookup (k : jsstring) (props : list (jsstring * value)) : option value :=
  match props with
  | [] => None
  | (k', v) :: rest =>
      match lookup k rest with
      | Some later => Some later
      | None => if str_eqb k' k then Some v else None
      end
  end.

(** [v.k] for the member names the program reads ([type], [text],
    [content], [fields], [description], [summary], [parent], [key],
    [data], [error]): none of them exists on a built-in prototype, so on
    arrays and primitives the read gives [undefined]; on [null] and
    [undefined] it throws. *)
Definition getProp (v : value) (k : jsstring) : completion value :=
  match v with
  | VUndefined => Abrupt (cannotRead (lit "undefined") k)
  | VNull => Abrupt (cannotRead (lit "null") k)
  | VObject props =>
      match lookup k props with
      | Some x => Normal x
      | None => Normal VUndefined
      end
  | _ => Normal VUndefined
  end.

(** ToBoolean. *)
Definition truthy (v : value) : bool :=
  match v with
  | VUndefined | VNull => false
  | VBool b => b
  | VNumber repr => negb (str_eqb repr (lit "0"))
  | VString s => match s with [] => false | _ => true end
  | VArray _ | VObject _ => true
  end.

(** [typeof]. *)
Definition typeof (v : value) : jsstring :=
  match v with
  | VUndefined => lit "undefined"
  | VNull => lit "object"
  | VBool _ => lit "boolean"
  | VNumber _ => lit "number"
  | VString _ => lit "string"
  | VArray _ | VObject _ => lit "object"
  end.

(** [v === 'literal']. *)
Definition isString (v : value) (s : jsstring) : bool :=
  match v with
  | VString s' => str_eqb s' s
  | _ => false
  end.

(** ToString, as string concatenation and [String(...)] apply it.  An
    array prints its elements joined by commas, [null] and [undefined]
    elements as nothing.  An object prints through the inherited
    [Object.prototype.toString] unless a member named [toString] shadows it
    with a value that cannot be called, in which case the conversion
    throws. *)
Fixpoint toString (v : value) : completion jsstring :=
  match v with
  | VUndefined => Normal (lit "undefined")
  | VNull => Normal (lit "null")
  | VBool true => Normal (lit "true")
  | VBool false => Normal (lit "false")
  | VNumber repr => Normal repr
  | VString s => Normal s
  | VArray items =>
      let elements :=
        fix elements (xs : list value) : completion (list jsstring) :=
          match xs with
          | [] => Normal []
          | x :: xs' =>
              s <- match x with
                   | VUndefined | VNull => Normal []
                   | _ => toString x
                   end ;;
              rest <- elements xs' ;;
              ret (s :: rest)
          end in
      parts <- elements items ;;
      ret (join (lit ",") parts)
  | VObject props =>
      match lookup (lit "toString") props with
      | Some _ => Abrupt notConvertible
      | None => Normal (lit "[object Object]")
      end
  end.

(** What [for (const child of v)] iterates over: the elements of an array,
    the code points of a string; any other value is not iterable.
    [expression] is the source text of [v], which the error quotes. *)
Definition iterate (expression : jsstring) (v : value) : completion (list value) :=
  match v with
  | VArray items => Normal items
  | VString s => Normal (map VString (codePoints s))
  | _ => Abrupt (notIterable expression)
  end.

(** The loop [for (const x of xs) acc = body(x, acc)]; a throwing body
    leaves the loop. *)
Fixpoint forOf {A : Type} (xs : list value)
    (body : value -> A -> completion A) (acc : A) : completion A :=
  match xs with
  | [] => Normal acc
  | x :: rest => acc' <- body x acc ;; forOf rest body acc'
  end.

(** Nesting depth of a value: the deepest chain of calls the walker can
    make on it. *)
Fixpoint depth (v : value) : nat :=
  match v with
  | VArray items => S (list_max (map depth items))
  | VObject props => S (list_max (map (fun '(_, x) => depth x) props))
  | _ => 0
  end.

(** ** The outside world

    Every call that leaves the process is recorded: a child process started
    by [execSync], a request sent by [fetch], a completion requested with
    [generateText], and what [console.error] prints. *)
Inductive event :=
| Exec (command cwd : jsstring)
| Fetch (method url : jsstring) (headers : list (jsstring * jsstring))
    (body : option value)
| GenerateText (model : jsstring) (maxTokens : N)
    (systemPrompt userPrompt : jsstring) (temperature : jsstring)
| ConsoleError (label : jsstring) (error : option exn).

(** A computation with a trace of events and a normal or abrupt end. *)
Record eff (A : Type) := Eff {
  trace : list event;
  outcome : completion A
}.
Arguments Eff {A} trace outcome.

#[global] Instance eff_monad : Monad eff := {
  ret := fun A a => Eff [] (Normal a);
  bind := fun A B c k =>
    match outcome c with
    | Normal a => Eff (trace c ++ trace (k a)) (outcome (k a))
    | Abrupt e => Eff (trace c) (Abrupt e)
    end
}.

(** [throw e]. *)
Definition throw {A : Type} (e : exn) : eff A := Eff [] (Abrupt e).

(** A computation without events. *)
Definition pure {A : Type} (c : completion A) : eff A := Eff [] c.

(** [try { body } catch (error) { handler }]. *)
Definition try_catch {A : Type} (body : eff A) (handler : exn -> eff A) : eff A :=
  match outcome body with
  | Normal a => body
  | Abrupt e => Eff (trace body ++ trace (handler e)) (outcome (handler e))
  end.

(** [console.error(label, error)]. *)
Definition console_error (label : jsstring) (error : option exn) : eff unit :=
  Eff [ConsoleError label error] (Normal tt).

(** The requests among the events of a trace are those [isFetch] keeps. *)
Definition isFetch (ev : event) : bool :=
  match ev with Fetch _ _ _ _ => true | _ => false end.

(** ** Regular expressions

    The two patterns of the program use anchors, literals, character
    classes, greedy repetition and capturing groups.  The matcher is the
    backtracking matcher of ECMAScript in continuation-passing style: a
    pattern is run on a state with the continuation that matches the rest
    of the pattern, and the first success in priority order is the result.
    Matching is per code unit (the patterns carry no [u] flag). *)
Inductive regex :=
| Bol
| Char (c : N)
| Class (member : N -> bool)
| Seq (r1 r2 : regex)
| Star (r : regex)
| Plus (r : regex)
| Group (index : nat) (r : regex).

(** A literal run of characters, followed by [r]. *)
Definition Lit (s : jsstring) (r : regex) : regex :=
  fold_right (fun c r' => Seq (Char c) r') r s.

(** [endIndex] is the number of code units before [rest] in the input. *)
Record mstate := MState {
  endIndex : nat;
  rest : jsstring;
  captures : list (nat * jsstring)
}.

Definition advance (x : mstate) (rest' : jsstring) : mstate :=
  MState (S (endIndex x)) rest' (captures x).

(** Greedy repetition of the matcher [m] from [x], at least zero times: one
    more iteration first, the continuation [k] when that fails.  An
    iteration that consumes nothing is rejected, so [fuel], the number of
    code units that are left, bounds the iterations. *)
Fixpoint repeat (m : mstate -> (mstate -> option mstate) -> option mstate)
    (fuel : nat) (x : mstate) (k : mstate -> option mstate) : option mstate :=
  match fuel with
  | O => k x
  | S fuel' =>
      match m x (fun y =>
                   if Nat.ltb (List.length (rest y)) (List.length (rest x))
                   then repeat m fuel' y k else None) with
      | Some z => Some z
      | None => k x
      end
  end.

(** The patterns of the program have no group inside a repetition, so no
    capture is cleared between iterations. *)
Fixpoint matchRe (r : regex) (x : mstate) (k : mstate -> option mstate)
  : option mstate :=
  match r with
  | Bol => if Nat.eqb (endIndex x) 0 then k x else None
  | Char c =>
      match rest x with
      | d :: rest' => if N.eqb d c then k (advance x rest') else None
      | [] => None
      end
  | Class member =>
      match rest x with
      | d :: rest' => if member d then k (advance x rest') else None
      | [] => None
      end
  | Seq r1 r2 => matchRe r1 x (fun y => matchRe r2 y k)
  | Star r' => repeat (matchRe r') (List.length (rest x)) x k
  | Plus r' =>
      matchRe r' x (fun y => repeat (matchRe r') (List.length (rest y)) y k)
  | Group index r' =>
      matchRe r' x (fun y =>
        k (MState (endIndex y) (rest y)
             ((index, firstn (endIndex y - endIndex x) (rest x)) :: captures y)))
  end.

(** The scan of [RegExp.prototype.exec] and [String.prototype.match] on a
    fresh pattern: the match is tried at index 0, then 1, and so on. *)
Fixpoint scan (r : regex) (index : nat) (input : jsstring) : option mstate :=
  match matchRe r (MState index input []) Some with
  | Some m => Some m
  | None =>
      match input with
      | [] => None
      | _ :: input' => scan r (S index) input'
      end
  end.

Definition exec (r : regex) (input : jsstring) : option mstate := scan r 0 input.

(** Element [index] of the array a successful match returns. *)
Fixpoint capture (index : nat) (caps : list (nat * jsstring)) : option jsstring :=
  match caps with
  | [] => None
  | (i, s) :: caps' => if Nat.eqb i index then Some s else capture index caps'
  end.

Definition group (index : nat) (m : mstate) : option jsstring :=
  capture index (captures m).

(** The classes [\w], [\d], [.] and [[^-]]. *)
Definition between (lo hi c : N) : bool := N.leb lo c && N.leb c hi.
Definition isDigit (c : N) : bool := between 48 57 c.
Definition isWord (c : N) : bool :=
  between 97 122 c || between 65 90 c || isDigit c || N.eqb c 95.
Definition isLineTerminator (c : N) : bool :=
  N.eqb c 10 || N.eqb c 13 || N.eqb c 8232 || N.eqb c 8233.
Definition isDot (c : N) : bool := negb (isLineTerminator c).
Definition HYPHEN : N := 45.
Definition SLASH : N := 47.
Definition notHyphen (c : N) : bool := negb (N.eqb c HYPHEN).

(** What a pattern accepts, read as a relation between the state before
    and the state after: the declarative counterpart of [matchRe], without
    the priorities of backtracking. *)
Inductive Steps : regex -> mstate -> mstate -> Prop :=
| StepsBol x :
    endIndex x = 0 -> Steps Bol x x
| StepsChar c x rest' :
    rest x = c :: rest' -> Steps (Char c) x (advance x rest')
| StepsClass member d x rest' :
    rest x = d :: rest' -> member d = true ->
    Steps (Class member) x (advance x rest')
| StepsSeq r1 r2 x y z :
    Steps r1 x y -> Steps r2 y z -> Steps (Seq r1 r2) x z
| StepsStarStop r x :
    Steps (Star r) x x
| StepsStarMore r x y z :
    Steps r x y -> Steps (Star r) y z -> Steps (Star r) x z
| StepsPlus r x y z :
    Steps r x y -> Steps (Star r) y z -> Steps (Plus r) x z
| StepsGroup index r x y :
    Steps r x y ->
    Steps (Group index r) x
      (MState (endIndex y) (rest y)
         ((index, firstn (endIndex y - endIndex x) (rest x)) :: captures y)).

(** A run of segments [\w+/]. *)
Inductive slashPrefix : jsstring -> Prop :=
| slashPrefix_nil : slashPrefix []
| slashPrefix_segment word more :
    word <> [] -> Forall (fun c => isWord c = true) word ->
    slashPrefix more -> slashPrefix (word ++ [SLASH] ++ more).

(** ** Issue adapter: the rich-text walker
    [src/lib/jira-ticket-retrieval.ts], [extractTextFromADF]. *)
Module Jira.

(** The literal of the [listItem] branch (line 77) and the space after it,
    as the code units the source file's text decodes to. *)
Definition listItemPrefix : jsstring := [226; 8364; 162; 32]%N.

(** The body of [extractTextFromADF], statement by statement, with the
    function it calls on each child as a parameter.  [node.type] is read
    once: the first read throws on [null]/[undefined], and later reads of
    the same member return the same value. *)
Definition walkBody (extractTextFromADF : value -> completion jsstring)
    (node : value) : completion jsstring :=
  let text : jsstring := [] in
  type <- getProp node (lit "type") ;;
  text <- (if isString type (lit "text")
           then nodeText <- getProp node (lit "text") ;;
                if truthy nodeText
                then s <- toString nodeText ;; ret (text ++ s)
                else ret text
           else ret text) ;;
  let text := if isString type (lit "paragraph") then text ++ [LF] else text in
  let text := if isString type (lit "bulletList") then text ++ [LF] else text in
  let text := if isString type (lit "listItem") then text ++ listItemPrefix else text in
  content <- getProp node (lit "content") ;;
  text <- (if truthy content
           then children <- iterate (lit "node.content") content ;;
                forOf children
                  (fun child text =>
                     t <- extractTextFromADF child ;; ret (text ++ t))
                  text
           else ret text) ;;
  let text := if isString type (lit "paragraph") || isString type (lit "listItem")
              then text ++ [LF] else text in
  ret text.

(** The recursion, one activation per unit of [fuel]. *)
Fixpoint walkADF (fuel : nat) (node : value) : completion jsstring :=
  match fuel with
  | O => Abrupt stackExhausted
  | S fuel' => walkBody (walkADF fuel') node
  end.

(** [extractTextFromADF(node)]: the recursion is as deep as the value, and
    [extractTextFromADF_unfold] below shows that this is the function its
    body defines. *)
Definition extractTextFromADF (node : value) : completion jsstring :=
  walkADF (S (depth node)) node.

(** *** Rich-text description trees

    The tracker's document format as the specification names it: text
    runs, paragraphs, bullet lists, list items, under a document root. *)
Inductive adf :=
| Doc (content : list adf)
| Text (text : jsstring)
| Paragraph (content : list adf)
| BulletList (content : list adf)
| ListItem (content : list adf).

(** The JSON the tracker sends for a tree. *)
Fixpoint toJSON (t : adf) : value :=
  let container (type : jsstring) (content : list adf) :=
    VObject [(lit "type", VString type);
             (lit "content", VArray (map toJSON content))] in
  match t with
  | Doc content =>
      VObject [(lit "type", VString (lit "doc"));
               (lit "version", VNumber (lit "1"));
               (lit "content", VArray (map toJSON content))]
  | Text text =>
      VObject [(lit "type", VString (lit "text")); (lit "text", VString text)]
  | Paragraph content => container (lit "paragraph") content
  | BulletList content => container (lit "bulletList") content
  | ListItem content => container (lit "listItem") content
  end.

(** The rule set of the walk, written on trees: a run gives its text; a
    paragraph is a line break, its children, a line break; a bullet list is
    a line break and its children; a list item is the prefix, its children,
    a line break. *)
Fixpoint flatten (t : adf) : jsstring :=
  match t with
  | Doc content => concat (map flatten content)
  | Text text => text
  | Paragraph content => [LF] ++ concat (map flatten content) ++ [LF]
  | BulletList content => [LF] ++ concat (map flatten content)
  | ListItem content => listItemPrefix ++ concat (map flatten content) ++ [LF]
  end.

(** The tree of the specification's example. *)
Definition example_tree : list adf :=
  [Paragraph [Text (lit "Done")];
   BulletList [ListItem [Text (lit "A")]; ListItem [Text (lit "B")]]].

(** The bullet glyph U+2022 of the specification's expected output. *)
Definition BULLET : N := 8226.

(** The output the specification expects for the example. *)
Definition spec_expected_example : jsstring :=
  lit "Done" ++ [LF] ++ [LF; BULLET; 32%N] ++ lit "A" ++ [LF; BULLET; 32%N]
  ++ lit "B" ++ [LF].

(** *** Tickets *)

(** [JiraTicket].  [ticketId] and [title] are whatever the tracker sent
    under [key] and [summary]; [parents] is an optional member. *)
Inductive JiraTicket := mkJiraTicket {
  ticketId : value;
  markdownDescription : jsstring;
  description : jsstring;
  title : value;
  parents : option (list JiraTicket)
}.

(** What [fetch] resolves to: [ok], [statusText], and the result of
    [response.json()], which rejects on a body that is not JSON. *)
Record response := mkResponse {
  ok : bool;
  statusText : jsstring;
  json : completion value
}.

(** The fields of a [JiraClient]. *)
Record JiraClient := mkJiraClient {
  baseUrl : jsstring;
  email : jsstring;
  apiToken : jsstring
}.

Section Client.

(** [process.env]: a variable is unset or holds a string. *)
Variable env : jsstring -> option jsstring.

(** The network: what [fetch(url, { headers })] resolves to or rejects
    with. *)
Variable network : jsstring -> list (jsstring * jsstring) -> completion response.

(** [Buffer.from(s).toString('base64')]. *)
Variable base64 : jsstring -> jsstring.

Definition fetch (url : jsstring) (headers : list (jsstring * jsstring))
  : eff response :=
  Eff [Fetch (lit "GET") url headers None] (network url headers).

(** [new JiraClient(config)]. *)
Definition newJiraClient (domain email apiToken : jsstring) : JiraClient :=
  mkJiraClient (lit "https://" ++ domain ++ lit "/rest/api/3") email apiToken.

(** [typeof description === 'object' ? extractTextFromADF(description)
    : String(description || '')]. *)
Definition formatDescription (description : value) : completion jsstring :=
  if str_eqb (typeof description) (lit "object")
  then extractTextFromADF description
  else toString (if truthy description then description else VString []).

(** The address [getTicket] requests.  [URLSearchParams] prints the field
    list with its commas escaped. *)
Definition requestUrl (this : JiraClient) (ticketIdentifier : jsstring) : jsstring :=
  let queryParams := lit "fields=summary%2Cdescription%2Cparent" in
  baseUrl this ++ lit "/issue/" ++ ticketIdentifier ++ lit "?" ++ queryParams.

(** The headers [getTicket] sends. *)
Definition requestHeaders (this : JiraClient) : list (jsstring * jsstring) :=
  [(lit "Authorization",
    lit "Basic " ++ base64 (email this ++ lit ":" ++ apiToken this));
   (lit "Accept", lit "application/json");
   (lit "X-Force-Accept-Language", lit "true");
   (lit "Accept-Language", lit "en")].

(** The placeholder entry for a parent: only the identifier is filled. *)
Definition parentPlaceholder (key : value) : JiraTicket :=
  mkJiraTicket key [] [] (VString []) None.

(** [JiraClient.getTicket]. *)
Definition getTicket (this : JiraClient) (ticketIdentifier : jsstring)
  : eff (option JiraTicket) :=
  let url := requestUrl this ticketIdentifier in
  let headers := requestHeaders this in
  try_catch
    (response <- fetch url headers ;;
     (if negb (ok response)
      then throw (JsError (lit "Failed to fetch ticket: " ++ statusText response))
      else ret tt) ;;;
     json <- pure (json response) ;;
     fields <- pure (getProp json (lit "fields")) ;;
     description <- pure (getProp fields (lit "description")) ;;
     formattedDesc <- pure (formatDescription description) ;;
     summary <- pure (getProp fields (lit "summary")) ;;
     let ticket (parents : option (list JiraTicket)) :=
       mkJiraTicket (VString ticketIdentifier) formattedDesc formattedDesc
         summary parents in
     parent <- pure (getProp fields (lit "parent")) ;;
     if truthy parent
     then key <- pure (getProp parent (lit "key")) ;;
          ret (Some (ticket (Some [parentPlaceholder key])))
     else ret (Some (ticket None)))
    (fun error =>
       console_error (lit "Failed to fetch Jira ticket:") (Some error) ;;;
       ret None).

Definition missingConfiguration : jsstring :=
  lit "Missing Jira configuration. Please check your environment variables.".

(** [!process.env.NAME]: unset or empty. *)
Definition unset (v : option jsstring) : bool :=
  match v with
  | None | Some [] => true
  | Some _ => false
  end.

(** [jiraClientFrom]. *)
Definition jiraClientFrom : eff (option JiraClient) :=
  let JIRA_DOMAIN := env (lit "JIRA_DOMAIN") in
  let JIRA_EMAIL := env (lit "JIRA_EMAIL") in
  let JIRA_API_TOKEN := env (lit "JIRA_API_TOKEN") in
  if unset JIRA_DOMAIN || unset JIRA_EMAIL || unset JIRA_API_TOKEN
  then console_error missingConfiguration None ;;; ret None
  else
    match JIRA_DOMAIN, JIRA_EMAIL, JIRA_API_TOKEN with
    | Some domain, Some email, Some apiToken =>
        ret (Some (newJiraClient domain email apiToken))
    | _, _, _ => ret None (* excluded by the test above *)
    end.

(** [getTicket] of [src/app/api/jira/route.ts]: the handler logs and
    throws again. *)
Definition routeGetTicket (ticketId : jsstring) : eff (option JiraTicket) :=
  try_catch
    (jiraClient <- jiraClientFrom ;;
     match jiraClient with
     | None => throw (JsError missingConfiguration)
     | Some client => getTicket client ticketId
     end)
    (fun error =>
       console_error (lit "Error fetching Jira ticket:") (Some error) ;;;
       throw error).

End Client.

End Jira.

(** ** VCS adapter, [src/app/api/git/route.ts] *)
Module Git.

(** The pattern [/HEAD branch: (.+)/]. *)
Definition headBranchPattern : regex :=
  Lit (lit "HEAD branch: ") (Group 1 (Plus (Class isDot))).

(** The marker of the checked-out branch in the listing. *)
Definition currentMarker : jsstring := lit "* ".

(** [branches.includes(branch)]. *)
Definition includes (branches : list jsstring) (branch : jsstring) : bool :=
  existsb (str_eqb branch) branches.

Definition commonDefaultBranches : list jsstring :=
  [lit "develop"; lit "main"; lit "master"].

(** The loop over [commonDefaultBranches]: the first of them that the
    branch list includes. *)
Definition firstCommonBranch (branches : list jsstring) : option jsstring :=
  find (fun branch => includes branches branch) commonDefaultBranches.

(** Whether a string begins, or ends, with a code unit that [trim]
    removes. *)
Definition leadingWhiteSpace (s : jsstring) : bool :=
  match s with
  | c :: _ => isWhiteSpace c
  | [] => false
  end.
Definition trailingWhiteSpace (s : jsstring) : bool := leadingWhiteSpace (rev s).

(** A branch name as a caller expects one: not empty, no white space at
    either end, no marker in front. *)
Definition cleanBranchName (branch : jsstring) : Prop :=
  branch <> [] /\ leadingWhiteSpace branch = false /\
  trailingWhiteSpace branch = false /\
  startsWith branch currentMarker = false.

(** The default value of [excludePatterns]. *)
Definition defaultExcludePatterns : list jsstring :=
  [lit "**/*.snap"; lit "**/*.json"].

Section Adapter.

(** [existsSync] of [node:fs]. *)
Variable existsSync : jsstring -> bool.

(** The child process [execSync(command, { cwd, encoding: 'utf8' })] runs:
    its output, or the error of a failed command. *)
Variable shell : jsstring -> jsstring -> completion jsstring.

(** [basename] of [path]. *)
Variable basename : jsstring -> jsstring.

Definition execSync (command cwd : jsstring) : eff jsstring :=
  Eff [Exec command cwd] (shell command cwd).

(** The chain [output.split('\n').map(trim).filter(nonempty).map(strip)]. *)
Definition parseBranches (output : jsstring) : list jsstring :=
  map (fun branch =>
         if startsWith branch currentMarker then substring 2 branch else branch)
    (filter (fun branch => Nat.ltb 0 (List.length branch))
       (map (fun branch => trim branch) (split LF output))).

(** [getBranches]. *)
Definition getBranches (projectPath : jsstring) : eff (list jsstring) :=
  if negb (existsSync projectPath) then ret []
  else
    try_catch
      (output <- execSync (lit "git branch") projectPath ;;
       ret (parseBranches output))
      (fun error =>
         console_error (lit "Error getting git branches:") (Some error) ;;;
         ret []).

(** [getCurrentBranch]; [None] is [null]. *)
Definition getCurrentBranch (projectPath : jsstring) : eff (option jsstring) :=
  if negb (existsSync projectPath) then ret None
  else
    try_catch
      (output <- execSync (lit "git branch --show-current") projectPath ;;
       ret (Some (trim output)))
      (fun error =>
         console_error (lit "Error getting current git branch:") (Some error) ;;;
         ret None).

(** The inner [try] of [getDefaultBranch]: [Some branch] when it returns
    from the function, [None] when control continues to the fallback. *)
Definition remoteHeadBranch (projectPath : jsstring) : eff (option jsstring) :=
  try_catch
    (remoteOutput <- execSync (lit "git remote show origin") projectPath ;;
     let headBranchMatch := exec headBranchPattern remoteOutput in
     match headBranchMatch with
     | Some m =>
         match group 1 m with
         | Some (c :: s) => ret (Some (trim (c :: s)))
         | _ => ret None
         end
     | None => ret None
     end)
    (fun e => ret None).

(** [getDefaultBranch]. *)
Definition getDefaultBranch (projectPath : jsstring) : eff (option jsstring) :=
  if negb (existsSync projectPath) then ret None
  else
    try_catch
      (branches <- getBranches projectPath ;;
       match firstCommonBranch branches with
       | Some branch => ret (Some branch)
       | None =>
           remote <- remoteHeadBranch projectPath ;;
           match remote with
           | Some branch => ret (Some branch)
           | None =>
               ret (if Nat.ltb 0 (List.length branches)
                    then nth_error branches 0 else None)
           end
       end)
      (fun error =>
         console_error (lit "Error getting default git branch:") (Some error) ;;;
         ret None).

(** [getDiff]; an omitted [excludePatterns] takes the default. *)
Definition getDiff (projectPath fromBranch toBranch : jsstring)
    (excludePatterns : option (list jsstring)) : eff (option jsstring) :=
  let excludePatterns :=
    match excludePatterns with
    | Some patterns => patterns
    | None => defaultExcludePatterns
    end in
  if negb (existsSync projectPath) then ret None
  else
    try_catch
      (let excludeArgs :=
         join (lit " ")
           (map (fun pattern => lit "':(exclude)" ++ pattern ++ lit "'")
              excludePatterns) in
       output <- execSync
                   (lit "git diff " ++ fromBranch ++ lit "..." ++ toBranch
                    ++ lit " -- " ++ excludeArgs)
                   projectPath ;;
       ret (Some output))
      (fun error =>
         console_error (lit "Error getting git diff:") (Some error) ;;;
         ret None).

(** [getProjectName]. *)
Definition getProjectName (projectPath : jsstring) : eff (option jsstring) :=
  if negb (existsSync projectPath) then ret None
  else ret (Some (basename projectPath)).

End Adapter.

End Git.

(** ** Matching delegate, [src/app/api/llm/route.ts] and the browser-side
    wrapper of [src/lib/jira-ticket-retrieval.ts] *)
Module Llm.

(** The pieces of the template literal [userPrompt] around its two
    interpolations, line breaks and indentation as in the source. *)
Definition indent : jsstring := lit "      ".
Definition fence : jsstring := lit "```".
Definition openFence : jsstring := fence ++ lit "plaintext" ++ [LF] ++ indent.
Definition closeFence : jsstring := [LF] ++ indent ++ fence.

Definition userPrompt (ticketDescription gitDiff : jsstring) : jsstring :=
  [LF] ++ indent
  ++ lit "I have a Jira ticket below. Could you tell me whether the implementation conforms to the description, and if not, what needs to be changed?"
  ++ [LF] ++ [LF] ++ indent ++ lit "The ticket:" ++ [LF] ++ indent
  ++ fence ++ lit "plaintext" ++ [LF] ++ indent
  ++ ticketDescription
  ++ [LF] ++ indent ++ fence ++ [LF] ++ [LF] ++ indent
  ++ lit "The git diff:" ++ [LF] ++ indent
  ++ fence ++ lit "plaintext" ++ [LF] ++ indent
  ++ gitDiff
  ++ [LF] ++ indent ++ fence ++ [LF] ++ lit "    ".

Definition systemPrompt : jsstring :=
  [LF] ++ indent
  ++ lit "You are supposed to validate and verify whether the provided git differences conform to the provided Jira ticket description."
  ++ [LF] ++ indent
  ++ lit "Do not send summaries back, only provide feedback on the diff whether there are any changes required."
  ++ [LF] ++ indent
  ++ lit "If no changes are required, just say that."
  ++ [LF] ++ indent
  ++ lit "Only note the AC points and whether they are conformed, by prefixed with checkboxes and the reasoning why it does or doesn't conform."
  ++ [LF] ++ lit "    ".

(** [error instanceof Error ? error.message : String(error)]. *)
Definition describe (error : exn) : jsstring :=
  match error with
  | JsError message => message
  | Thrown rendered => rendered
  end.

Definition errorPrefix : jsstring := lit "Error validating diff: ".

Section Delegate.

(** The model provider behind [generateText]: the [text] of the result for
    a system and a user message, or the error the call rejects with. *)
Variable provider : jsstring -> jsstring -> completion jsstring.

Definition generateText (model : jsstring) (maxTokens : N)
    (system user temperature : jsstring) : eff jsstring :=
  Eff [GenerateText model maxTokens system user temperature]
    (provider system user).

(** [validateDiffAgainstTicket] of the route. *)
Definition validateDiffAgainstTicket (ticketDescription gitDiff : jsstring)
  : eff jsstring :=
  try_catch
    (text <- generateText (lit "gpt-4.1-mini-2025-04-14") 10000
               systemPrompt (userPrompt ticketDescription gitDiff) (lit "0.7") ;;
     ret text)
    (fun error =>
       console_error (lit "Error validating diff against ticket:") (Some error) ;;;
       ret (errorPrefix ++ describe error)).

(** The route [/api/llm] as the browser sees it: [fetch] resolves to a
    response or rejects. *)
Variable api : value -> completion Jira.response.

(** The request of the wrapper; [body] is the object that
    [JSON.stringify] serialises. *)
Definition post (ticketDescription gitDiff : jsstring) : eff Jira.response :=
  let body :=
    VObject [(lit "action", VString (lit "validateDiffAgainstTicket"));
             (lit "ticketDescription", VString ticketDescription);
             (lit "gitDiff", VString gitDiff)] in
  Eff [Fetch (lit "POST") (lit "/api/llm")
         [(lit "Content-Type", lit "application/json")] (Some body)]
    (api body).

(** [a || b] on values. *)
Definition orElse (a b : value) : value := if truthy a then a else b.

(** [throw new Error(v)]: the message is [String(v)]. *)
Definition newError (v : value) : eff value :=
  message <- pure (toString v) ;; throw (JsError message).

(** [validateDiffAgainstTicket] of the browser-side wrapper; it returns
    [result.data || ''] as it came. *)
Definition clientValidateDiffAgainstTicket (ticketDescription gitDiff : jsstring)
  : eff value :=
  try_catch
    (response <- post ticketDescription gitDiff ;;
     result <- pure (Jira.json response) ;;
     if negb (Jira.ok response)
     then error <- pure (getProp result (lit "error")) ;;
          newError (orElse error
                      (VString (lit "Failed to validate diff against ticket")))
     else data <- pure (getProp result (lit "data")) ;;
          ret (orElse data (VString [])))
    (fun error =>
       console_error (lit "Error validating diff against ticket:") (Some error) ;;;
       ret (VString (errorPrefix ++ describe error))).

End Delegate.

End Llm.

(** ** Ticket-identifier inference, [src/app/page.tsx] *)
Module Page.

(** The pattern [/^(?:\w+\/)*([^-]+)-(\d+)/g]. *)
Definition ticketPattern : regex :=
  Seq Bol
    (Seq (Star (Seq (Plus (Class isWord)) (Char SLASH)))
       (Seq (Group 1 (Plus (Class notHyphen)))
          (Seq (Char HYPHEN) (Group 2 (Plus (Class isDigit)))))).

(** [matches && matches.length > 2 ? `${matches[1]}-${matches[2]}` :
    undefined]: a match of the pattern has three elements, both groups
    set. *)
Definition ticketIdOf (matches : option mstate) : option jsstring :=
  match matches with
  | Some m =>
      match group 1 m, group 2 m with
      | Some key, Some number => Some (key ++ [HYPHEN] ++ number)
      | _, _ => None
      end
  | None => None
  end.

(** The inference of [setWorkingBranch]. *)
Definition inferTicketId (workingBranch : jsstring) : option jsstring :=
  ticketIdOf (exec ticketPattern workingBranch).

(** The inference of the project-path handler: no branch, no match. *)
Definition inferFromCurrentBranch (currentWorkingBranch : option jsstring)
  : option jsstring :=
  let matches :=
    match currentWorkingBranch with
    | Some (c :: s) => exec ticketPattern (c :: s)
    | _ => None
    end in
  ticketIdOf matches.

End Page.

(** ** Sample worlds

    Concrete file systems, command outputs, environments and responses, on
    which the statements below are instantiated. *)
Module Samples.

Definition repository : jsstring := lit "/home/dev/project".
Definition nowhere : jsstring := lit "/home/dev/missing".

Definition existsSync (path : jsstring) : bool := str_eqb path repository.

Definition basename (path : jsstring) : jsstring := lit "project".

(** A listing with the three conventional names in reverse priority
    order. *)
Definition branchListing : jsstring :=
  lit "  master" ++ [LF] ++ lit "  main" ++ [LF]
  ++ lit "* feature/PROJ-123-add-button" ++ [LF] ++ lit "  develop" ++ [LF].

Definition remoteListing : jsstring :=
  lit "* remote origin" ++ [LF]
  ++ lit "  Fetch URL: git@example.com:team/project.git" ++ [LF]
  ++ lit "  HEAD branch: trunk" ++ [LF]
  ++ lit "  Remote branches:" ++ [LF]
  ++ lit "    trunk tracked" ++ [LF].

Definition commandFailed : exn := JsError (lit "Command failed").

Definition shell (command cwd : jsstring) : completion jsstring :=
  if str_eqb command (lit "git branch") then Normal branchListing
  else if str_eqb command (lit "git remote show origin") then Normal remoteListing
  else Abrupt commandFailed.

(** A repository without a conventional branch name. *)
Definition shellTrunk (command cwd : jsstring) : completion jsstring :=
  if str_eqb command (lit "git branch")
  then Normal (lit "* trunk" ++ [LF] ++ lit "  topic" ++ [LF])
  else if str_eqb command (lit "git remote show origin") then Normal remoteListing
  else Abrupt commandFailed.

(** The listing of a repository whose checked-out branch has a name that
    begins with a no-break space (U+00A0), which git admits in a name. *)
Definition shellNbsp (command cwd : jsstring) : completion jsstring :=
  Normal (lit "* " ++ [160%N] ++ lit "x" ++ [LF] ++ lit "  main" ++ [LF]).

(** A repository with one branch, whose remote has no HEAD: git prints
    [(unknown)] after the label. *)
Definition remoteWithoutHead : jsstring :=
  lit "* remote origin" ++ [LF]
  ++ lit "  Fetch URL: https://github.com/Acme/Hub.git" ++ [LF]
  ++ lit "  Push  URL: https://github.com/Acme/Hub.git" ++ [LF]
  ++ lit "  HEAD branch: (unknown)" ++ [LF].

Definition shellNoHead (command cwd : jsstring) : completion jsstring :=
  if str_eqb command (lit "git branch")
  then Normal (lit "* feature/login" ++ [LF])
  else if str_eqb command (lit "git remote show origin")
  then Normal remoteWithoutHead
  else Abrupt commandFailed.

Definition envComplete (name : jsstring) : option jsstring :=
  if str_eqb name (lit "JIRA_DOMAIN") then Some (lit "example.atlassian.net")
  else if str_eqb name (lit "JIRA_EMAIL") then Some (lit "dev@example.com")
  else if str_eqb name (lit "JIRA_API_TOKEN") then Some (lit "secret")
  else None.

Definition envWithoutToken (name : jsstring) : option jsstring :=
  if str_eqb name (lit "JIRA_API_TOKEN") then None else envComplete name.

(** A stand-in for the base64 encoder. *)
Definition base64 (s : jsstring) : jsstring := s.

Definition client : Jira.JiraClient :=
  Jira.newJiraClient (lit "example.atlassian.net") (lit "dev@example.com")
    (lit "secret").

Definition fieldsWithParent : value :=
  VObject [(lit "summary", VString (lit "Add button"));
           (lit "description", Jira.toJSON (Jira.Doc Jira.example_tree));
           (lit "parent", VObject [(lit "id", VString (lit "10001"));
                                   (lit "key", VString (lit "PROJ-100"))])].

Definition fieldsNullDescription : value :=
  VObject [(lit "summary", VString (lit "Add button"));
           (lit "description", VNull)].

Definition issue (fields : value) : value :=
  VObject [(lit "id", VString (lit "10002"));
           (lit "key", VString (lit "PROJ-123"));
           (lit "fields", fields)].

Definition respond (fields : value) : Jira.response :=
  Jira.mkResponse true (lit "OK") (Normal (issue fields)).

Definition networkWithParent (url : jsstring) (headers : list (jsstring * jsstring))
  : completion Jira.response := Normal (respond fieldsWithParent).

Definition networkNullDescription (url : jsstring)
    (headers : list (jsstring * jsstring)) : completion Jira.response :=
  Normal (respond fieldsNullDescription).

End Samples.

(** ** Browser-side wrapper of the issue route,
    [src/lib/jira-ticket-retrieval.ts], [getJiraTicket] *)
Module Browser.

Section Wrapper.

(** The route [/api/jira] as the browser sees it: what [fetch] resolves to
    for a request body, or the error it rejects with. *)
Variable api : value -> completion Jira.response.

(** The request of the wrapper; [body] is the object that
    [JSON.stringify] serialises. *)
Definition post (ticketId : jsstring) : eff Jira.response :=
  let body :=
    VObject [(lit "action", VString (lit "getTicket"));
             (lit "ticketId", VString ticketId)] in
  Eff [Fetch (lit "POST") (lit "/api/jira")
         [(lit "Content-Type", lit "application/json")] (Some body)]
    (api body).

(** [getJiraTicket]: the ticket as the route sent it, or [null]. *)
Definition getJiraTicket (ticketId : jsstring) : eff value :=
  try_catch
    (response <- post ticketId ;;
     result <- pure (Jira.json response) ;;
     if negb (Jira.ok response)
     then error <- pure (getProp result (lit "error")) ;;
          Llm.newError (Llm.orElse error
                          (VString (lit "Failed to fetch Jira ticket")))
     else data <- pure (getProp result (lit "data")) ;;
          ret (Llm.orElse data VNull))
    (fun error =>
       console_error (lit "Error fetching Jira ticket:") (Some error) ;;;
       ret VNull).

End Wrapper.

End Browser.

(** ** The [POST] handlers of the three routes

    [src/app/api/git/route.ts], [src/app/api/jira/route.ts] and
    [src/app/api/llm/route.ts].  A handler receives what [request.json()]
    gives and answers with [NextResponse.json(body, { status })]. *)
Module Routes.

(** The body of an answer: [{ data }], [{ error: '...' }] with a text, or
    [{ error: String(error) }] for a caught error. *)
Inductive replyBody :=
| Data (data : value)
| ErrorText (message : jsstring)
| ErrorString (error : exn).

Record reply := Reply {
  status : N;
  body : replyBody
}.

(** [request.json()]: the parsed body, or the rejection with an instance of
    [Error] (a [SyntaxError] for a body that is not JSON). *)
Inductive parsed :=
| Parsed (v : value)
| Rejected (message : jsstring).

Definition requestJson (request : parsed) : eff value :=
  match request with
  | Parsed v => ret v
  | Rejected message => throw (JsError message)
  end.

(** The errors of a destructuring pattern and of a call on a value that is
    no function, in V8's wording. *)
Definition cannotDestructure (property source what : jsstring) : exn :=
  JsError (lit "Cannot destructure property '" ++ property ++ lit "' of '"
           ++ source ++ lit "' as it is " ++ what ++ lit ".").
Definition notFunction (expression : jsstring) : exn :=
  JsError (expression ++ lit " is not a function").

(** [const { first, ... } = v]: [null] and [undefined] cannot be
    destructured; the error names the first property of the pattern. *)
Definition destructurable (first source : jsstring) (v : value) : completion unit :=
  match v with
  | VUndefined => Abrupt (cannotDestructure first source (lit "undefined"))
  | VNull => Abrupt (cannotDestructure first source (lit "null"))
  | _ => Normal tt
  end.

(** A member of a value that can be destructured. *)
Definition member (v : value) (k : jsstring) : value :=
  match getProp v k with
  | Normal x => x
  | Abrupt _ => VUndefined
  end.

(** [String(error.message)]: a thrown value that is no [Error] has no
    [message]. *)
Definition messageOf (error : exn) : jsstring :=
  match error with
  | JsError message => message
  | Thrown _ => lit "undefined"
  end.

Definition invalidAction : reply := Reply 400 (ErrorText (lit "Invalid action")).

(** What [NextResponse.json({ data })] carries for the results of the
    adapter. *)
Definition ofBranches (branches : list jsstring) : value :=
  VArray (map VString branches).
Definition ofNullable (s : option jsstring) : value :=
  match s with
  | Some s => VString s
  | None => VNull
  end.

(** *** [src/app/api/git/route.ts] *)
Section Git.

Variable existsSync : jsstring -> bool.
Variable shell : jsstring -> jsstring -> completion jsstring.
Variable basename : jsstring -> jsstring.

(** What [node:fs] and [child_process] make of a path argument that is no
    string.  [existsSync] and the [cwd] option of [execSync] pass their
    argument through the same validation of Node, which takes an object
    with the members of a file URL for the path of that file and refuses
    every other value that is no string: the path, or [None] for a value
    that is refused. *)
Variable fileURLToPath : value -> option jsstring.

(** The [TypeError] that [basename] throws for an argument that is no
    string. *)
Variable invalidArgType : value -> exn.

(** The path a [projectPath] of any type stands for. *)
Definition pathOf (projectPath : value) : option jsstring :=
  match projectPath with
  | VString path => Some path
  | _ => fileURLToPath projectPath
  end.

(** The adapter on the [projectPath] of a request, which can be any value:
    [existsSync] answers [false] for an argument that is no path, so the
    function returns its sentinel; for an argument that stands for a path
    the guard and the command see that path. *)
Definition onPath {A : Type} (projectPath : value) (sentinel : A)
    (f : jsstring -> eff A) : eff A :=
  match pathOf projectPath with
  | Some path => f path
  | None => ret sentinel
  end.

(** [getProjectName] on the [projectPath] of a request: past the guard
    [basename] takes a string only, and no [try] surrounds it. *)
Definition getProjectName (projectPath : value) : eff (option jsstring) :=
  onPath projectPath None (fun path =>
    if negb (existsSync path) then ret None
    else match projectPath with
         | VString s => ret (Some (basename s))
         | _ => throw (invalidArgType projectPath)
         end).

(** [excludePatterns.map(pattern => `':(exclude)${pattern}'`)] on the
    elements of an array. *)
Fixpoint excludeEach (patterns : list value) : completion (list jsstring) :=
  match patterns with
  | [] => Normal []
  | pattern :: more =>
      s <- toString pattern ;;
      rest <- excludeEach more ;;
      ret ((lit "':(exclude)" ++ s ++ lit "'") :: rest)
  end.

(** The first statement of the [try] of [getDiff] for an argument of any
    type: [undefined] takes the default of the parameter, a value without
    [map] cannot be mapped. *)
Definition excludeArgsOf (excludePatterns : value) : completion jsstring :=
  match excludePatterns with
  | VUndefined =>
      parts <- excludeEach (map VString Git.defaultExcludePatterns) ;;
      ret (join (lit " ") parts)
  | VArray patterns =>
      parts <- excludeEach patterns ;; ret (join (lit " ") parts)
  | VNull => Abrupt (cannotRead (lit "null") (lit "map"))
  | _ => Abrupt (notFunction (lit "excludePatterns.map"))
  end.

(** [getDiff] on the arguments of a request. *)
Definition getDiff (projectPath fromBranch toBranch excludePatterns : value)
  : eff (option jsstring) :=
  onPath projectPath None (fun path =>
    if negb (existsSync path) then ret None
    else
      try_catch
        (excludeArgs <- pure (excludeArgsOf excludePatterns) ;;
         from <- pure (toString fromBranch) ;;
         to <- pure (toString toBranch) ;;
         output <- Git.execSync shell
                     (lit "git diff " ++ from ++ lit "..." ++ to
                      ++ lit " -- " ++ excludeArgs)
                     path ;;
         ret (Some output))
        (fun error =>
           console_error (lit "Error getting git diff:") (Some error) ;;;
           ret None)).

(** [POST] of the VCS route.  The handler logs and answers with the
    message of the error. *)
Definition gitPOST (request : parsed) : eff reply :=
  try_catch
    (body <- requestJson request ;;
     pure (destructurable (lit "action") (lit "body") body) ;;;
     let action := member body (lit "action") in
     let projectPath := member body (lit "projectPath") in
     let fromBranch := member body (lit "fromBranch") in
     let toBranch := member body (lit "toBranch") in
     let excludePatterns := member body (lit "excludePatterns") in
     if isString action (lit "getBranches")
     then data <- onPath projectPath [] (Git.getBranches existsSync shell) ;;
          ret (Reply 200 (Data (ofBranches data)))
     else if isString action (lit "getCurrentBranch")
     then data <- onPath projectPath None (Git.getCurrentBranch existsSync shell) ;;
          ret (Reply 200 (Data (ofNullable data)))
     else if isString action (lit "getDefaultBranch")
     then data <- onPath projectPath None (Git.getDefaultBranch existsSync shell) ;;
          ret (Reply 200 (Data (ofNullable data)))
     else if isString action (lit "getDiff")
     then data <- getDiff projectPath fromBranch toBranch excludePatterns ;;
          ret (Reply 200 (Data (ofNullable data)))
     else if isString action (lit "getProjectName")
     then data <- getProjectName projectPath ;;
          ret (Reply 200 (Data (ofNullable data)))
     else ret invalidAction)
    (fun error =>
       console_error (lit "Error in git API:") (Some (Thrown (messageOf error))) ;;;
       ret (Reply 500 (ErrorText (messageOf error)))).

End Git.

(** *** [src/app/api/llm/route.ts] *)
Section Llm.

Variable provider : jsstring -> jsstring -> completion jsstring.

(** [validateDiffAgainstTicket] on the arguments of a request: the
    template of the user prompt converts them to strings, inside the
    [try]. *)
Definition validateDiffAgainstTicket (ticketDescription gitDiff : value)
  : eff jsstring :=
  try_catch
    (description <- pure (toString ticketDescription) ;;
     diff <- pure (toString gitDiff) ;;
     text <- Llm.generateText provider (lit "gpt-4.1-mini-2025-04-14") 10000
               Llm.systemPrompt (Llm.userPrompt description diff) (lit "0.7") ;;
     ret text)
    (fun error =>
       console_error (lit "Error validating diff against ticket:") (Some error) ;;;
       ret (Llm.errorPrefix ++ Llm.describe error)).

(** [POST] of the model route. *)
Definition llmPOST (request : parsed) : eff reply :=
  try_catch
    (body <- requestJson request ;;
     pure (destructurable (lit "action") (lit "(intermediate value)") body) ;;;
     let action := member body (lit "action") in
     let ticketDescription := member body (lit "ticketDescription") in
     let gitDiff := member body (lit "gitDiff") in
     if isString action (lit "validateDiffAgainstTicket")
     then data <- validateDiffAgainstTicket ticketDescription gitDiff ;;
          ret (Reply 200 (Data (VString data)))
     else ret invalidAction)
    (fun error =>
       console_error (lit "Error in LLM API:") (Some error) ;;;
       ret (Reply 500 (ErrorString error))).

End Llm.

(** *** [src/app/api/jira/route.ts] *)
Section Jira.

Variable env : jsstring -> option jsstring.
Variable network : jsstring -> list (jsstring * jsstring) -> completion Jira.response.
Variable base64 : jsstring -> jsstring.

(** A ticket as [JSON.stringify] writes it: a member that is [undefined]
    is left out. *)
Definition present (k : jsstring) (v : value) : list (jsstring * value) :=
  match v with
  | VUndefined => []
  | _ => [(k, v)]
  end.

Fixpoint ofTicket (ticket : Jira.JiraTicket) : value :=
  VObject
    (present (lit "ticketId") (Jira.ticketId ticket)
     ++ present (lit "title") (Jira.title ticket)
     ++ [(lit "description", VString (Jira.description ticket));
         (lit "markdownDescription", VString (Jira.markdownDescription ticket))]
     ++ match Jira.parents ticket with
        | Some parents => [(lit "parents", VArray (map ofTicket parents))]
        | None => []
        end).

Definition ofTicketOrNull (ticket : option Jira.JiraTicket) : value :=
  match ticket with
  | Some ticket => ofTicket ticket
  | None => VNull
  end.

(** [jiraClient.getTicket(ticketId)] for a [ticketId] of any type: the
    address is built from its string, before the [try] of the method; the
    ticket carries the value itself. *)
Definition clientGetTicket (this : Jira.JiraClient) (ticketId : value)
  : eff (option Jira.JiraTicket) :=
  match ticketId with
  | VString s => Jira.getTicket network base64 this s
  | _ =>
      text <- pure (toString ticketId) ;;
      ticket <- Jira.getTicket network base64 this text ;;
      ret (option_map
             (fun t => Jira.mkJiraTicket ticketId (Jira.markdownDescription t)
                         (Jira.description t) (Jira.title t) (Jira.parents t))
             ticket)
  end.

(** [getTicket] of the route, on the [ticketId] of a request. *)
Definition getTicket (ticketId : value) : eff (option Jira.JiraTicket) :=
  try_catch
    (jiraClient <- Jira.jiraClientFrom env ;;
     match jiraClient with
     | None => throw (JsError Jira.missingConfiguration)
     | Some client => clientGetTicket client ticketId
     end)
    (fun error =>
       console_error (lit "Error fetching Jira ticket:") (Some error) ;;;
       throw error).

(** [POST] of the issue route. *)
Definition jiraPOST (request : parsed) : eff reply :=
  try_catch
    (body <- requestJson request ;;
     pure (destructurable (lit "action") (lit "(intermediate value)") body) ;;;
     let action := member body (lit "action") in
     let ticketId := member body (lit "ticketId") in
     if isString action (lit "getTicket")
     then data <- getTicket ticketId ;;
          ret (Reply 200 (Data (ofTicketOrNull data)))
     else ret invalidAction)
    (fun error =>
       console_error (lit "Error in Jira API:") (Some error) ;;;
       ret (Reply 500 (ErrorString error))).

End Jira.

End Routes.

(** ** The form, [src/app/page.tsx]

    The state of the page and three of its handlers.  A handler that calls
    [setConfig(cfg => ...)] gives the update it applies to the
    configuration; the other setters act on the view.  [getDiff] of
    [@/lib/git-utils] is not part of the sources and is a parameter. *)
Module Ui.

(** [Config]: every member is a string or [undefined]; [ticketDescription]
    holds what the route sent as [markdownDescription]. *)
Record Config := mkConfig {
  ticketId : value;
  ticketDescription : value;
  targetBranch : value;
  workingBranch : value;
  projectPath : value;
  projectName : value;
  additionalInfo : value
}.

(** [useState<Config>({})]. *)
Definition emptyConfig : Config :=
  mkConfig VUndefined VUndefined VUndefined VUndefined VUndefined VUndefined
    VUndefined.

(** [validationResult] and [isLoading]. *)
Record View := mkView {
  validationResult : value;
  isLoading : bool
}.

(** [a ?? b]. *)
Definition nullish (v : value) : bool :=
  match v with
  | VUndefined | VNull => true
  | _ => false
  end.
Definition coalesce (a b : value) : value := if nullish a then b else a.

Definition ofInferred (id : option jsstring) : value :=
  match id with
  | Some id => VString id
  | None => VUndefined
  end.

(** [setWorkingBranch]: the update of the configuration. *)
Definition setWorkingBranch (workingBranch : jsstring) (cfg : Config) : Config :=
  let ticketId' := ofInferred (Page.inferTicketId workingBranch) in
  mkConfig (coalesce (ticketId cfg) ticketId') (ticketDescription cfg)
    (targetBranch cfg) (VString workingBranch) (projectPath cfg)
    (projectName cfg) (additionalInfo cfg).

Section Handlers.

(** The routes [/api/jira] and [/api/llm] as the browser sees them. *)
Variable jiraApi : value -> completion Jira.response.
Variable llmApi : value -> completion Jira.response.

(** [getDiff] of [@/lib/git-utils]: the diff it resolves to, the error it
    rejects with. *)
Variable getDiff : value -> value -> value -> eff value.

(** [fetchJiraTicket]: the update of the configuration. *)
Definition fetchJiraTicket (ticketId : jsstring) : eff (Config -> Config) :=
  desc <- try_catch
            (ticket <- Browser.getJiraTicket jiraApi ticketId ;;
             if truthy ticket
             then pure (getProp ticket (lit "markdownDescription"))
             else ret (VString (lit "Could not find Jira ticket: " ++ ticketId)))
            (fun error =>
               ret (VString (lit "Error fetching Jira ticket: "
                             ++ Llm.describe error))) ;;
  ret (fun cfg =>
         mkConfig (VString ticketId) desc (targetBranch cfg) (workingBranch cfg)
           (projectPath cfg) (projectName cfg) (additionalInfo cfg)).

(** [validateDiffAgainstTicket] of the browser-side wrapper on arguments of
    any type: [JSON.stringify] leaves out a member that is [undefined]. *)
Definition validateDiffAgainstTicket (ticketDescription gitDiff : value)
  : eff value :=
  let body :=
    VObject ([(lit "action", VString (lit "validateDiffAgainstTicket"))]
             ++ Routes.present (lit "ticketDescription") ticketDescription
             ++ Routes.present (lit "gitDiff") gitDiff) in
  try_catch
    (response <- Eff [Fetch (lit "POST") (lit "/api/llm")
                        [(lit "Content-Type", lit "application/json")]
                        (Some body)]
                   (llmApi body) ;;
     result <- pure (Jira.json response) ;;
     if negb (Jira.ok response)
     then error <- pure (getProp result (lit "error")) ;;
          Llm.newError (Llm.orElse error
                          (VString (lit "Failed to validate diff against ticket")))
     else data <- pure (getProp result (lit "data")) ;;
          ret (Llm.orElse data (VString [])))
    (fun error =>
       console_error (lit "Error validating diff against ticket:") (Some error) ;;;
       ret (VString (Llm.errorPrefix ++ Llm.describe error))).

Definition selectFirst : jsstring :=
  lit "Please select a project and branches to compare.".
Definition noDescription : jsstring :=
  lit "No Jira ticket description available.".
Definition noDifferences : jsstring :=
  lit "No differences found between the selected branches.".

(** [handleValidate] with the configuration of its closure, on the view.
    The [finally] clause runs on every way out of the [try]. *)
Definition handleValidate (config : Config) (view : View) : eff View :=
  if negb (truthy (projectPath config)) || negb (truthy (workingBranch config))
     || negb (truthy (targetBranch config))
  then ret (mkView (VString selectFirst) (isLoading view))
  else if negb (truthy (ticketDescription config))
  then ret (mkView (VString noDescription) (isLoading view))
  else
    let view := mkView (validationResult view) true in
    view <- try_catch
              (diff <- getDiff (projectPath config) (targetBranch config)
                         (workingBranch config) ;;
               if negb (truthy diff)
               then ret (mkView (VString noDifferences) false)
               else result <- validateDiffAgainstTicket
                                (ticketDescription config) diff ;;
                    ret (mkView result (isLoading view)))
              (fun error =>
                 ret (mkView (VString (Llm.errorPrefix ++ Llm.describe error))
                        (isLoading view))) ;;
    ret (mkView (validationResult view) false).

End Handlers.

End Ui.

(** ** Auxiliary notions for the statements *)
Module Aux.

(** The text runs of a tree, in document order. *)
Fixpoint runs (t : Jira.adf) : list jsstring :=
  match t with
  | Jira.Text text => [text]
  | Jira.Doc content | Jira.Paragraph content | Jira.BulletList content
  | Jira.ListItem content => flat_map runs content
  end.

(** The member of an object, [undefined] when it has none by that name. *)
Definition memberOf (props : list (jsstring * value)) (k : jsstring) : value :=
  match lookup k props with
  | Some v => v
  | None => VUndefined
  end.

(** A [type] that is none of the four the walker knows. *)
Definition plainType (type : value) : bool :=
  negb (isString type (lit "text") || isString type (lit "paragraph")
        || isString type (lit "bulletList") || isString type (lit "listItem")).

(** The listing [git branch] prints for a list of branches: one line each,
    the marker or two spaces in front of the name. *)
Definition listingLine (entry : bool * jsstring) : jsstring :=
  (if fst entry then Git.currentMarker else lit "  ") ++ snd entry ++ [LF].
Definition listing (entries : list (bool * jsstring)) : jsstring :=
  concat (map listingLine entries).

(** A branch name as git admits one, as far as the parsing depends on it:
    not empty, no white space at either end, no line feed, no marker in
    front. *)
Definition branchName (name : jsstring) : Prop :=
  Git.cleanBranchName name /\ ~ In LF name.

(** The answer of a route as [fetch] delivers it to the browser-side
    wrapper: [ok] for a status from 200 to 299, the body as JSON.  The
    text of [String(error)] for a caught error is a parameter. *)
Definition wire (stringOf : exn -> jsstring) (statusText : jsstring)
    (r : Routes.reply) : Jira.response :=
  Jira.mkResponse (N.leb 200 (Routes.status r) && N.leb (Routes.status r) 299)
    statusText
    (Normal
       (match Routes.body r with
        | Routes.Data data => VObject (Routes.present (lit "data") data)
        | Routes.ErrorText message => VObject [(lit "error", VString message)]
        | Routes.ErrorString e => VObject [(lit "error", VString (stringOf e))]
        end)).

(** What [JSON.parse] makes of the request body the wrapper sent. *)
Definition served (handler : Routes.parsed -> eff Routes.reply)
    (stringOf : exn -> jsstring) (statusText : jsstring) (body : value)
  : completion Jira.response :=
  match outcome (handler (Routes.Parsed body)) with
  | Normal r => Normal (wire stringOf statusText r)
  | Abrupt e => Abrupt e
  end.

(** The five actions of the VCS route. *)
Definition gitAction (action : value) : bool :=
  isString action (lit "getBranches") || isString action (lit "getCurrentBranch")
  || isString action (lit "getDefaultBranch") || isString action (lit "getDiff")
  || isString action (lit "getProjectName").

(** The four of them that run a command, and the sentinel of an
    operation: the empty list for [getBranches], [null] for the others. *)
Definition commandAction (action : value) : bool :=
  isString action (lit "getBranches") || isString action (lit "getCurrentBranch")
  || isString action (lit "getDefaultBranch") || isString action (lit "getDiff").
Definition sentinelOf (action : value) : value :=
  if isString action (lit "getBranches") then VArray [] else VNull.

(** The answer of the VCS route to the result of an operation: [{ data }]
    with status 200, or the message of a thrown error with status 500. *)
Definition answerOf {A : Type} (ofData : A -> value) (result : completion A)
  : Routes.reply :=
  match result with
  | Normal data => Routes.Reply 200 (Routes.Data (ofData data))
  | Abrupt error => Routes.Reply 500 (Routes.ErrorText (Routes.messageOf error))
  end.

(** A request body that can be destructured. *)
Definition hasMembers (v : value) : bool := negb (Ui.nullish v).

(** The events of a trace that leave the process. *)
Definition external (ev : event) : bool :=
  match ev with
  | ConsoleError _ _ => false
  | _ => true
  end.

End Aux.

(** ** What git prints *)
Module Output.

(** Whether [needle] occurs in [s]. *)
Fixpoint occurs (needle s : jsstring) : bool :=
  startsWith s needle
  || match s with
     | [] => false
     | _ :: s' => occurs needle s'
     end.

(** The label in front of the branch the remote's HEAD points to, in the
    listing of [git remote show], and what git prints after it for a remote
    that has no HEAD. *)
Definition headLabel : jsstring := lit "HEAD branch: ".
Definition unknownHead : jsstring := lit "(unknown)".

(** [before] is the text in front of the first occurrence of the label:
    no occurrence starts inside it. *)
Definition firstLabel (before : jsstring) : bool :=
  negb (occurs headLabel (before ++ lit "HEAD branch:")).

(** A line of a listing with no asterisk after its first code unit: git
    admits no asterisk in a branch name, so in the listing of [git branch]
    an asterisk is the marker in front of a line. *)
Definition asteriskInFront (line : jsstring) : bool :=
  negb (existsb (N.eqb 42) (tl line)).

End Output.

(** ** More sample worlds *)
Module Worlds.

(** The ticket the sample response with a parent link yields. *)
Definition ticketWithParent : Jira.JiraTicket :=
  Jira.mkJiraTicket (VString (lit "PROJ-123"))
    (Jira.flatten (Jira.Doc Jira.example_tree))
    (Jira.flatten (Jira.Doc Jira.example_tree))
    (VString (lit "Add button"))
    (Some [Jira.parentPlaceholder (VString (lit "PROJ-100"))]).

(** A text node with a mark, and the same node without it, members in the
    other order. *)
Definition markedText : list (jsstring * value) :=
  [(lit "type", VString (lit "text"));
   (lit "text", VString (lit "Done"));
   (lit "marks", VArray [VObject [(lit "type", VString (lit "strong"))]])].
Definition bareText : list (jsstring * value) :=
  [(lit "text", VString (lit "Done")); (lit "type", VString (lit "text"))].

(** A heading, and a paragraph with a [null] among its children. *)
Definition headingContent : list value :=
  [VObject [(lit "type", VString (lit "text")); (lit "text", VString (lit "Title"))]].
Definition heading : list (jsstring * value) :=
  [(lit "type", VString (lit "heading"));
   (lit "attrs", VObject [(lit "level", VNumber (lit "1"))]);
   (lit "content", VArray headingContent)].
Definition brokenParagraph : list (jsstring * value) :=
  [(lit "type", VString (lit "paragraph")); (lit "content", VArray [VNull])].

(** Two branches, the second one checked out. *)
Definition entries : list (bool * jsstring) :=
  [(false, lit "main"); (true, lit "feature/PROJ-123-add-button")].

Definition sampleBranches : list jsstring :=
  [lit "master"; lit "main"; lit "feature/PROJ-123-add-button"; lit "develop"].

(** A model that answers, and one that fails. *)
Definition provider (system user : jsstring) : completion jsstring :=
  Normal (lit "- [x] The button is added.").
Definition failingProvider (system user : jsstring) : completion jsstring :=
  Abrupt (JsError (lit "Incorrect API key provided")).

Definition validateBody : value :=
  VObject [(lit "action", VString (lit "validateDiffAgainstTicket"));
           (lit "ticketDescription", VString (lit "Add a button"));
           (lit "gitDiff", VString (lit "+<button/>"))].

Definition getTicketBody : value :=
  VObject [(lit "action", VString (lit "getTicket"));
           (lit "ticketId", VString (lit "PROJ-123"))].

(** A [ticketId] without a string form: its [toString] is no function. *)
Definition oddTicketId : value := VObject [(lit "toString", VNumber (lit "1"))].

(** A repository that was just created: no branch is listed and there is
    no remote. *)
Definition shellFresh (command cwd : jsstring) : completion jsstring :=
  if str_eqb command (lit "git branch") then Normal []
  else Abrupt (JsError (lit "Command failed: git remote show origin")).

(** [String(error)] for an instance of [Error]. *)
Definition stringOf (e : exn) : jsstring :=
  match e with
  | JsError message => lit "Error: " ++ message
  | Thrown rendered => rendered
  end.

(** A route that answers with status 500. *)
Definition failingApi (body : value) : completion Jira.response :=
  Normal (Jira.mkResponse false (lit "Internal Server Error")
            (Normal (VObject [(lit "error", VString (lit "Error: Missing Jira configuration."))]))).

Definition idleApi (body : value) : completion Jira.response :=
  Normal (Jira.mkResponse true (lit "OK")
            (Normal (VObject [(lit "data", VString (lit "- [ ] Not met."))]))).

(** A form with a project and two branches, and a diff for them. *)
Definition readyConfig : Ui.Config :=
  Ui.mkConfig VUndefined VUndefined (VString (lit "main"))
    (VString (lit "feature/PROJ-123-add-button"))
    (VString (lit "/home/dev/project")) (VString (lit "project")) VUndefined.

Definition idleView : Ui.View := Ui.mkView (VString []) false.

Definition getDiff (projectPath fromBranch toBranch : value) : eff value :=
  Eff [] (Normal (VString (lit "+<button/>"))).

End Worlds.

(** * Part II: properties *)

(** ** Strings *)

Lemma str_eqb_spec (a b : jsstring) : reflect (a = b) (str_eqb a b).
Proof.
  revert b; induction a as [|x a IH]; intros [|y b]; simpl;
    try (constructor; congruence).
  destruct (N.eqb_spec x y) as [->|Hxy]; simpl.
  - destruct (IH b) as [->|Hab]; constructor; congruence.
  - constructor; congruence.
Qed.

Lemma str_eqb_refl (a : jsstring) : str_eqb a a = true.
Proof. destruct (str_eqb_spec a a); congruence. Qed.

(** ** The rich-text walker *)

Lemma forOf_ext {A : Type} (xs : list value) (f g : value -> A -> completion A) :
  (forall x acc, In x xs -> f x acc = g x acc) ->
  forall acc, forOf xs f acc = forOf xs g acc.
Proof.
  induction xs as [|x xs IH]; intros Hfg acc; simpl; [reflexivity|].
  rewrite (Hfg x acc (or_introl eq_refl)).
  destruct (g x acc) as [acc'|e]; [|reflexivity].
  apply IH; intros y a Hy; apply Hfg; right; exact Hy.
Qed.

Lemma list_max_In (n : nat) (l : list nat) : In n l -> n <= list_max l.
Proof.
  induction l as [|m l IH]; simpl; [tauto|].
  intros [->|H]; [lia | specialize (IH H); lia].
Qed.

Lemma depth_item (x : value) (items : list value) :
  In x items -> depth x < depth (VArray items).
Proof.
  intros H. simpl. apply Nat.lt_succ_r, list_max_In, in_map, H.
Qed.

Lemma depth_lookup (k : jsstring) (props : list (jsstring * value)) (x : value) :
  lookup k props = Some x -> depth x < depth (VObject props).
Proof.
  intros H. simpl. apply Nat.lt_succ_r.
  induction props as [|[k' v] props IH]; simpl in *; [discriminate|].
  destruct (lookup k props) as [later|].
  - injection H as ->. specialize (IH eq_refl). lia.
  - destruct (str_eqb k' k); [injection H as ->; lia | discriminate].
Qed.

(** The values the loop of the walker visits are less deep than the
    node. *)
Lemma depth_children (node content : value) (children : list value) :
  getProp node (lit "content") = Normal content ->
  iterate (lit "node.content") content = Normal children ->
  forall child, In child children -> depth child < depth node.
Proof.
  intros Hc Hi child Hin.
  destruct node; simpl in Hc; try discriminate;
    try (injection Hc as <-; discriminate).
  destruct (lookup (lit "content") props) as [x|] eqn:Hl;
    injection Hc as <-; [|discriminate].
  apply depth_lookup in Hl.
  destruct x; simpl in Hi; try discriminate; injection Hi as <-.
  - apply in_map_iff in Hin. destruct Hin as [cp [<- _]]. simpl in *. lia.
  - apply depth_item in Hin. lia.
Qed.

(** The body of the walker calls its parameter on values less deep than
    the node only. *)
Lemma walkBody_ext (f g : value -> completion jsstring) (node : value) :
  (forall child, depth child < depth node -> f child = g child) ->
  Jira.walkBody f node = Jira.walkBody g node.
Proof.
  intros Hfg. unfold Jira.walkBody.
  destruct (getProp node (lit "type")) as [type|e]; [|reflexivity].
  cbn [bind completion_monad].
  match goal with
  | |- match ?head with _ => _ end = match ?head with _ => _ end =>
      destruct head as [text|e]; [|reflexivity]
  end.
  destruct (getProp node (lit "content")) as [content|e] eqn:Hc; [|reflexivity].
  destruct (truthy content); [|reflexivity].
  destruct (iterate (lit "node.content") content) as [children|e] eqn:Hi;
    [|reflexivity].
  cbn [bind completion_monad].
  match goal with
  | |- match forOf _ ?F _ with _ => _ end = match forOf _ ?G _ with _ => _ end =>
      rewrite (forOf_ext children F G)
  end.
  - reflexivity.
  - intros child acc Hin. rewrite (Hfg child); [reflexivity|].
    eapply depth_children; eassumption.
Qed.

(** Fuel beyond the depth of the value changes nothing. *)
Lemma walkADF_fuel (n : nat) :
  forall m node, depth node < n -> depth node < m ->
  Jira.walkADF n node = Jira.walkADF m node.
Proof.
  induction n as [|n IH]; intros [|m] node Hn Hm; try lia.
  simpl. apply walkBody_ext. intros child Hc. apply IH; lia.
Qed.

(** The model satisfies the recursive definition of the source: the walk of
    a node is the body of the function with the walk itself on the
    children.  In particular the recursion never runs out of fuel. *)
Lemma extractTextFromADF_unfold (node : value) :
  Jira.extractTextFromADF node = Jira.walkBody Jira.extractTextFromADF node.
Proof.
  unfold Jira.extractTextFromADF at 1. simpl.
  apply walkBody_ext. intros child Hc.
  unfold Jira.extractTextFromADF. apply walkADF_fuel; lia.
Qed.

(** Induction on trees that reaches the children of a node. *)
Lemma adf_nested_ind (P : Jira.adf -> Prop) :
  (forall cs, Forall P cs -> P (Jira.Doc cs)) ->
  (forall s, P (Jira.Text s)) ->
  (forall cs, Forall P cs -> P (Jira.Paragraph cs)) ->
  (forall cs, Forall P cs -> P (Jira.BulletList cs)) ->
  (forall cs, Forall P cs -> P (Jira.ListItem cs)) ->
  forall t, P t.
Proof.
  intros HD HT HP HB HL.
  fix IH 1.
  intros [cs|s|cs|cs|cs];
    [apply HD | apply HT | apply HP | apply HB | apply HL];
    induction cs as [|c cs IHcs]; constructor; solve [apply IH | exact IHcs].
Qed.

Lemma depth_child (c : Jira.adf) (cs : list Jira.adf) :
  In c cs -> depth (Jira.toJSON c) <= list_max (map depth (map Jira.toJSON cs)).
Proof.
  intros H. apply list_max_In. apply in_map, in_map, H.
Qed.

(** The loop over the children of a node appends their flattenings in
    order. *)
Lemma forOf_children (n : nat) (cs : list Jira.adf) :
  Forall (fun c => Jira.walkADF n (Jira.toJSON c) = Normal (Jira.flatten c)) cs ->
  forall acc,
    forOf (map Jira.toJSON cs)
      (fun child text => t <- Jira.walkADF n child ;; ret (text ++ t)) acc
    = Normal (acc ++ concat (map Jira.flatten cs)).
Proof.
  induction 1 as [|c cs Hc _ IH]; intros acc; simpl.
  - now rewrite app_nil_r.
  - rewrite Hc; simpl. rewrite IH, app_assoc. reflexivity.
Qed.

Lemma walkADF_tree (t : Jira.adf) :
  forall n, depth (Jira.toJSON t) < n ->
  Jira.walkADF n (Jira.toJSON t) = Normal (Jira.flatten t).
Proof.
  induction t as [cs IH|s|cs IH|cs IH|cs IH] using adf_nested_ind;
    intros [|n] Hn; try lia.
  all: try (assert (Hcs : Forall (fun c => Jira.walkADF n (Jira.toJSON c)
                                    = Normal (Jira.flatten c)) cs)
      by (rewrite Forall_forall in IH |- *; intros c Hc; apply (IH c Hc);
          pose proof (depth_child c cs Hc); cbn in Hn; lia)).
  - cbn. rewrite (@forOf_children n cs Hcs). reflexivity.
  - cbn. destruct s; reflexivity.
  - cbn. rewrite (@forOf_children n cs Hcs). reflexivity.
  - cbn. rewrite (@forOf_children n cs Hcs). reflexivity.
  - cbn. rewrite (@forOf_children n cs Hcs). reflexivity.
Qed.

(** The walk of a tree's JSON is the rule set applied to the tree. *)
Lemma extractTextFromADF_flatten (t : Jira.adf) :
  Jira.extractTextFromADF (Jira.toJSON t) = Normal (Jira.flatten t).
Proof. apply walkADF_tree. unfold lt. apply le_n. Qed.

(** C1 (as amended).  For every rich-text description tree the walk gives
    the text of each run verbatim, a line break before and after the
    children of a paragraph, a line break before the children of a bullet
    list, and around the children of a list item the list-item prefix and a
    line break ([Jira.flatten]).  The example of the specification flattens
    to a line break, [Done], a line break, then a line break and the two
    items, each as prefix, letter, line break. *)
Theorem extractTextFromADF_rules :
  (forall t : Jira.adf,
      Jira.extractTextFromADF (Jira.toJSON t) = Normal (Jira.flatten t)) /\
  (forall s, Jira.flatten (Jira.Text s) = s) /\
  (forall cs, Jira.flatten (Jira.Paragraph cs)
              = [LF] ++ concat (map Jira.flatten cs) ++ [LF]) /\
  (forall cs, Jira.flatten (Jira.BulletList cs)
              = [LF] ++ concat (map Jira.flatten cs)) /\
  (forall cs, Jira.flatten (Jira.ListItem cs)
              = Jira.listItemPrefix ++ concat (map Jira.flatten cs) ++ [LF]) /\
  Jira.extractTextFromADF (Jira.toJSON (Jira.Doc Jira.example_tree))
  = Normal (([LF] ++ lit "Done" ++ [LF])
            ++ ([LF] ++ Jira.listItemPrefix ++ lit "A" ++ [LF]
                ++ Jira.listItemPrefix ++ lit "B" ++ [LF])).
Proof.
  split; [exact extractTextFromADF_flatten|].
  repeat split; rewrite extractTextFromADF_flatten; reflexivity.
Qed.

(** C1 (as stated) fails on its own example: the walk opens a paragraph
    with a line break, so the output does not start with [Done], whether
    the two nodes are walked under a document root or one after the
    other. *)
Lemma extractTextFromADF_example_counterexample :
  Jira.extractTextFromADF (Jira.toJSON (Jira.Doc Jira.example_tree))
  <> Normal Jira.spec_expected_example /\
  (first <- Jira.extractTextFromADF
              (Jira.toJSON (Jira.Paragraph [Jira.Text (lit "Done")])) ;;
   second <- Jira.extractTextFromADF
               (Jira.toJSON (Jira.BulletList
                               [Jira.ListItem [Jira.Text (lit "A")];
                                Jira.ListItem [Jira.Text (lit "B")]])) ;;
   ret (first ++ second))
  <> Normal Jira.spec_expected_example.
Proof.
  split; rewrite ?extractTextFromADF_flatten; vm_compute; discriminate.
Qed.

(** ** Fetching a ticket *)

Lemma truthy_getProp (v : value) (k : jsstring) :
  truthy v = true -> exists x, getProp v k = Normal x.
Proof.
  destruct v; simpl; try discriminate; intros _; eauto.
  destruct (lookup k props); eauto.
Qed.

(** A fetch that succeeds: one request, and the ticket built from the
    fields of the response. *)
Lemma getTicket_success network base64 this id resp body fields d text summary parent :
  network (Jira.requestUrl this id) (Jira.requestHeaders base64 this) = Normal resp ->
  Jira.ok resp = true ->
  Jira.json resp = Normal body ->
  getProp body (lit "fields") = Normal fields ->
  getProp fields (lit "description") = Normal d ->
  Jira.formatDescription d = Normal text ->
  getProp fields (lit "summary") = Normal summary ->
  getProp fields (lit "parent") = Normal parent ->
  Jira.getTicket network base64 this id
  = Eff [Fetch (lit "GET") (Jira.requestUrl this id)
           (Jira.requestHeaders base64 this) None]
      (Normal (Some (Jira.mkJiraTicket (VString id) text text summary
                       (match getProp parent (lit "key") with
                        | Normal key =>
                            if truthy parent
                            then Some [Jira.parentPlaceholder key] else None
                        | Abrupt _ => None
                        end)))).
Proof.
  intros Hnet Hok Hjson Hfields Hd Htext Hsum Hpar.
  unfold Jira.getTicket, Jira.fetch, try_catch, pure.
  cbn [bind eff_monad outcome trace ret throw].
  rewrite Hnet, Hok. cbn [negb bind eff_monad outcome trace ret app].
  rewrite Hjson. cbn [bind eff_monad outcome trace ret app].
  rewrite Hfields. cbn [bind eff_monad outcome trace ret app].
  rewrite Hd. cbn [bind eff_monad outcome trace ret app].
  rewrite Htext. cbn [bind eff_monad outcome trace ret app].
  rewrite Hsum. cbn [bind eff_monad outcome trace ret app].
  rewrite Hpar. cbn [bind eff_monad outcome trace ret app].
  destruct (truthy parent) eqn:Htr.
  - destruct (truthy_getProp parent (lit "key") Htr) as [key Hkey].
    rewrite Hkey. reflexivity.
  - destruct (getProp parent (lit "key")); reflexivity.
Qed.

(** C8.  A fetch that succeeds on a response with a parent link returns a
    ticket with exactly one parent entry: its identifier is the [key] of
    the link, its title and both descriptions are empty, it has no parents
    of its own.  Without a parent link the ticket has no [parents] member.
    In both cases the trace holds one request, the one for the ticket
    itself. *)
Theorem getTicket_parent_placeholder
    network base64 this id resp body fields d text summary parent :
  network (Jira.requestUrl this id) (Jira.requestHeaders base64 this) = Normal resp ->
  Jira.ok resp = true ->
  Jira.json resp = Normal body ->
  getProp body (lit "fields") = Normal fields ->
  getProp fields (lit "description") = Normal d ->
  Jira.formatDescription d = Normal text ->
  getProp fields (lit "summary") = Normal summary ->
  getProp fields (lit "parent") = Normal parent ->
  exists ticket,
    outcome (Jira.getTicket network base64 this id) = Normal (Some ticket) /\
    (truthy parent = true ->
     exists key,
       getProp parent (lit "key") = Normal key /\
       Jira.parents ticket
       = Some [Jira.mkJiraTicket key [] [] (VString []) None]) /\
    (truthy parent = false -> Jira.parents ticket = None) /\
    filter isFetch (trace (Jira.getTicket network base64 this id))
    = [Fetch (lit "GET") (Jira.requestUrl this id)
         (Jira.requestHeaders base64 this) None].
Proof.
  intros Hnet Hok Hjson Hfields Hd Htext Hsum Hpar.
  rewrite (getTicket_success network base64 this id
             Hnet Hok Hjson Hfields Hd Htext Hsum Hpar).
  eexists; split; [reflexivity|]. cbn [Jira.parents trace filter isFetch].
  repeat split.
  - intros Htr. destruct (truthy_getProp parent (lit "key") Htr) as [key Hkey].
    exists key. rewrite Hkey, Htr. split; reflexivity.
  - intros Htr. rewrite Htr. destruct (getProp parent (lit "key")); reflexivity.
Qed.

(** The fallback [String(description || '')] is taken exactly by the
    values whose [typeof] is not [object]. *)
Lemma typeof_not_object (d : value) :
  str_eqb (typeof d) (lit "object") = false <->
  d = VUndefined \/ (exists b, d = VBool b) \/ (exists r, d = VNumber r)
  \/ (exists s, d = VString s).
Proof.
  split.
  - destruct d; try (vm_compute; discriminate); eauto 6.
  - intros [->|[[b ->]|[[r ->]|[s ->]]]]; reflexivity.
Qed.

(** C9.  On a successful response whose [description] is [null] the fetch
    returns [null]: [typeof null] is [object], the walker is called on
    [null], its first member read throws, and the handler of [getTicket]
    logs the error and returns [null].  The fallback
    [String(description || '')] is taken only by [undefined], booleans,
    numbers and strings; it gives the empty string for [undefined] and a
    string itself. *)
Theorem getTicket_null_description network base64 this id resp body fields :
  network (Jira.requestUrl this id) (Jira.requestHeaders base64 this) = Normal resp ->
  Jira.ok resp = true ->
  Jira.json resp = Normal body ->
  getProp body (lit "fields") = Normal fields ->
  getProp fields (lit "description") = Normal VNull ->
  Jira.getTicket network base64 this id
  = Eff [Fetch (lit "GET") (Jira.requestUrl this id)
           (Jira.requestHeaders base64 this) None;
         ConsoleError (lit "Failed to fetch Jira ticket:")
           (Some (cannotRead (lit "null") (lit "type")))]
      (Normal None) /\
  typeof VNull = lit "object" /\
  Jira.formatDescription VNull = Abrupt (cannotRead (lit "null") (lit "type")) /\
  (forall d,
      Jira.formatDescription d
      = (if str_eqb (typeof d) (lit "object")
         then Jira.extractTextFromADF d
         else toString (if truthy d then d else VString []))) /\
  (forall d,
      str_eqb (typeof d) (lit "object") = false <->
      d = VUndefined \/ (exists b, d = VBool b) \/ (exists r, d = VNumber r)
      \/ (exists s, d = VString s)) /\
  Jira.formatDescription VUndefined = Normal [] /\
  (forall s, Jira.formatDescription (VString s) = Normal s).
Proof.
  intros Hnet Hok Hjson Hfields Hd.
  split; [|repeat split; try reflexivity; try apply typeof_not_object].
  - unfold Jira.getTicket, Jira.fetch, try_catch, pure.
    cbn [bind eff_monad outcome trace ret throw].
    rewrite Hnet, Hok. cbn [negb bind eff_monad outcome trace ret app].
    rewrite Hjson. cbn [bind eff_monad outcome trace ret app].
    rewrite Hfields. cbn [bind eff_monad outcome trace ret app].
    rewrite Hd. reflexivity.
  - intros s. destruct s; reflexivity.
Qed.

(** A configuration with an unset or empty variable gives no client. *)
Lemma jiraClientFrom_unset env :
  Jira.unset (env (lit "JIRA_DOMAIN")) || Jira.unset (env (lit "JIRA_EMAIL"))
  || Jira.unset (env (lit "JIRA_API_TOKEN")) = true ->
  Jira.jiraClientFrom env
  = Eff [ConsoleError Jira.missingConfiguration None] (Normal None).
Proof. intros H. unfold Jira.jiraClientFrom. rewrite H. reflexivity. Qed.

(** C4.  When one of the three configuration variables is absent,
    [jiraClientFrom] returns [null] and the route's [getTicket] throws the
    configuration message; its trace holds no request. *)
Theorem getTicket_refused_without_configuration env network base64 ticketId :
  env (lit "JIRA_DOMAIN") = None \/ env (lit "JIRA_EMAIL") = None
  \/ env (lit "JIRA_API_TOKEN") = None ->
  outcome (Jira.jiraClientFrom env) = Normal None /\
  outcome (Jira.routeGetTicket env network base64 ticketId)
  = Abrupt (JsError Jira.missingConfiguration) /\
  filter isFetch (trace (Jira.routeGetTicket env network base64 ticketId)) = [].
Proof.
  intros H.
  assert (Hun : Jira.unset (env (lit "JIRA_DOMAIN"))
                || Jira.unset (env (lit "JIRA_EMAIL"))
                || Jira.unset (env (lit "JIRA_API_TOKEN")) = true).
  { destruct H as [H|[H|H]]; rewrite H; cbn [Jira.unset];
      rewrite ?orb_true_r; reflexivity. }
  unfold Jira.routeGetTicket.
  rewrite (jiraClientFrom_unset env Hun). repeat split.
Qed.

(** ** The matcher *)

Section Soundness.

Variable m : mstate -> (mstate -> option mstate) -> option mstate.
Variable R : mstate -> mstate -> Prop.
Hypothesis m_sound :
  forall x k z, m x k = Some z -> exists y, R x y /\ k y = Some z.

Lemma repeat_sound (fuel : nat) :
  forall x k z, repeat m fuel x k = Some z ->
  exists y, clos_refl_trans_1n mstate R x y /\ k y = Some z.
Proof.
  induction fuel as [|fuel IH]; intros x k z H; simpl in H.
  - exists x. split; [constructor | exact H].
  - destruct (m x _) as [z'|] eqn:Hm.
    + injection H as ->.
      apply m_sound in Hm. destruct Hm as [y [Hxy Hk]].
      destruct (Nat.ltb _ _); [|discriminate].
      apply IH in Hk. destruct Hk as [y' [Hyy' Hk]].
      exists y'. split; [econstructor; eassumption | exact Hk].
    + exists x. split; [constructor | exact H].
Qed.

End Soundness.

Lemma Iter_Steps (r : regex) (x y : mstate) :
  clos_refl_trans_1n mstate (Steps r) x y -> Steps (Star r) x y.
Proof.
  induction 1; [apply StepsStarStop | eapply StepsStarMore; eassumption].
Qed.

(** A successful run of the matcher went through the pattern to a state
    on which the continuation succeeded. *)
Lemma matchRe_sound (r : regex) :
  forall x k z, matchRe r x k = Some z ->
  exists y, Steps r x y /\ k y = Some z.
Proof.
  induction r as [|c|member|r1 IH1 r2 IH2|r IH|r IH|index r IH];
    intros x k z H; simpl in H.
  - destruct (Nat.eqb (endIndex x) 0) eqn:E; [|discriminate].
    apply Nat.eqb_eq in E. exists x. split; [constructor; exact E | exact H].
  - destruct (rest x) as [|d rest'] eqn:Hr; [discriminate|].
    destruct (N.eqb_spec d c) as [->|]; [|discriminate].
    eexists. split; [apply StepsChar; exact Hr | exact H].
  - destruct (rest x) as [|d rest'] eqn:Hr; [discriminate|].
    destruct (member d) eqn:Hm; [|discriminate].
    eexists. split; [eapply StepsClass; eassumption | exact H].
  - apply IH1 in H. destruct H as [y [Hxy H]].
    apply IH2 in H. destruct H as [y' [Hyy' H]].
    exists y'. split; [econstructor; eassumption | exact H].
  - apply (repeat_sound (matchRe r) (Steps r) IH) in H.
    destruct H as [y [Hit H]]. exists y. split; [apply Iter_Steps, Hit | exact H].
  - apply IH in H. destruct H as [y [Hxy H]].
    apply (repeat_sound (matchRe r) (Steps r) IH) in H.
    destruct H as [y' [Hit H]]. exists y'.
    split; [eapply StepsPlus; [exact Hxy | apply Iter_Steps, Hit] | exact H].
  - apply IH in H. destruct H as [y [Hxy H]].
    eexists. split; [apply StepsGroup; exact Hxy | exact H].
Qed.

(** A match found by the scan starts at some index of the input. *)
Lemma scan_sound (r : regex) (input : jsstring) :
  forall index z, scan r index input = Some z ->
  exists i suffix, Steps r (MState i suffix []) z /\
                   (exists skipped, input = skipped ++ suffix /\
                                    i = index + List.length skipped).
Proof.
  induction input as [|c input IH]; intros index z H; simpl in H.
  - destruct (matchRe r _ Some) as [z'|] eqn:Hm; [|discriminate].
    injection H as ->. apply matchRe_sound in Hm.
    destruct Hm as [y [Hy Hk]]. injection Hk as ->.
    exists index, []. split; [exact Hy|]. exists []. split; [reflexivity|simpl; lia].
  - destruct (matchRe r _ Some) as [z'|] eqn:Hm.
    + injection H as ->. apply matchRe_sound in Hm.
      destruct Hm as [y [Hy Hk]]. injection Hk as ->.
      exists index, (c :: input). split; [exact Hy|].
      exists []. split; [reflexivity|simpl; lia].
    + apply IH in H. destruct H as [i [suffix [Hs [skipped [-> ->]]]]].
      exists (S index + List.length skipped), suffix. split; [exact Hs|].
      exists (c :: skipped). split; [reflexivity|simpl; lia].
Qed.

(** A run of a repeated class: the code units it consumed, all in the
    class; the captures are untouched. *)
Lemma Steps_Star_Class (member : N -> bool) (x y : mstate) :
  Steps (Star (Class member)) x y ->
  exists w, Forall (fun c => member c = true) w /\
            rest x = w ++ rest y /\
            endIndex y = endIndex x + List.length w /\
            captures y = captures x.
Proof.
  intros H. remember (Star (Class member)) as r eqn:Hr.
  induction H as [| | | |r x|r x y z Hxy _ Hyz IH| |]; try discriminate.
  - exists []. repeat split; [constructor | simpl; lia].
  - injection Hr as ->. specialize (IH eq_refl).
    destruct IH as [w [Hw [Hrest [Hend Hcap]]]].
    inversion Hxy as [| |member' d x' rest' Hrx Hd| | | | |]; subst.
    exists (d :: w). simpl in *. repeat split.
    + constructor; assumption.
    + rewrite Hrx, Hrest. reflexivity.
    + lia.
    + exact Hcap.
Qed.

Lemma Steps_Plus_Class (member : N -> bool) (x y : mstate) :
  Steps (Plus (Class member)) x y ->
  exists w, w <> [] /\ Forall (fun c => member c = true) w /\
            rest x = w ++ rest y /\
            endIndex y = endIndex x + List.length w /\
            captures y = captures x.
Proof.
  intros H. inversion H as [| | | | | |r x' y' z' Hxy Hyz|]; subst.
  inversion Hxy as [| |member' d x' rest' Hrx Hd| | | | |]; subst.
  apply Steps_Star_Class in Hyz. destruct Hyz as [w [Hw [Hrest [Hend Hcap]]]].
  exists (d :: w). simpl in *. repeat split.
  - discriminate.
  - constructor; assumption.
  - rewrite Hrx, Hrest. reflexivity.
  - lia.
  - exact Hcap.
Qed.

(** A group around a repeated class captures what the class consumed. *)
Lemma Steps_Group_Plus_Class (index : nat) (member : N -> bool) (x y : mstate) :
  Steps (Group index (Plus (Class member))) x y ->
  exists w, w <> [] /\ Forall (fun c => member c = true) w /\
            rest x = w ++ rest y /\
            endIndex y = endIndex x + List.length w /\
            captures y = (index, w) :: captures x.
Proof.
  intros H. inversion H as [| | | | | | |index' r x' y' Hxy]; subst.
  apply Steps_Plus_Class in Hxy. destruct Hxy as [w [Hne [Hw [Hrest [Hend Hcap]]]]].
  exists w. simpl. repeat split; try assumption.
  rewrite Hcap, Hend, Hrest.
  replace (endIndex x + List.length w - endIndex x) with (List.length w + 0) by lia.
  rewrite firstn_app_2. simpl. rewrite app_nil_r. reflexivity.
Qed.

(** An anchored pattern matches at index 0 or not at all. *)
Lemma scan_Bol (r : regex) (input : jsstring) :
  forall index, 0 < index -> scan (Seq Bol r) index input = None.
Proof.
  induction input as [|c input IH]; intros index Hi; simpl;
    destruct index; try lia; simpl; [reflexivity|].
  apply IH. lia.
Qed.

Lemma exec_Bol (r : regex) (input : jsstring) :
  exec (Seq Bol r) input = matchRe (Seq Bol r) (MState 0 input []) Some.
Proof.
  unfold exec. destruct input as [|c input]; simpl.
  - destruct (matchRe r _ Some); reflexivity.
  - destruct (matchRe r _ Some); [reflexivity|].
    apply scan_Bol. lia.
Qed.

(** A run of the prefix [(?:\w+\/)*]. *)
Lemma Steps_slashPrefix (x y : mstate) :
  Steps (Star (Seq (Plus (Class isWord)) (Char SLASH))) x y ->
  exists pre, slashPrefix pre /\ rest x = pre ++ rest y /\
              endIndex y = endIndex x + List.length pre /\
              captures y = captures x.
Proof.
  intros H. remember (Star (Seq (Plus (Class isWord)) (Char SLASH))) as r eqn:Hr.
  induction H as [| | | |r x|r x y z Hxy _ Hyz IH| |]; try discriminate.
  - exists []. repeat split; [constructor | simpl; lia].
  - injection Hr as ->. specialize (IH eq_refl).
    destruct IH as [pre [Hpre [Hrest [Hend Hcap]]]].
    inversion Hxy as [| | |r1 r2 x' m z' Hword Hslash| | | |]; subst.
    apply Steps_Plus_Class in Hword.
    destruct Hword as [w [Hne [Hw [Hrw [Hew Hcw]]]]].
    inversion Hslash as [|c m' rest' Hrm| | | | | |]; subst.
    exists (w ++ [SLASH] ++ pre). simpl in *. repeat split.
    + constructor; assumption.
    + rewrite Hrw, Hrm, Hrest, <- app_assoc. reflexivity.
    + rewrite Hend, Hew, !length_app. simpl. lia.
    + rewrite Hcap. exact Hcw.
Qed.

(** What a match of the ticket pattern looks like: a slash-delimited
    prefix, a key without hyphen, a hyphen, digits; the groups are the key
    and the digits. *)
Lemma ticketPattern_sound (branch : jsstring) (m : mstate) :
  exec Page.ticketPattern branch = Some m ->
  exists pre key number tail,
    branch = pre ++ key ++ [HYPHEN] ++ number ++ tail /\
    slashPrefix pre /\
    key <> [] /\ Forall (fun c => c <> HYPHEN) key /\
    number <> [] /\ Forall (fun c => isDigit c = true) number /\
    group 1 m = Some key /\ group 2 m = Some number.
Proof.
  unfold Page.ticketPattern. rewrite exec_Bol. intros H.
  apply matchRe_sound in H. destruct H as [y [H Hk]]. injection Hk as ->.
  inversion H as [| | |r1 r2 x0 x1 z Hbol H1| | | |]; subst.
  inversion Hbol; subst.
  inversion H1 as [| | |r1 r2 x0 x2 z Hpre H2| | | |]; subst.
  inversion H2 as [| | |r1 r2 x0 x3 z Hkey H3| | | |]; subst.
  inversion H3 as [| | |r1 r2 x0 x4 z Hhyp Hnum| | | |]; subst.
  apply Steps_slashPrefix in Hpre.
  destruct Hpre as [pre [Hpre [Hr1 [He1 Hc1]]]].
  apply Steps_Group_Plus_Class in Hkey.
  destruct Hkey as [key [Hkne [Hkey [Hr2 [He2 Hc2]]]]].
  inversion Hhyp as [|c x' rest' Hr3| | | | | |]; subst.
  apply Steps_Group_Plus_Class in Hnum.
  destruct Hnum as [number [Hnne [Hnum [Hr4 [He4 Hc4]]]]].
  simpl in *.
  exists pre, key, number, (rest m). repeat split; try assumption.
  - rewrite Hr1, Hr2, Hr3, Hr4. reflexivity.
  - eapply Forall_impl; [|exact Hkey]. intros c Hc ->. discriminate.
  - unfold group. rewrite Hc4, Hc2. reflexivity.
  - unfold group. rewrite Hc4. reflexivity.
Qed.

(** A literal run consumes exactly its code units. *)
Lemma Steps_Lit (s : jsstring) (r : regex) :
  forall x y, Steps (Lit s r) x y ->
  exists mid, rest x = s ++ rest mid /\ Steps r mid y /\
              captures mid = captures x /\
              endIndex mid = endIndex x + List.length s.
Proof.
  induction s as [|c s IH]; intros x y H; simpl in H.
  - exists x. repeat split; [exact H | simpl; lia].
  - inversion H as [| | |r1 r2 x' x1 z Hc Hrest| | | |]; subst.
    inversion Hc as [|c' x' rest' Hrx| | | | | |]; subst.
    apply IH in Hrest. destruct Hrest as [mid [Hr [Hs [Hcap Hend]]]].
    exists mid. simpl in *. repeat split; try assumption.
    + rewrite Hrx, Hr. reflexivity.
    + lia.
Qed.

(** A match of the pattern for the remote's listing: the text after an
    occurrence of the label, up to a line terminator, not empty. *)
Lemma headBranchPattern_sound (remoteOutput : jsstring) (m : mstate) :
  exec Git.headBranchPattern remoteOutput = Some m ->
  exists before name after,
    remoteOutput = before ++ lit "HEAD branch: " ++ name ++ after /\
    name <> [] /\ Forall (fun c => isLineTerminator c = false) name /\
    group 1 m = Some name.
Proof.
  unfold exec. intros H. apply scan_sound in H.
  destruct H as [i [suffix [H [skipped [-> _]]]]].
  apply Steps_Lit in H. destruct H as [mid [Hr [H [Hcap _]]]].
  apply Steps_Group_Plus_Class in H.
  destruct H as [name [Hne [Hname [Hrm [_ Hc]]]]]. simpl in *.
  exists skipped, name, (rest m). repeat split; try assumption.
  - rewrite Hr, Hrm. reflexivity.
  - eapply Forall_impl; [|exact Hname]. intros c Hc'.
    unfold isDot in Hc'. now apply negb_true_iff in Hc'.
  - unfold group. rewrite Hc. reflexivity.
Qed.

(** *** Greedy runs

    The other direction, for the runs the patterns are made of: a repeated
    class takes the longest run first, so when the continuation accepts the
    state after the whole run, that is the match. *)

Lemma matchRe_Class_cons (member : N -> bool) (c : N) (s : jsstring)
    (index : nat) (caps : list (nat * jsstring)) (k : mstate -> option mstate) :
  member c = true ->
  matchRe (Class member) (MState index (c :: s) caps) k
  = k (MState (S index) s caps).
Proof. intros H. simpl. rewrite H. reflexivity. Qed.

Lemma matchRe_Class_stop (member : N -> bool) (s : jsstring)
    (index : nat) (caps : list (nat * jsstring)) (k : mstate -> option mstate) :
  match s with [] => True | c :: _ => member c = false end ->
  matchRe (Class member) (MState index s caps) k = None.
Proof. intros H. destruct s as [|c s]; simpl; [|rewrite H]; reflexivity. Qed.

Lemma matchRe_Char_cons (c : N) (s : jsstring)
    (index : nat) (caps : list (nat * jsstring)) (k : mstate -> option mstate) :
  matchRe (Char c) (MState index (c :: s) caps) k
  = k (MState (S index) s caps).
Proof. simpl. rewrite N.eqb_refl. reflexivity. Qed.

Lemma matchRe_Bol (s : jsstring) (caps : list (nat * jsstring))
    (k : mstate -> option mstate) :
  matchRe Bol (MState 0 s caps) k = k (MState 0 s caps).
Proof. reflexivity. Qed.

Lemma matchRe_Star (r : regex) (x : mstate) (k : mstate -> option mstate) :
  matchRe (Star r) x k = repeat (matchRe r) (List.length (rest x)) x k.
Proof. reflexivity. Qed.

Lemma matchRe_Plus (r : regex) (x : mstate) (k : mstate -> option mstate) :
  matchRe (Plus r) x k
  = matchRe r x (fun y => repeat (matchRe r) (List.length (rest y)) y k).
Proof. reflexivity. Qed.

Lemma matchRe_Seq (r1 r2 : regex) (x : mstate) (k : mstate -> option mstate) :
  matchRe (Seq r1 r2) x k = matchRe r1 x (fun y => matchRe r2 y k).
Proof. reflexivity. Qed.

Lemma matchRe_Group (i : nat) (r : regex) (x : mstate)
    (k : mstate -> option mstate) :
  matchRe (Group i r) x k
  = matchRe r x (fun y =>
      k (MState (endIndex y) (rest y)
           ((i, firstn (endIndex y - endIndex x) (rest x)) :: captures y))).
Proof. reflexivity. Qed.

Lemma repeat_class_greedy (member : N -> bool) (after : jsstring)
    (caps : list (nat * jsstring)) (k : mstate -> option mstate) (z : mstate) :
  match after with [] => True | c :: _ => member c = false end ->
  forall w index fuel,
    Forall (fun c => member c = true) w ->
    List.length (w ++ after) <= fuel ->
    k (MState (index + List.length w) after caps) = Some z ->
    repeat (matchRe (Class member)) fuel (MState index (w ++ after) caps) k
    = Some z.
Proof.
  intros Hafter w. induction w as [|c w IH]; intros index fuel Hw Hfuel Hk.
  - simpl in Hk. rewrite Nat.add_0_r in Hk.
    destruct fuel as [|fuel]; [exact Hk|].
    cbn [repeat app]. rewrite matchRe_Class_stop by exact Hafter. exact Hk.
  - destruct fuel as [|fuel]; [simpl in Hfuel; lia|].
    inversion Hw as [|c' w' Hc Hw']; subst.
    cbn [repeat app]. rewrite matchRe_Class_cons by exact Hc. cbn [rest].
    replace (Nat.ltb (List.length (w ++ after)) (List.length (c :: w ++ after)))
      with true by (symmetry; apply Nat.ltb_lt; simpl; lia).
    rewrite (IH (S index) fuel Hw').
    + reflexivity.
    + simpl in Hfuel. lia.
    + rewrite <- Hk. f_equal. f_equal. simpl. lia.
Qed.

Lemma plus_class_greedy (member : N -> bool) (w after : jsstring) (index : nat)
    (caps : list (nat * jsstring)) (k : mstate -> option mstate) (z : mstate) :
  w <> [] -> Forall (fun c => member c = true) w ->
  match after with [] => True | c :: _ => member c = false end ->
  k (MState (index + List.length w) after caps) = Some z ->
  matchRe (Plus (Class member)) (MState index (w ++ after) caps) k = Some z.
Proof.
  intros Hne Hw Hafter Hk. destruct w as [|c w]; [congruence|].
  inversion Hw as [|c' w' Hc Hw']; subst.
  rewrite matchRe_Plus. cbn [app]. rewrite matchRe_Class_cons by exact Hc.
  cbn [rest].
  apply repeat_class_greedy; try assumption; [lia|].
  rewrite <- Hk. f_equal. f_equal. simpl. lia.
Qed.

Lemma group_plus_class_greedy (i : nat) (member : N -> bool) (w after : jsstring)
    (index : nat) (caps : list (nat * jsstring))
    (k : mstate -> option mstate) (z : mstate) :
  w <> [] -> Forall (fun c => member c = true) w ->
  match after with [] => True | c :: _ => member c = false end ->
  k (MState (index + List.length w) after ((i, w) :: caps)) = Some z ->
  matchRe (Group i (Plus (Class member))) (MState index (w ++ after) caps) k
  = Some z.
Proof.
  intros Hne Hw Hafter Hk. rewrite matchRe_Group.
  apply plus_class_greedy; try assumption.
  cbn [endIndex rest captures].
  replace (index + List.length w - index) with (List.length w + 0) by lia.
  rewrite firstn_app_2. simpl. rewrite app_nil_r. exact Hk.
Qed.

(** Two runs of one class that end on code units outside the class end at
    the same place. *)
Lemma run_unique (member : N -> bool) (w1 w2 : jsstring) (a1 a2 : N)
    (t1 t2 : jsstring) :
  Forall (fun c => member c = true) w1 ->
  Forall (fun c => member c = true) w2 ->
  member a1 = false -> member a2 = false ->
  w1 ++ a1 :: t1 = w2 ++ a2 :: t2 -> a1 = a2.
Proof.
  intros H1. revert w2. induction H1 as [|c w1 Hc _ IH]; intros w2 H2 Ha1 Ha2 E.
  - destruct w2 as [|d w2]; simpl in E; [congruence|].
    inversion H2; subst. injection E as -> _. congruence.
  - destruct w2 as [|d w2]; simpl in E.
    + injection E as -> _. congruence.
    + inversion H2; subst. injection E as _ E. eapply IH; eassumption.
Qed.

(** A word followed by a hyphen does not start with a segment [\w+/]. *)
Lemma segment_fails (key t : jsstring) (index : nat)
    (caps : list (nat * jsstring)) (k : mstate -> option mstate) :
  Forall (fun c => isWord c = true) key ->
  matchRe (Seq (Plus (Class isWord)) (Char SLASH))
    (MState index (key ++ HYPHEN :: t) caps) k = None.
Proof.
  intros Hkey.
  destruct (matchRe _ _ k) as [z|] eqn:H; [exfalso|reflexivity].
  apply matchRe_sound in H. destruct H as [y [H _]].
  inversion H as [| | |r1 r2 x0 mid z' Hword Hslash| | | |]; subst.
  apply Steps_Plus_Class in Hword. destruct Hword as [w [_ [Hw [Hr _]]]].
  inversion Hslash as [|c x' rest' Hrm| | | | | |]; subst.
  simpl in Hr. rewrite Hrm in Hr.
  assert (E : HYPHEN = SLASH)
    by (eapply (run_unique isWord); [exact Hkey | exact Hw | | | exact Hr];
        reflexivity).
  discriminate E.
Qed.

(** The prefix [(?:\w+\/)*] takes every segment when what follows is a
    word and a hyphen. *)
Lemma repeat_segments_greedy (key t : jsstring) (caps : list (nat * jsstring))
    (k : mstate -> option mstate) (z : mstate) :
  Forall (fun c => isWord c = true) key ->
  forall pre, slashPrefix pre ->
  forall index fuel,
    List.length (pre ++ key ++ HYPHEN :: t) <= fuel ->
    k (MState (index + List.length pre) (key ++ HYPHEN :: t) caps) = Some z ->
    repeat (matchRe (Seq (Plus (Class isWord)) (Char SLASH))) fuel
      (MState index (pre ++ key ++ HYPHEN :: t) caps) k = Some z.
Proof.
  intros Hkey pre Hpre.
  induction Hpre as [|word more Hne Hword _ IH]; intros index fuel Hfuel Hk.
  - simpl in Hk. rewrite Nat.add_0_r in Hk.
    destruct fuel as [|fuel]; [exact Hk|].
    cbn [repeat app]. rewrite (segment_fails t index caps _ Hkey). exact Hk.
  - destruct fuel as [|fuel];
      [rewrite !length_app in Hfuel; simpl in Hfuel; lia|].
    cbn [repeat]. rewrite matchRe_Seq.
    replace ((word ++ [SLASH] ++ more) ++ key ++ HYPHEN :: t)
      with (word ++ SLASH :: (more ++ key ++ HYPHEN :: t))
      by (rewrite <- !app_assoc; reflexivity).
    rewrite (@plus_class_greedy isWord word
               (SLASH :: more ++ key ++ HYPHEN :: t) index caps _ z
               Hne Hword eq_refl); [reflexivity|].
    rewrite matchRe_Char_cons. cbn [rest].
    replace (Nat.ltb _ _) with true
      by (symmetry; apply Nat.ltb_lt; rewrite (length_app word); simpl; lia).
    apply IH.
    + rewrite <- !app_assoc in Hfuel. rewrite !length_app in Hfuel |- *.
      simpl in Hfuel |- *. rewrite !length_app in Hfuel. simpl in Hfuel. lia.
    + rewrite <- Hk. f_equal. f_equal. rewrite !length_app. simpl. lia.
Qed.

Lemma isWord_notHyphen (c : N) : isWord c = true -> notHyphen c = true.
Proof.
  unfold notHyphen. destruct (N.eqb_spec c HYPHEN) as [->|]; [|reflexivity].
  vm_compute. discriminate.
Qed.

(** A name of the form prefix, word, hyphen, digits, with no digit after,
    matches with the word and the digits as groups. *)
Lemma ticketPattern_complete (pre key number tail : jsstring) :
  slashPrefix pre ->
  key <> [] -> Forall (fun c => isWord c = true) key ->
  number <> [] -> Forall (fun c => isDigit c = true) number ->
  match tail with [] => True | c :: _ => isDigit c = false end ->
  exists m,
    exec Page.ticketPattern (pre ++ key ++ [HYPHEN] ++ number ++ tail) = Some m /\
    group 1 m = Some key /\ group 2 m = Some number.
Proof.
  intros Hpre Hkne Hkey Hnne Hnum Htail.
  eexists. split.
  - unfold Page.ticketPattern. rewrite exec_Bol.
    rewrite matchRe_Seq, matchRe_Bol, matchRe_Seq, matchRe_Star. cbn [rest].
    apply (@repeat_segments_greedy key (number ++ tail) [] _ _ Hkey pre Hpre 0 _
             (le_n _)).
    rewrite matchRe_Seq.
    apply group_plus_class_greedy; try assumption.
    + eapply Forall_impl; [|exact Hkey]. exact isWord_notHyphen.
    + reflexivity.
    + rewrite matchRe_Seq, matchRe_Char_cons.
      apply group_plus_class_greedy; try assumption. reflexivity.
  - split; reflexivity.
Qed.

(** The scan passes over the code units on which the match cannot
    start. *)
Lemma scan_here (r : regex) (s : jsstring) (index : nat) (m : mstate) :
  matchRe r (MState index s []) Some = Some m -> scan r index s = Some m.
Proof. intros H. destruct s; simpl; rewrite H; reflexivity. Qed.

(** A literal matches its own code units. *)
Lemma matchRe_Lit (label : jsstring) (r : regex) :
  forall s index caps k,
    matchRe (Lit label r) (MState index (label ++ s) caps) k
    = matchRe r (MState (index + List.length label) s caps) k.
Proof.
  induction label as [|c label IH]; intros s index caps k.
  - simpl. rewrite Nat.add_0_r. reflexivity.
  - change (Lit (c :: label) r) with (Seq (Char c) (Lit label r)).
    rewrite matchRe_Seq. cbn [app]. rewrite matchRe_Char_cons, IH.
    f_equal. f_equal. simpl. lia.
Qed.

(** *** The first occurrence of a literal *)

(** A literal fails where the input does not begin with it. *)
Lemma matchRe_Lit_fail (label : jsstring) (r : regex) :
  forall s index caps k,
    startsWith s label = false ->
    matchRe (Lit label r) (MState index s caps) k = None.
Proof.
  induction label as [|c label IH]; intros s index caps k H.
  - destruct s; discriminate H.
  - change (Lit (c :: label) r) with (Seq (Char c) (Lit label r)).
    rewrite matchRe_Seq. destruct s as [|d s]; [reflexivity|].
    cbn [startsWith] in H. cbn [matchRe rest].
    destruct (N.eqb d c); [|reflexivity].
    cbn [andb] in H. apply IH. exact H.
Qed.

(** The scan passes over a prefix at none of whose positions the pattern
    matches. *)
Lemma scan_first (r : regex) (s : jsstring) :
  forall before index,
    (forall a b i, before = a ++ b -> b <> [] ->
                   matchRe r (MState i (b ++ s) []) Some = None) ->
    scan r index (before ++ s) = scan r (index + List.length before) s.
Proof.
  induction before as [|c before IH]; intros index Hfail.
  - simpl. rewrite Nat.add_0_r. reflexivity.
  - cbn [app scan].
    pose proof (Hfail [] (c :: before) index eq_refl ltac:(discriminate)) as H0.
    cbn [app] in H0. rewrite H0, IH.
    + f_equal. simpl. lia.
    + intros a b i -> Hb. apply (Hfail (c :: a) b i eq_refl Hb).
Qed.

(** A match at some position makes the scan succeed, there or earlier. *)
Lemma scan_finds (r : regex) (s : jsstring) (m : mstate) :
  forall before index,
    matchRe r (MState (index + List.length before) s []) Some = Some m ->
    exists m', scan r index (before ++ s) = Some m'.
Proof.
  induction before as [|c before IH]; intros index H.
  - simpl in H. rewrite Nat.add_0_r in H. exists m. now apply scan_here.
  - cbn [app scan].
    destruct (matchRe r (MState index (c :: before ++ s) []) Some) as [m'|];
      [eauto|].
    apply IH. rewrite <- H. f_equal. f_equal. simpl. lia.
Qed.

Lemma occurs_split (needle : jsstring) :
  forall s a b,
    Output.occurs needle s = false -> s = a ++ b -> startsWith b needle = false.
Proof.
  intros s a. revert s. induction a as [|c a IH]; intros s b H ->.
  - destruct b; simpl in H; apply orb_false_iff in H; apply H.
  - cbn [app Output.occurs] in H. apply orb_false_iff in H.
    apply (IH (a ++ b) b); [apply H | reflexivity].
Qed.

Lemma startsWith_long (prefix : jsstring) :
  forall s t,
    List.length prefix <= List.length s ->
    startsWith (s ++ t) prefix = startsWith s prefix.
Proof.
  induction prefix as [|p prefix IH]; intros s t H;
    [destruct s; [destruct t|]; reflexivity|].
  destruct s as [|c s]; [simpl in H; lia|].
  cbn [app startsWith]. rewrite IH; [reflexivity | simpl in H; lia].
Qed.

(** The longest run of a class at the head of a string. *)
Lemma class_run (member : N -> bool) (s : jsstring) :
  exists w after,
    s = w ++ after /\ Forall (fun c => member c = true) w /\
    match after with [] => True | c :: _ => member c = false end.
Proof.
  induction s as [|c s [w [after [Hs [Hw Hafter]]]]].
  - exists [], []. repeat split. constructor.
  - destruct (member c) eqn:Hc.
    + exists (c :: w), after. subst s. repeat split; [|exact Hafter].
      constructor; assumption.
    + exists [], (c :: s). repeat split; [constructor | exact Hc].
Qed.

(** The pattern of the remote's listing at the first occurrence of the
    label: the capture is the rest of the label's line. *)
Lemma headBranchPattern_first (before shown after : jsstring) :
  Output.firstLabel before = true ->
  shown <> [] -> Forall (fun c => isLineTerminator c = false) shown ->
  match after with [] => True | c :: _ => isLineTerminator c = true end ->
  exists m,
    exec Git.headBranchPattern (before ++ Output.headLabel ++ shown ++ after)
    = Some m /\
    group 1 m = Some shown.
Proof.
  intros Hfirst Hne Hshown Hafter. eexists. split.
  - unfold exec. rewrite scan_first.
    + apply scan_here. unfold Git.headBranchPattern, Output.headLabel.
      rewrite matchRe_Lit.
      apply group_plus_class_greedy; try assumption.
      * eapply Forall_impl; [|exact Hshown]. intros c Hc. unfold isDot.
        rewrite Hc. reflexivity.
      * destruct after as [|c after]; [exact I|]. unfold isDot.
        rewrite Hafter. reflexivity.
      * reflexivity.
    + intros a b i -> Hb. unfold Git.headBranchPattern.
      apply matchRe_Lit_fail.
      unfold Output.firstLabel in Hfirst. apply negb_true_iff in Hfirst.
      rewrite <- app_assoc in Hfirst.
      pose proof (@occurs_split Output.headLabel _ a
                    (b ++ lit "HEAD branch:") Hfirst eq_refl) as H.
      change (Output.headLabel ++ shown ++ after)
        with (lit "HEAD branch:" ++ ([32%N] ++ shown ++ after)).
      rewrite app_assoc, startsWith_long; [exact H|].
      rewrite length_app. destruct b; [congruence|]. simpl. lia.
  - reflexivity.
Qed.

(** The pattern finds no match exactly in an output where the label is
    nowhere followed by a character of its line. *)
Lemma headBranchPattern_none (remoteOutput : jsstring) :
  exec Git.headBranchPattern remoteOutput = None <->
  (forall before after,
      remoteOutput = before ++ Output.headLabel ++ after ->
      match after with [] => True | c :: _ => isLineTerminator c = true end).
Proof.
  split.
  - intros Hnone before after ->.
    destruct after as [|c after]; [exact I|].
    destruct (isLineTerminator c) eqn:Hc; [reflexivity|]. exfalso.
    destruct (class_run isDot after) as [w [rest' [-> [Hw Hrest]]]].
    assert (Hm : exists m,
               matchRe Git.headBranchPattern
                 (MState (0 + List.length before)
                    (Output.headLabel ++ (c :: w) ++ rest') []) Some = Some m).
    { unfold Git.headBranchPattern, Output.headLabel. rewrite matchRe_Lit.
      eexists. apply group_plus_class_greedy; try assumption.
      - discriminate.
      - constructor; [unfold isDot; now rewrite Hc | exact Hw].
      - reflexivity. }
    destruct Hm as [m Hm].
    destruct (scan_finds _ _ before 0 Hm) as [m' Hm'].
    unfold exec in Hnone. cbn [app] in Hm'. congruence.
  - intros H. destruct (exec Git.headBranchPattern remoteOutput) as [m|] eqn:Hm;
      [|reflexivity].
    destruct (headBranchPattern_sound remoteOutput Hm)
      as [before [name [after [Heq [Hne [Hname _]]]]]].
    specialize (H before (name ++ after) Heq).
    destruct name as [|c name]; [congruence|].
    inversion Hname as [|c' name' Hc _]; subst. cbn [app] in H. congruence.
Qed.

(** ** VCS adapter *)

(** C3.  On a project path that does not exist each of the five operations
    returns its sentinel, normally, with an empty trace: no command is
    run. *)
Theorem missing_path_sentinels
    existsSync shell basename projectPath fromBranch toBranch excludePatterns :
  existsSync projectPath = false ->
  Git.getBranches existsSync shell projectPath = Eff [] (Normal []) /\
  Git.getCurrentBranch existsSync shell projectPath = Eff [] (Normal None) /\
  Git.getDefaultBranch existsSync shell projectPath = Eff [] (Normal None) /\
  Git.getDiff existsSync shell projectPath fromBranch toBranch excludePatterns
  = Eff [] (Normal None) /\
  Git.getProjectName existsSync basename projectPath = Eff [] (Normal None).
Proof.
  intros H.
  unfold Git.getBranches, Git.getCurrentBranch, Git.getDefaultBranch,
    Git.getDiff, Git.getProjectName.
  rewrite H. repeat split.
Qed.

(** [getBranches] on an existing path: the parsed listing, or the empty
    list when the command fails. *)
Lemma getBranches_existing existsSync shell projectPath :
  existsSync projectPath = true ->
  outcome (Git.getBranches existsSync shell projectPath)
  = Normal (match shell (lit "git branch") projectPath with
            | Normal output => Git.parseBranches output
            | Abrupt _ => []
            end).
Proof.
  intros H. unfold Git.getBranches, Git.execSync, try_catch. rewrite H.
  cbn [negb bind eff_monad outcome trace].
  destruct (shell (lit "git branch") projectPath); reflexivity.
Qed.

Lemma includes_In (branches : list jsstring) (branch : jsstring) :
  Git.includes branches branch = true <-> In branch branches.
Proof.
  unfold Git.includes. rewrite existsb_exists. split.
  - intros [x [Hx Heq]]. destruct (str_eqb_spec branch x); [subst; auto|discriminate].
  - intros H. exists branch. split; [exact H | apply str_eqb_refl].
Qed.

Lemma includes_not_In (branches : list jsstring) (branch : jsstring) :
  Git.includes branches branch = false <-> ~ In branch branches.
Proof.
  rewrite <- includes_In. destruct (Git.includes branches branch); split;
    congruence.
Qed.

(** The selection among the conventional names looks at membership only. *)
Lemma firstCommonBranch_Permutation (a b : list jsstring) :
  Permutation a b -> Git.firstCommonBranch a = Git.firstCommonBranch b.
Proof.
  intros Hp. unfold Git.firstCommonBranch.
  assert (Hinc : forall x, Git.includes a x = Git.includes b x).
  { intros x. destruct (Git.includes b x) eqn:Hb.
    - apply includes_In. apply includes_In in Hb.
      eapply Permutation_in; [apply Permutation_sym|]; eassumption.
    - apply includes_not_In. apply includes_not_In in Hb.
      intros Ha; apply Hb. eapply Permutation_in; eassumption. }
  induction Git.commonDefaultBranches as [|c cs IH]; simpl; [reflexivity|].
  rewrite Hinc. destruct (Git.includes b c); [reflexivity | exact IH].
Qed.

Lemma outcome_bind {A B : Type} (c : eff A) (k : A -> eff B) :
  outcome (bind c k)
  = match outcome c with
    | Normal a => outcome (k a)
    | Abrupt e => Abrupt e
    end.
Proof. simpl. destruct (outcome c); reflexivity. Qed.

Lemma outcome_try_catch {A : Type} (body : eff A) (handler : exn -> eff A) :
  outcome (try_catch body handler)
  = match outcome body with
    | Normal a => Normal a
    | Abrupt e => outcome (handler e)
    end.
Proof. unfold try_catch. destruct (outcome body) eqn:E; [exact E | reflexivity]. Qed.

(** The inner [try] of [getDefaultBranch] never throws: it gives the
    trimmed capture when the command succeeds and the pattern matches. *)
Lemma remoteHeadBranch_outcome shell projectPath :
  outcome (Git.remoteHeadBranch shell projectPath)
  = Normal (match shell (lit "git remote show origin") projectPath with
            | Normal remoteOutput =>
                match exec Git.headBranchPattern remoteOutput with
                | Some m =>
                    match group 1 m with
                    | Some name => Some (trim name)
                    | None => None
                    end
                | None => None
                end
            | Abrupt _ => None
            end).
Proof.
  unfold Git.remoteHeadBranch. rewrite outcome_try_catch, outcome_bind.
  unfold Git.execSync. cbn [outcome].
  destruct (shell (lit "git remote show origin") projectPath) as [out|e];
    [|reflexivity].
  destruct (exec Git.headBranchPattern out) as [m|] eqn:Hm; [|reflexivity].
  destruct (headBranchPattern_sound out Hm) as [_ [name [_ [_ [Hne [_ Hg]]]]]].
  rewrite Hg. destruct name; [congruence | reflexivity].
Qed.

(** [getDefaultBranch] on an existing path, as a function of the branch
    list and of the remote's answer. *)
Lemma getDefaultBranch_existing existsSync shell projectPath branches :
  existsSync projectPath = true ->
  outcome (Git.getBranches existsSync shell projectPath) = Normal branches ->
  outcome (Git.getDefaultBranch existsSync shell projectPath)
  = match Git.firstCommonBranch branches with
    | Some branch => Normal (Some branch)
    | None =>
        match outcome (Git.remoteHeadBranch shell projectPath) with
        | Normal (Some branch) => Normal (Some branch)
        | _ => Normal (hd_error branches)
        end
    end.
Proof.
  intros Hex Hbr. unfold Git.getDefaultBranch. rewrite Hex. cbn [negb].
  rewrite outcome_try_catch, outcome_bind, Hbr.
  destruct (Git.firstCommonBranch branches) as [b|]; [reflexivity|].
  rewrite outcome_bind, remoteHeadBranch_outcome.
  destruct (shell (lit "git remote show origin") projectPath) as [out|e].
  - destruct (exec Git.headBranchPattern out) as [m|].
    + destruct (group 1 m); [reflexivity | destruct branches; reflexivity].
    + destruct branches; reflexivity.
  - destruct branches; reflexivity.
Qed.

(** A string without white space at its ends is its own trimming. *)
Lemma trimStart_fixed (s : jsstring) :
  Git.leadingWhiteSpace s = false -> trimStart s = s.
Proof. destruct s as [|c s]; simpl; [reflexivity|]. intros ->. reflexivity. Qed.

Lemma trimEnd_fixed (s : jsstring) :
  Git.trailingWhiteSpace s = false -> trimEnd s = s.
Proof.
  unfold Git.trailingWhiteSpace, trimEnd. intros H.
  rewrite (trimStart_fixed _ H). apply rev_involutive.
Qed.

Lemma trim_fixed (s : jsstring) :
  Git.leadingWhiteSpace s = false -> Git.trailingWhiteSpace s = false ->
  trim s = s.
Proof.
  intros Hl Ht. unfold trim. rewrite (trimStart_fixed _ Hl). now apply trimEnd_fixed.
Qed.

Lemma firstCommonBranch_cases (branches : list jsstring) :
  (In (lit "develop") branches ->
   Git.firstCommonBranch branches = Some (lit "develop")) /\
  (~ In (lit "develop") branches -> In (lit "main") branches ->
   Git.firstCommonBranch branches = Some (lit "main")) /\
  (~ In (lit "develop") branches -> ~ In (lit "main") branches ->
   In (lit "master") branches ->
   Git.firstCommonBranch branches = Some (lit "master")) /\
  (~ In (lit "develop") branches -> ~ In (lit "main") branches ->
   ~ In (lit "master") branches ->
   Git.firstCommonBranch branches = None).
Proof.
  unfold Git.firstCommonBranch, Git.commonDefaultBranches. cbn [find].
  repeat split; intros;
    repeat match goal with
      | H : In _ _ |- _ => apply includes_In in H; rewrite H
      | H : ~ In _ _ |- _ => apply includes_not_In in H; rewrite H
      end; reflexivity.
Qed.

(** C2.  On a project path that exists, default-branch selection returns
    the first of [develop], [main], [master] that occurs in the branch
    list, whatever the order of the list.  When none occurs it returns what
    the remote's listing shows after its first [HEAD branch: ], the rest of
    that line, trimmed.  For a remote that advertises a HEAD branch that is
    the branch; for a remote without HEAD git prints [(unknown)] there, and
    the selection returns the text [(unknown)], not the first branch of the
    list and not [null].  When the remote command fails, or its output
    shows nothing after the label anywhere, it returns the first branch of
    the list, [null] for an empty list. *)
Theorem getDefaultBranch_selection existsSync shell projectPath branches :
  existsSync projectPath = true ->
  outcome (Git.getBranches existsSync shell projectPath) = Normal branches ->
  let result := outcome (Git.getDefaultBranch existsSync shell projectPath) in
  let remote := shell (lit "git remote show origin") projectPath in
  (In (lit "develop") branches -> result = Normal (Some (lit "develop"))) /\
  (~ In (lit "develop") branches -> In (lit "main") branches ->
   result = Normal (Some (lit "main"))) /\
  (~ In (lit "develop") branches -> ~ In (lit "main") branches ->
   In (lit "master") branches -> result = Normal (Some (lit "master"))) /\
  (forall existsSync' shell' projectPath' branches',
      existsSync' projectPath' = true ->
      outcome (Git.getBranches existsSync' shell' projectPath') = Normal branches' ->
      Permutation branches branches' ->
      In (lit "develop") branches \/ In (lit "main") branches
      \/ In (lit "master") branches ->
      outcome (Git.getDefaultBranch existsSync' shell' projectPath') = result) /\
  (~ In (lit "develop") branches -> ~ In (lit "main") branches ->
   ~ In (lit "master") branches ->
   (forall before name after,
       remote = Normal (before ++ Output.headLabel ++ name ++ [LF] ++ after) ->
       Output.firstLabel before = true ->
       name <> [] -> Forall (fun c => isLineTerminator c = false) name ->
       Git.leadingWhiteSpace name = false ->
       Git.trailingWhiteSpace name = false ->
       result = Normal (Some name)) /\
   (forall before after,
       remote = Normal (before ++ Output.headLabel ++ Output.unknownHead
                        ++ [LF] ++ after) ->
       Output.firstLabel before = true ->
       result = Normal (Some Output.unknownHead)) /\
   (forall before shown after,
       remote = Normal (before ++ Output.headLabel ++ shown ++ after) ->
       Output.firstLabel before = true ->
       shown <> [] -> Forall (fun c => isLineTerminator c = false) shown ->
       match after with [] => True | c :: _ => isLineTerminator c = true end ->
       result = Normal (Some (trim shown))) /\
   (forall remoteOutput m,
       remote = Normal remoteOutput ->
       exec Git.headBranchPattern remoteOutput = Some m ->
       exists before shown after,
         remoteOutput = before ++ Output.headLabel ++ shown ++ after /\
         group 1 m = Some shown /\
         result = Normal (Some (trim shown))) /\
   ((exists e, remote = Abrupt e) \/
    (exists remoteOutput,
        remote = Normal remoteOutput /\
        forall before after,
          remoteOutput = before ++ Output.headLabel ++ after ->
          match after with [] => True | c :: _ => isLineTerminator c = true end) ->
    result = Normal (hd_error branches)) /\
   hd_error branches = match branches with
                       | first :: _ => Some first
                       | [] => None
                       end).
Proof.
  intros Hex Hbr result remote. subst result remote.
  rewrite (getDefaultBranch_existing existsSync shell projectPath Hex Hbr).
  destruct (firstCommonBranch_cases branches) as [Hd [Hm [Hms Hnone]]].
  split; [intros H; now rewrite (Hd H)|].
  split; [intros H1 H2; now rewrite (Hm H1 H2)|].
  split; [intros H1 H2 H3; now rewrite (Hms H1 H2 H3)|].
  split.
  - intros ex' sh' p' bs' Hex' Hbr' Hperm Hin.
    rewrite (getDefaultBranch_existing ex' sh' p' Hex' Hbr').
    rewrite <- (firstCommonBranch_Permutation Hperm).
    destruct (Git.firstCommonBranch branches) as [b|] eqn:Hf; [reflexivity|].
    exfalso.
    destruct (in_dec (list_eq_dec N.eq_dec) (lit "develop") branches) as [H1|H1];
      [specialize (Hd H1); congruence|].
    destruct (in_dec (list_eq_dec N.eq_dec) (lit "main") branches) as [H2|H2];
      [specialize (Hm H1 H2); congruence|].
    destruct Hin as [H|[H|H]]; try contradiction.
    specialize (Hms H1 H2 H); congruence.
  - intros H1 H2 H3. rewrite (Hnone H1 H2 H3), remoteHeadBranch_outcome.
    assert (Hshown : forall before shown after,
               shell (lit "git remote show origin") projectPath
               = Normal (before ++ Output.headLabel ++ shown ++ after) ->
               Output.firstLabel before = true ->
               shown <> [] ->
               Forall (fun c => isLineTerminator c = false) shown ->
               match after with
               | [] => True
               | c :: _ => isLineTerminator c = true
               end ->
               match
                 match shell (lit "git remote show origin") projectPath with
                 | Normal remoteOutput =>
                     match exec Git.headBranchPattern remoteOutput with
                     | Some m =>
                         match group 1 m with
                         | Some name => Some (trim name)
                         | None => None
                         end
                     | None => None
                     end
                 | Abrupt _ => None
                 end
               with
               | Some branch => Normal (Some branch)
               | None => Normal (hd_error branches)
               end = Normal (Some (trim shown))).
    { intros before shown after Hout Hfirst Hne Hname Hafter. rewrite Hout.
      destruct (headBranchPattern_first before after Hfirst Hne Hname Hafter)
        as [m [Hm' Hg]].
      rewrite Hm', Hg. reflexivity. }
    split; [|split; [|split; [|split; [|split]]]].
    + intros before name after Hout Hfirst Hne Hname Hl Ht.
      rewrite (Hshown before name ([LF] ++ after) Hout Hfirst Hne Hname eq_refl).
      rewrite (trim_fixed name Hl Ht). reflexivity.
    + intros before after Hout Hfirst.
      rewrite (Hshown before Output.unknownHead ([LF] ++ after) Hout Hfirst);
        [reflexivity | discriminate | | reflexivity].
      repeat constructor.
    + exact Hshown.
    + intros out m Hout Hm'. rewrite Hout, Hm'.
      destruct (headBranchPattern_sound out Hm')
        as [before [name [after [Heq [_ [_ Hg]]]]]].
      exists before, name, after. rewrite Hg. repeat split; assumption.
    + intros [[e He]|[out [Hout Hno]]].
      * rewrite He. reflexivity.
      * apply headBranchPattern_none in Hno. rewrite Hout, Hno. reflexivity.
    + destruct branches; reflexivity.
Qed.

(** *** The branch listing *)

Lemma trimStart_no_leading (s : jsstring) :
  Git.leadingWhiteSpace (trimStart s) = false.
Proof.
  induction s as [|c s IH]; simpl; [reflexivity|].
  destruct (isWhiteSpace c) eqn:E; [exact IH | simpl; exact E].
Qed.

Lemma trimStart_suffix (s : jsstring) : exists w, s = w ++ trimStart s.
Proof.
  induction s as [|c s [w IH]]; simpl; [exists []; reflexivity|].
  destruct (isWhiteSpace c).
  - exists (c :: w). simpl. now rewrite <- IH.
  - exists []. reflexivity.
Qed.

Lemma trimEnd_prefix (s : jsstring) : exists w, s = trimEnd s ++ w.
Proof.
  unfold trimEnd. destruct (trimStart_suffix (rev s)) as [w Hw].
  exists (rev w). rewrite <- rev_app_distr, <- Hw, rev_involutive. reflexivity.
Qed.

Lemma trim_no_trailing (s : jsstring) : Git.trailingWhiteSpace (trim s) = false.
Proof.
  unfold Git.trailingWhiteSpace, trim, trimEnd. rewrite rev_involutive.
  apply trimStart_no_leading.
Qed.

Lemma trim_no_leading (s : jsstring) : Git.leadingWhiteSpace (trim s) = false.
Proof.
  unfold trim. destruct (trimEnd_prefix (trimStart s)) as [w Hw].
  pose proof (trimStart_no_leading s) as H. rewrite Hw in H.
  destruct (trimEnd (trimStart s)); [reflexivity | exact H].
Qed.

Lemma startsWith_app (s prefix : jsstring) :
  startsWith s prefix = true -> s = prefix ++ skipn (List.length prefix) s.
Proof.
  revert s; induction prefix as [|p prefix IH]; intros s H; [reflexivity|].
  destruct s as [|c s]; simpl in H; [discriminate|].
  apply andb_true_iff in H. destruct H as [Hc Hs].
  apply N.eqb_eq in Hc. subst c. simpl. f_equal. apply IH, Hs.
Qed.

(** Every entry of the parsed listing comes from a line whose trimmed text
    is not empty: it is that text, or that text without its marker. *)
Lemma parseBranches_In (output branch : jsstring) :
  In branch (Git.parseBranches output) ->
  exists line,
    In line (split LF output) /\ trim line <> [] /\
    branch = (if startsWith (trim line) Git.currentMarker
              then substring 2 (trim line) else trim line).
Proof.
  unfold Git.parseBranches. intros H.
  apply in_map_iff in H. destruct H as [t [Hb Ht]].
  apply filter_In in Ht. destruct Ht as [Ht Hlen].
  apply in_map_iff in Ht. destruct Ht as [line [Hl Hin]]. subst t.
  exists line. repeat split; [exact Hin | | now rewrite Hb].
  intros E. rewrite E in Hlen. discriminate.
Qed.

(** What follows the marker on a trimmed line is not empty and ends as the
    line does. *)
Lemma after_marker (t : jsstring) :
  t <> [] -> Git.trailingWhiteSpace t = false ->
  startsWith t Git.currentMarker = true ->
  substring 2 t <> [] /\ Git.trailingWhiteSpace (substring 2 t) = false /\
  t = Git.currentMarker ++ substring 2 t.
Proof.
  intros Hne Htr Hst. apply startsWith_app in Hst.
  change (List.length Git.currentMarker) with 2 in Hst.
  unfold substring. remember (skipn 2 t) as b eqn:Hb. clear Hb.
  subst t. destruct b as [|c b]; [vm_compute in Htr; discriminate|].
  repeat split; [discriminate|].
  unfold Git.trailingWhiteSpace in *.
  change (Git.currentMarker ++ c :: b) with ([42; 32]%N ++ c :: b) in Htr.
  rewrite rev_app_distr in Htr.
  destruct (rev (c :: b)) as [|l r] eqn:Hr; [|exact Htr].
  apply (f_equal (@List.length N)) in Hr. rewrite length_rev in Hr. discriminate.
Qed.

(** A line is its trimmed text between two runs of white space. *)
Lemma trim_inside (line : jsstring) :
  exists w1 w2, line = w1 ++ trim line ++ w2.
Proof.
  destruct (trimStart_suffix line) as [w1 H1].
  destruct (trimEnd_prefix (trimStart line)) as [w2 H2].
  exists w1, w2. unfold trim. rewrite <- H2. exact H1.
Qed.

(** A second marker on a trimmed line is an asterisk past the first code
    unit of the line. *)
Lemma second_marker (line rest' : jsstring) :
  trim line = Git.currentMarker ++ Git.currentMarker ++ rest' ->
  Output.asteriskInFront line = false.
Proof.
  intros H. destruct (trim_inside line) as [w1 [w2 Hl]]. rewrite H in Hl.
  unfold Output.asteriskInFront. apply negb_false_iff, existsb_exists.
  exists 42%N. split; [|reflexivity].
  rewrite Hl. change Git.currentMarker with [42%N; 32%N].
  destruct w1 as [|c w1]; cbn [app tl].
  - right. left. reflexivity.
  - apply in_or_app. right. left. reflexivity.
Qed.

(** C10 (as amended).  Every string of the list [getBranches] returns is
    non-empty and ends with no white space.  It is a trimmed line of the
    listing that does not begin with the marker, and then begins with no
    white space either, or it is what follows the marker on a trimmed line:
    that remainder is not trimmed again, so white space at its head stays.
    In a listing where no line has an asterisk after its first code unit,
    as in every listing git prints, no string begins with the marker. *)
Theorem getBranches_entries existsSync shell projectPath branches :
  outcome (Git.getBranches existsSync shell projectPath) = Normal branches ->
  forall branch, In branch branches ->
    branch <> [] /\ Git.trailingWhiteSpace branch = false /\
    ((Git.leadingWhiteSpace branch = false /\
      startsWith branch Git.currentMarker = false) \/
     (exists output line,
         shell (lit "git branch") projectPath = Normal output /\
         In line (split LF output) /\
         trim line = Git.currentMarker ++ branch)) /\
    (forall output,
        shell (lit "git branch") projectPath = Normal output ->
        forallb Output.asteriskInFront (split LF output) = true ->
        startsWith branch Git.currentMarker = false).
Proof.
  intros Hout branch Hin.
  destruct (existsSync projectPath) eqn:Hex.
  - rewrite (getBranches_existing existsSync shell projectPath Hex) in Hout.
    injection Hout as <-.
    destruct (shell (lit "git branch") projectPath) as [output|e] eqn:Hsh;
      [|contradiction].
    apply parseBranches_In in Hin. destruct Hin as [line [Hl [Hne Hb]]].
    destruct (startsWith (trim line) Git.currentMarker) eqn:Hst.
    + destruct (after_marker Hne (trim_no_trailing line) Hst) as [H1 [H2 H3]].
      subst branch. split; [exact H1|]. split; [exact H2|]. split.
      * right. exists output, line. repeat split; assumption.
      * intros output' Ho Hfront. injection Ho as <-.
        destruct (startsWith (substring 2 (trim line)) Git.currentMarker)
          eqn:Hsecond; [|reflexivity].
        apply startsWith_app in Hsecond. rewrite Hsecond in H3.
        apply second_marker in H3.
        rewrite forallb_forall in Hfront. rewrite (Hfront line Hl) in H3.
        discriminate H3.
    + subst branch. split; [exact Hne|].
      split; [apply trim_no_trailing|]. split.
      * left. split; [apply trim_no_leading | exact Hst].
      * intros _ _ _. exact Hst.
  - unfold Git.getBranches in Hout. rewrite Hex in Hout.
    injection Hout as <-. contradiction.
Qed.

(** C10 (as stated) fails on the listing of a repository whose checked-out
    branch has a name that begins with a no-break space: the marker is
    removed after the trimming, and the entry begins with white space. *)
Lemma getBranches_entries_counterexample :
  Samples.shellNbsp (lit "git branch") Samples.repository
  = Normal (lit "* " ++ [160%N] ++ lit "x" ++ [LF] ++ lit "  main" ++ [LF]) /\
  outcome (Git.getBranches Samples.existsSync Samples.shellNbsp Samples.repository)
  = Normal [[160%N] ++ lit "x"; lit "main"] /\
  Git.leadingWhiteSpace ([160%N] ++ lit "x") = true /\
  ~ Git.cleanBranchName ([160%N] ++ lit "x") /\
  ~ Forall Git.cleanBranchName [[160%N] ++ lit "x"; lit "main"].
Proof.
  assert (H1 : ~ Git.cleanBranchName ([160%N] ++ lit "x"))
    by (intros [_ [H _]]; vm_compute in H; discriminate).
  split; [reflexivity|].
  split; [vm_compute; reflexivity|].
  split; [vm_compute; reflexivity|].
  split; [exact H1|].
  intros H; inversion H; contradiction.
Qed.

(** ** Matching delegate *)

(** C6.  The user prompt is a fixed text around the two arguments: the
    ticket description and the diff stand, unchanged and in one piece, each
    between an opening fence [```plaintext] and a closing fence [```], and
    that prompt is the user message of the request to the model. *)
Theorem userPrompt_verbatim :
  exists before between after : jsstring,
    forall ticketDescription gitDiff : jsstring,
      Llm.userPrompt ticketDescription gitDiff
      = before ++ (Llm.openFence ++ ticketDescription ++ Llm.closeFence)
        ++ between ++ (Llm.openFence ++ gitDiff ++ Llm.closeFence) ++ after /\
      forall provider,
        trace (Llm.validateDiffAgainstTicket provider ticketDescription gitDiff)
        = GenerateText (lit "gpt-4.1-mini-2025-04-14") 10000 Llm.systemPrompt
            (Llm.userPrompt ticketDescription gitDiff) (lit "0.7")
          :: match provider Llm.systemPrompt
                     (Llm.userPrompt ticketDescription gitDiff) with
             | Normal _ => []
             | Abrupt e =>
                 [ConsoleError (lit "Error validating diff against ticket:")
                    (Some e)]
             end.
Proof.
  exists ([LF] ++ Llm.indent
          ++ lit "I have a Jira ticket below. Could you tell me whether the implementation conforms to the description, and if not, what needs to be changed?"
          ++ [LF] ++ [LF] ++ Llm.indent ++ lit "The ticket:" ++ [LF] ++ Llm.indent),
         ([LF] ++ [LF] ++ Llm.indent ++ lit "The git diff:" ++ [LF] ++ Llm.indent),
         ([LF] ++ lit "    ").
  intros td gd. split.
  - unfold Llm.userPrompt, Llm.openFence, Llm.closeFence.
    repeat rewrite <- app_assoc. reflexivity.
  - intros provider.
    unfold Llm.validateDiffAgainstTicket, Llm.generateText, try_catch.
    cbn [bind eff_monad outcome trace].
    destruct (provider Llm.systemPrompt (Llm.userPrompt td gd)); reflexivity.
Qed.

(** The browser-side wrapper always returns. *)
Lemma clientValidateDiffAgainstTicket_returns api ticketDescription gitDiff :
  exists v,
    outcome (Llm.clientValidateDiffAgainstTicket api ticketDescription gitDiff)
    = Normal v.
Proof.
  unfold Llm.clientValidateDiffAgainstTicket.
  rewrite outcome_try_catch.
  match goal with |- context [outcome ?b] => destruct (outcome b) as [v|e] end;
    eexists; reflexivity.
Qed.

(** The part of a handler after the request body has been read. *)
Lemma outcome_after_body (request : Routes.parsed) (first source : jsstring)
    (k : value -> eff Routes.reply) (handler : exn -> eff Routes.reply) :
  outcome
    (try_catch
       (body <- Routes.requestJson request ;;
        pure (Routes.destructurable first source body) ;;; k body)
       handler)
  = match request with
    | Routes.Parsed body =>
        match Routes.destructurable first source body with
        | Normal _ =>
            match outcome (k body) with
            | Normal r => Normal r
            | Abrupt e => outcome (handler e)
            end
        | Abrupt e => outcome (handler e)
        end
    | Routes.Rejected m => outcome (handler (JsError m))
    end.
Proof.
  rewrite outcome_try_catch, outcome_bind.
  destruct request as [body|m]; cbn [Routes.requestJson outcome ret eff_monad throw];
    [|reflexivity].
  rewrite outcome_bind. unfold pure. cbn [outcome].
  destruct (Routes.destructurable first source body); reflexivity.
Qed.

(** On strings the function of the route is the typed one. *)
Lemma routeValidate_strings provider ticketDescription gitDiff :
  Routes.validateDiffAgainstTicket provider (VString ticketDescription)
    (VString gitDiff)
  = Llm.validateDiffAgainstTicket provider ticketDescription gitDiff.
Proof.
  unfold Routes.validateDiffAgainstTicket, Llm.validateDiffAgainstTicket,
    Llm.generateText, try_catch, pure.
  cbn [bind eff_monad completion_monad outcome trace ret toString app].
  destruct (provider _ _); reflexivity.
Qed.

(** C7.  [validateDiffAgainstTicket] of the route returns in every case:
    the text of the completion when the model call succeeds, the error
    message behind the prefix [Error validating diff: ] when it fails.
    The browser-side wrapper returns in every case too: [data] of an ok
    answer as it came (the empty string for a falsy [data]), and behind
    the same prefix the error when the request is rejected, when the body
    is not JSON or has no members, and the [error] text of an answer that
    is not ok (a fixed text when it names none).  Served by the route, the
    wrapper returns the completion when the model call succeeds and the
    prefixed message, with the prefix once, when it fails. *)
Theorem validateDiffAgainstTicket_never_raises :
  forall provider ticketDescription gitDiff,
    let call := provider Llm.systemPrompt
                  (Llm.userPrompt ticketDescription gitDiff) in
    let result :=
      outcome (Llm.validateDiffAgainstTicket provider ticketDescription gitDiff) in
    (forall text, call = Normal text -> result = Normal text) /\
    (forall error, call = Abrupt error ->
                   result = Normal (lit "Error validating diff: "
                                    ++ Llm.describe error)) /\
    (exists text, result = Normal text) /\
    (forall api,
        let request :=
          api (VObject [(lit "action", VString (lit "validateDiffAgainstTicket"));
                        (lit "ticketDescription", VString ticketDescription);
                        (lit "gitDiff", VString gitDiff)]) in
        let clientResult :=
          outcome (Llm.clientValidateDiffAgainstTicket api
                     ticketDescription gitDiff) in
        let failed (error : exn) :=
          Normal (VString (lit "Error validating diff: " ++ Llm.describe error)) in
        (exists v, clientResult = Normal v) /\
        (forall error, request = Abrupt error -> clientResult = failed error) /\
        (forall resp error,
            request = Normal resp -> Jira.json resp = Abrupt error ->
            clientResult = failed error) /\
        (forall resp body data,
            request = Normal resp -> Jira.json resp = Normal body ->
            Jira.ok resp = true ->
            getProp body (lit "data") = Normal data ->
            clientResult = Normal (if truthy data then data else VString [])) /\
        (forall resp body error,
            request = Normal resp -> Jira.json resp = Normal body ->
            Jira.ok resp = true ->
            getProp body (lit "data") = Abrupt error ->
            clientResult = failed error) /\
        (forall resp body error,
            request = Normal resp -> Jira.json resp = Normal body ->
            Jira.ok resp = false ->
            getProp body (lit "error") = Normal error ->
            clientResult
            = match toString
                      (if truthy error then error
                       else VString (lit "Failed to validate diff against ticket"))
              with
              | Normal message => failed (JsError message)
              | Abrupt unconvertible => failed unconvertible
              end) /\
        (forall resp body error,
            request = Normal resp -> Jira.json resp = Normal body ->
            Jira.ok resp = false ->
            getProp body (lit "error") = Abrupt error ->
            clientResult = failed error)) /\
    (forall stringOf statusText,
        let served :=
          outcome (Llm.clientValidateDiffAgainstTicket
                     (Aux.served (Routes.llmPOST provider) stringOf statusText)
                     ticketDescription gitDiff) in
        (forall text, call = Normal text -> served = Normal (VString text)) /\
        (forall error,
            call = Abrupt error ->
            served = Normal (VString (lit "Error validating diff: "
                                      ++ Llm.describe error)))).
Proof.
  intros provider td gd call result.
  assert (Hresult : result
                    = Normal (match call with
                              | Normal text => text
                              | Abrupt error =>
                                  lit "Error validating diff: " ++ Llm.describe error
                              end)).
  { subst call result. unfold Llm.validateDiffAgainstTicket, Llm.generateText.
    rewrite outcome_try_catch, outcome_bind. cbn [outcome].
    destruct (provider _ _); reflexivity. }
  split; [intros text H; rewrite Hresult, H; reflexivity|].
  split; [intros error H; rewrite Hresult, H; reflexivity|].
  split; [rewrite Hresult; eexists; reflexivity|].
  split.
  - intros api request clientResult failed.
    split; [apply clientValidateDiffAgainstTicket_returns|].
    subst clientResult failed.
    unfold Llm.clientValidateDiffAgainstTicket, Llm.post.
    rewrite outcome_try_catch, outcome_bind. cbn [outcome].
    fold request.
    split; [intros error ->; reflexivity|].
    split.
    { intros resp error -> Hj. rewrite outcome_bind. unfold pure.
      cbn [outcome]. rewrite Hj. reflexivity. }
    split.
    { intros resp body data -> Hj Hok Hd. rewrite outcome_bind. unfold pure.
      cbn [outcome]. rewrite Hj, Hok. cbn [negb]. rewrite outcome_bind.
      cbn [outcome]. rewrite Hd. reflexivity. }
    split.
    { intros resp body error -> Hj Hok Hd. rewrite outcome_bind. unfold pure.
      cbn [outcome]. rewrite Hj, Hok. cbn [negb]. rewrite outcome_bind.
      cbn [outcome]. rewrite Hd. reflexivity. }
    split.
    { intros resp body error -> Hj Hok He. rewrite outcome_bind. unfold pure.
      cbn [outcome]. rewrite Hj, Hok. cbn [negb]. rewrite outcome_bind.
      cbn [outcome]. rewrite He. unfold Llm.newError, Llm.orElse, pure.
      rewrite outcome_bind. cbn [outcome].
      destruct (toString _); reflexivity. }
    intros resp body error -> Hj Hok He. rewrite outcome_bind. unfold pure.
    cbn [outcome]. rewrite Hj, Hok. cbn [negb]. rewrite outcome_bind.
    cbn [outcome]. rewrite He. reflexivity.
  - intros stringOf statusText served.
    assert (Hserved : served
                      = match result with
                        | Normal text => Normal (VString text)
                        | Abrupt e => Abrupt e
                        end).
    { rewrite Hresult. subst served result.
      unfold Llm.clientValidateDiffAgainstTicket, Llm.post.
      rewrite outcome_try_catch, outcome_bind. cbn [outcome].
      unfold Aux.served, Routes.llmPOST. rewrite outcome_after_body.
      cbn [Routes.destructurable].
      replace (isString _ (lit "validateDiffAgainstTicket")) with true
        by reflexivity.
      cbv iota. rewrite outcome_bind.
      replace (Routes.member _ (lit "ticketDescription"))
        with (VString td) by reflexivity.
      replace (Routes.member _ (lit "gitDiff")) with (VString gd)
        by reflexivity.
      rewrite routeValidate_strings, Hresult.
      cbn [outcome ret eff_monad]. unfold Aux.wire.
      cbn [Routes.status Routes.body Routes.present].
      change (N.leb 200 200 && N.leb 200 299) with true.
      rewrite outcome_bind. unfold pure. cbn [outcome Jira.json Jira.ok negb].
      rewrite outcome_bind. cbn [outcome].
      match goal with
      | |- context [getProp _ (lit "data")] =>
          replace (getProp _ (lit "data")) with
            (Normal (VString (match call with
                              | Normal text => text
                              | Abrupt error =>
                                  lit "Error validating diff: "
                                  ++ Llm.describe error
                              end)))
            by reflexivity
      end.
      unfold Llm.orElse.
      match goal with
      | |- context [truthy (VString ?s)] => destruct s; reflexivity
      end. }
    rewrite Hserved, Hresult.
    split; [intros text -> | intros error ->]; reflexivity.
Qed.

(** ** Ticket-identifier inference *)

(** C5.  The inference runs the one pattern on the branch name and joins
    its two groups with a hyphen: a match means the name is a
    slash-delimited prefix, a key without hyphen, a hyphen and digits, and
    the identifier is key, hyphen, digits; no match, no identifier.  Every
    name made of segments [word/], a word, a hyphen and digits (with no
    digit after them) gives word, hyphen, digits.  On
    [feature/PROJ-123-add-button] it gives [PROJ-123], on [hotfix]
    nothing. *)
Theorem inferTicketId_pattern :
  Page.inferTicketId (lit "feature/PROJ-123-add-button") = Some (lit "PROJ-123") /\
  Page.inferTicketId (lit "hotfix") = None /\
  (forall branch m,
      exec Page.ticketPattern branch = Some m ->
      exists key number,
        group 1 m = Some key /\ group 2 m = Some number /\
        Page.inferTicketId branch = Some (key ++ [HYPHEN] ++ number)) /\
  (forall branch,
      exec Page.ticketPattern branch = None -> Page.inferTicketId branch = None) /\
  (forall branch id,
      Page.inferTicketId branch = Some id ->
      exists pre key number tail,
        branch = pre ++ key ++ [HYPHEN] ++ number ++ tail /\
        slashPrefix pre /\
        key <> [] /\ Forall (fun c => c <> HYPHEN) key /\
        number <> [] /\ Forall (fun c => isDigit c = true) number /\
        id = key ++ [HYPHEN] ++ number) /\
  (forall pre key number tail,
      slashPrefix pre ->
      key <> [] -> Forall (fun c => isWord c = true) key ->
      number <> [] -> Forall (fun c => isDigit c = true) number ->
      match tail with [] => True | c :: _ => isDigit c = false end ->
      Page.inferTicketId (pre ++ key ++ [HYPHEN] ++ number ++ tail)
      = Some (key ++ [HYPHEN] ++ number)) /\
  (forall branch,
      Page.inferFromCurrentBranch (Some branch) = Page.inferTicketId branch) /\
  Page.inferFromCurrentBranch None = None.
Proof.
  split; [vm_compute; reflexivity|].
  split; [vm_compute; reflexivity|].
  split; [|split; [|split; [|split; [|split]]]].
  - intros branch m Hm.
    destruct (ticketPattern_sound branch Hm)
      as [pre [key [number [tail [_ [_ [_ [_ [_ [_ [H1 H2]]]]]]]]]]].
    exists key, number. unfold Page.inferTicketId, Page.ticketIdOf.
    rewrite Hm, H1, H2. repeat split.
  - intros branch H. unfold Page.inferTicketId. rewrite H. reflexivity.
  - intros branch id H. unfold Page.inferTicketId in H.
    destruct (exec Page.ticketPattern branch) as [m|] eqn:Hm; [|discriminate].
    destruct (ticketPattern_sound branch Hm)
      as [pre [key [number [tail [Hb [Hp [Hk [Hkf [Hn [Hnf [H1 H2]]]]]]]]]]].
    unfold Page.ticketIdOf in H. rewrite H1, H2 in H. injection H as <-.
    exists pre, key, number, tail. repeat split; assumption.
  - intros pre key number tail Hpre Hkne Hkey Hnne Hnum Htail.
    destruct (ticketPattern_complete tail Hpre Hkne Hkey Hnne Hnum Htail)
      as [m [Hm [H1 H2]]].
    unfold Page.inferTicketId, Page.ticketIdOf. rewrite Hm, H1, H2. reflexivity.
  - intros [|c branch]; [vm_compute|]; reflexivity.
  - reflexivity.
Qed.

(** ** Evaluations on the sample worlds *)

(** The sample listing parses to its four names, the marker removed. *)
Example parseBranches_sample :
  Git.parseBranches Samples.branchListing
  = [lit "master"; lit "main"; lit "feature/PROJ-123-add-button"; lit "develop"].
Proof. vm_compute. reflexivity. Qed.

(** Without a conventional name the selection asks the remote: two
    commands are run and the advertised branch is returned. *)
Example getDefaultBranch_remote :
  Git.getDefaultBranch Samples.existsSync Samples.shellTrunk Samples.repository
  = Eff [Exec (lit "git branch") Samples.repository;
         Exec (lit "git remote show origin") Samples.repository]
      (Normal (Some (lit "trunk"))).
Proof. vm_compute. reflexivity. Qed.

(** The command line of [getDiff] with the default patterns. *)
Example getDiff_command :
  trace (Git.getDiff Samples.existsSync Samples.shell Samples.repository
           (lit "main") (lit "feature") None)
  = [Exec (lit "git diff main...feature -- ':(exclude)**/*.snap' ':(exclude)**/*.json'")
       Samples.repository;
     ConsoleError (lit "Error getting git diff:") (Some Samples.commandFailed)].
Proof. vm_compute. reflexivity. Qed.

(** Backtracking in the ticket pattern: after the segment [abc/] no key
    can start at the hyphen, so the prefix gives the segment back and the
    key is [abc/]. *)
Example inferTicketId_backtracks :
  Page.inferTicketId (lit "abc/-1") = Some (lit "abc/-1") /\
  Page.inferTicketId (lit "a/b/c-1") = Some (lit "c-1") /\
  Page.inferTicketId (lit "PROJ-12x") = Some (lit "PROJ-12") /\
  Page.inferTicketId (lit "a/b-c/PROJ-1") = None /\
  Page.inferTicketId (lit "-12") = None.
Proof. vm_compute. repeat split. Qed.

(** String conversion of a nested array. *)
Example toString_array :
  toString (VArray [VNumber (lit "1"); VNull;
                    VArray [VString (lit "x"); VBool true]; VObject []])
  = Normal (lit "1,,x,true,[object Object]").
Proof. vm_compute. reflexivity. Qed.

(** The walker on values that are not document nodes: a number as text is
    printed, a string as content is iterated without effect, a number as
    content is not iterable. *)
Example extractTextFromADF_loose :
  Jira.extractTextFromADF
    (VObject [(lit "type", VString (lit "text")); (lit "text", VNumber (lit "5"));
              (lit "content", VString (lit "ab"))])
  = Normal (lit "5") /\
  Jira.extractTextFromADF (VObject [(lit "content", VNumber (lit "5"))])
  = Abrupt (notIterable (lit "node.content")) /\
  Jira.extractTextFromADF (VString (lit "text")) = Normal [].
Proof. vm_compute. repeat split. Qed.

(** The example of the specification under a document root. *)
Example walk_example :
  Jira.extractTextFromADF (Jira.toJSON (Jira.Doc Jira.example_tree)) =
  Normal ([LF] ++ lit "Done" ++ [LF] ++ [LF] ++ Jira.listItemPrefix ++ lit "A" ++ [LF]
          ++ Jira.listItemPrefix ++ lit "B" ++ [LF]).
Proof. vm_compute. reflexivity. Qed.

(** ** The statements on the sample worlds *)

(** C2 on a repository whose only branch is [feature/login] and whose
    remote has no HEAD: the selection is the text [(unknown)]. *)
Lemma getDefaultBranch_selection_witness :
  outcome (Git.getBranches Samples.existsSync Samples.shellNoHead
             Samples.repository) = Normal [lit "feature/login"] /\
  outcome (Git.getDefaultBranch Samples.existsSync Samples.shellNoHead
             Samples.repository) = Normal (Some (lit "(unknown)")).
Proof.
  split; [vm_compute; reflexivity|].
  destruct (getDefaultBranch_selection Samples.existsSync Samples.shellNoHead
              Samples.repository (branches := [lit "feature/login"])
              eq_refl eq_refl) as (_ & _ & _ & _ & H).
  assert (Hno : forall name, name <> lit "feature/login" ->
                             ~ In name [lit "feature/login"]).
  { intros name Hne [Heq|[]]. now apply Hne. }
  destruct (H (Hno (lit "develop") ltac:(vm_compute; discriminate))
              (Hno (lit "main") ltac:(vm_compute; discriminate))
              (Hno (lit "master") ltac:(vm_compute; discriminate)))
    as (_ & Hunknown & _).
  apply (Hunknown
           (lit "* remote origin" ++ [LF]
            ++ lit "  Fetch URL: https://github.com/Acme/Hub.git" ++ [LF]
            ++ lit "  Push  URL: https://github.com/Acme/Hub.git" ++ [LF]
            ++ lit "  ")
           []).
  - vm_compute. reflexivity.
  - vm_compute. reflexivity.
Defined.

(** C3 on a path that does not exist. *)
Lemma missing_path_sentinels_witness :
  Git.getBranches Samples.existsSync Samples.shell Samples.nowhere
  = Eff [] (Normal []) /\
  Git.getCurrentBranch Samples.existsSync Samples.shell Samples.nowhere
  = Eff [] (Normal None) /\
  Git.getDefaultBranch Samples.existsSync Samples.shell Samples.nowhere
  = Eff [] (Normal None) /\
  Git.getDiff Samples.existsSync Samples.shell Samples.nowhere
    (lit "main") (lit "feature") None
  = Eff [] (Normal None) /\
  Git.getProjectName Samples.existsSync Samples.basename Samples.nowhere
  = Eff [] (Normal None).
Proof.
  apply (missing_path_sentinels Samples.existsSync Samples.shell Samples.basename
           Samples.nowhere (lit "main") (lit "feature") None).
  vm_compute. reflexivity.
Defined.

(** C4 on an environment without the API token. *)
Lemma getTicket_refused_without_configuration_witness :
  outcome (Jira.jiraClientFrom Samples.envWithoutToken) = Normal None /\
  outcome (Jira.routeGetTicket Samples.envWithoutToken Samples.networkWithParent
             Samples.base64 (lit "PROJ-123"))
  = Abrupt (JsError Jira.missingConfiguration) /\
  filter isFetch
    (trace (Jira.routeGetTicket Samples.envWithoutToken Samples.networkWithParent
              Samples.base64 (lit "PROJ-123"))) = [].
Proof.
  apply (getTicket_refused_without_configuration Samples.envWithoutToken
           Samples.networkWithParent Samples.base64 (lit "PROJ-123")).
  right. right. vm_compute. reflexivity.
Defined.

(** C8 on a response with a parent link. *)
Lemma getTicket_parent_placeholder_witness :
  exists ticket,
    outcome (Jira.getTicket Samples.networkWithParent Samples.base64
               Samples.client (lit "PROJ-123")) = Normal (Some ticket) /\
    (truthy (VObject [(lit "id", VString (lit "10001"));
                      (lit "key", VString (lit "PROJ-100"))]) = true ->
     exists key,
       getProp (VObject [(lit "id", VString (lit "10001"));
                         (lit "key", VString (lit "PROJ-100"))]) (lit "key")
       = Normal key /\
       Jira.parents ticket
       = Some [Jira.mkJiraTicket key [] [] (VString []) None]) /\
    (truthy (VObject [(lit "id", VString (lit "10001"));
                      (lit "key", VString (lit "PROJ-100"))]) = false ->
     Jira.parents ticket = None) /\
    filter isFetch
      (trace (Jira.getTicket Samples.networkWithParent Samples.base64
                Samples.client (lit "PROJ-123")))
    = [Fetch (lit "GET") (Jira.requestUrl Samples.client (lit "PROJ-123"))
         (Jira.requestHeaders Samples.base64 Samples.client) None].
Proof.
  apply (getTicket_parent_placeholder Samples.networkWithParent Samples.base64
           Samples.client (lit "PROJ-123")
           (resp := Samples.respond Samples.fieldsWithParent)
           (body := Samples.issue Samples.fieldsWithParent)
           (fields := Samples.fieldsWithParent)
           (d := Jira.toJSON (Jira.Doc Jira.example_tree))
           (text := Jira.flatten (Jira.Doc Jira.example_tree))
           (summary := VString (lit "Add button"))).
  all: vm_compute; reflexivity.
Defined.

(** C9 on a response whose description is [null]. *)
Lemma getTicket_null_description_witness :
  outcome (Jira.getTicket Samples.networkNullDescription Samples.base64
             Samples.client (lit "PROJ-123")) = Normal None.
Proof.
  rewrite (proj1 (getTicket_null_description Samples.networkNullDescription
                    Samples.base64 Samples.client (lit "PROJ-123")
                    (resp := Samples.respond Samples.fieldsNullDescription)
                    (body := Samples.issue Samples.fieldsNullDescription)
                    (fields := Samples.fieldsNullDescription)
                    eq_refl eq_refl eq_refl eq_refl eq_refl)).
  reflexivity.
Defined.

(** C10 (as amended) on the first entry of the listing of a repository
    whose checked-out branch has a name that begins with a no-break
    space. *)
Lemma getBranches_entries_witness :
  [160%N] ++ lit "x" <> [] /\
  Git.trailingWhiteSpace ([160%N] ++ lit "x") = false /\
  ((Git.leadingWhiteSpace ([160%N] ++ lit "x") = false /\
    startsWith ([160%N] ++ lit "x") Git.currentMarker = false) \/
   (exists output line,
       Samples.shellNbsp (lit "git branch") Samples.repository = Normal output /\
       In line (split LF output) /\
       trim line = Git.currentMarker ++ [160%N] ++ lit "x")) /\
  startsWith ([160%N] ++ lit "x") Git.currentMarker = false.
Proof.
  destruct (getBranches_entries Samples.existsSync Samples.shellNbsp
              Samples.repository
              (branches := [[160%N] ++ lit "x"; lit "main"])
              eq_refl ([160%N] ++ lit "x") (or_introl eq_refl))
    as (H1 & H2 & H3 & H4).
  refine (conj H1 (conj H2 (conj H3 (H4 _ eq_refl eq_refl)))).
Defined.

(** * Part III: further properties of the adapters *)

(** ** The issue adapter *)

Ltac step_eff :=
  cbn [bind eff_monad completion_monad outcome trace ret throw pure try_catch
       console_error app negb filter isFetch].

(** Whatever the network answers, [JiraClient.getTicket] ends normally. *)
Lemma getTicket_returns network base64 this id :
  exists ticket, outcome (Jira.getTicket network base64 this id) = Normal ticket.
Proof.
  unfold Jira.getTicket. rewrite outcome_try_catch.
  match goal with |- context [outcome ?b] => destruct (outcome b) as [t|e] end;
    eexists; reflexivity.
Qed.

(** The trace of [JiraClient.getTicket] starts with its request and holds
    no other request. *)
Lemma getTicket_fetches network base64 this id :
  filter isFetch (trace (Jira.getTicket network base64 this id))
  = [Fetch (lit "GET") (Jira.requestUrl this id)
       (Jira.requestHeaders base64 this) None].
Proof.
  unfold Jira.getTicket, Jira.fetch, try_catch, pure, throw.
  set (url := Jira.requestUrl this id).
  set (headers := Jira.requestHeaders base64 this).
  step_eff.
  destruct (network url headers) as [resp|e]; step_eff; [|reflexivity].
  destruct (Jira.ok resp); step_eff; [|reflexivity].
  destruct (Jira.json resp) as [body|e]; step_eff; [|reflexivity].
  destruct (getProp body (lit "fields")) as [fields|e]; step_eff; [|reflexivity].
  destruct (getProp fields (lit "description")) as [d|e]; step_eff; [|reflexivity].
  destruct (Jira.formatDescription d) as [text|e]; step_eff; [|reflexivity].
  destruct (getProp fields (lit "summary")) as [summary|e]; step_eff; [|reflexivity].
  destruct (getProp fields (lit "parent")) as [parent|e]; step_eff; [|reflexivity].
  destruct (truthy parent); step_eff; [|reflexivity].
  destruct (getProp parent (lit "key")) as [key|e]; step_eff; reflexivity.
Qed.

(** The method on an argument of any type: one that has a string form is
    sent for, one that has none makes the method throw before its [try]. *)
Lemma clientGetTicket_converted network base64 this (ticketIdentifier : value) id :
  toString ticketIdentifier = Normal id ->
  (exists ticket,
      outcome (Routes.clientGetTicket network base64 this ticketIdentifier)
      = Normal ticket) /\
  filter isFetch
    (trace (Routes.clientGetTicket network base64 this ticketIdentifier))
  = [Fetch (lit "GET") (Jira.requestUrl this id)
       (Jira.requestHeaders base64 this) None].
Proof.
  intros Hid.
  assert (Hs : forall s, ticketIdentifier = VString s ->
                         s = id).
  { intros s ->. simpl in Hid. congruence. }
  pose proof (getTicket_returns network base64 this id) as [ticket Ht].
  pose proof (getTicket_fetches network base64 this id) as Hf.
  destruct ticketIdentifier;
    try (rewrite (Hs _ eq_refl); split; [eauto | exact Hf]);
    unfold Routes.clientGetTicket, pure; rewrite Hid;
    (split;
     [eexists; rewrite outcome_bind; cbn [outcome]; rewrite outcome_bind, Ht;
      reflexivity
     |cbn [bind eff_monad outcome trace app]; rewrite Ht;
      cbn [outcome trace ret eff_monad]; rewrite app_nil_r; exact Hf]).
Qed.

Lemma clientGetTicket_unconvertible network base64 this (ticketIdentifier : value) e :
  toString ticketIdentifier = Abrupt e ->
  Routes.clientGetTicket network base64 this ticketIdentifier = Eff [] (Abrupt e).
Proof.
  intros He.
  destruct ticketIdentifier; try discriminate He;
    unfold Routes.clientGetTicket, pure; rewrite He; reflexivity.
Qed.

(** X1.  [JiraClient.getTicket] builds the address from the string form of
    its argument, before its [try].  For an argument that has a string
    form it never throws and sends exactly one request, to that address,
    whatever the network does: a rejected request, a status that is not
    ok, a body that is not JSON or has no [fields] all end in a normal
    return.  For an argument that has none (an object whose [toString] is
    no function) the conversion error leaves the method and no request is
    sent. *)
Theorem getTicket_never_raises_one_request network base64 this
    (ticketIdentifier : value) :
  let run := Routes.clientGetTicket network base64 this ticketIdentifier in
  (forall id,
      toString ticketIdentifier = Normal id ->
      (exists ticket, outcome run = Normal ticket) /\
      filter isFetch (trace run)
      = [Fetch (lit "GET") (Jira.requestUrl this id)
           (Jira.requestHeaders base64 this) None]) /\
  (forall e, toString ticketIdentifier = Abrupt e -> run = Eff [] (Abrupt e)) /\
  (forall id,
      ticketIdentifier = VString id ->
      run = Jira.getTicket network base64 this id).
Proof.
  intros run. subst run. split; [|split].
  - intros id. apply clientGetTicket_converted.
  - intros e. apply clientGetTicket_unconvertible.
  - intros id ->. reflexivity.
Qed.

(** What a returned ticket tells about the response. *)
Lemma getTicket_inversion network base64 this id ticket :
  outcome (Jira.getTicket network base64 this id) = Normal (Some ticket) ->
  exists resp body fields d summary parent,
    network (Jira.requestUrl this id) (Jira.requestHeaders base64 this)
    = Normal resp /\
    Jira.ok resp = true /\
    Jira.json resp = Normal body /\
    getProp body (lit "fields") = Normal fields /\
    getProp fields (lit "description") = Normal d /\
    getProp fields (lit "summary") = Normal summary /\
    getProp fields (lit "parent") = Normal parent /\
    Jira.formatDescription d = Normal (Jira.description ticket) /\
    ticket = Jira.mkJiraTicket (VString id) (Jira.description ticket)
               (Jira.description ticket) summary (Jira.parents ticket) /\
    Jira.parents ticket
    = match getProp parent (lit "key") with
      | Normal key =>
          if truthy parent then Some [Jira.parentPlaceholder key] else None
      | Abrupt _ => None
      end.
Proof.
  unfold Jira.getTicket, Jira.fetch, try_catch, pure, throw.
  set (url := Jira.requestUrl this id).
  set (headers := Jira.requestHeaders base64 this).
  step_eff.
  destruct (network url headers) as [resp|e]; step_eff; [|discriminate].
  destruct (Jira.ok resp) eqn:Hok; step_eff; [|discriminate].
  destruct (Jira.json resp) as [body|e] eqn:Hjson; step_eff; [|discriminate].
  destruct (getProp body (lit "fields")) as [fields|e] eqn:Hf; step_eff;
    [|discriminate].
  destruct (getProp fields (lit "description")) as [d|e] eqn:Hd; step_eff;
    [|discriminate].
  destruct (Jira.formatDescription d) as [text|e] eqn:Ht; step_eff;
    [|discriminate].
  destruct (getProp fields (lit "summary")) as [summary|e] eqn:Hs; step_eff;
    [|discriminate].
  destruct (getProp fields (lit "parent")) as [parent|e] eqn:Hp; step_eff;
    [|discriminate].
  destruct (truthy parent) eqn:Htr; step_eff.
  - destruct (getProp parent (lit "key")) as [key|e] eqn:Hk; step_eff;
      [|discriminate].
    intros H. injection H as <-.
    exists resp, body, fields, d, summary, parent. cbn [Jira.description Jira.parents].
    rewrite Hk, Htr. repeat split; assumption.
  - intros H. injection H as <-.
    exists resp, body, fields, d, summary, parent. cbn [Jira.description Jira.parents].
    rewrite Htr. destruct (getProp parent (lit "key")); repeat split; assumption.
Qed.

(** X2.  A ticket that [JiraClient.getTicket] returns carries the
    identifier that was asked for (not the key the tracker sent), the same
    text as [description] and as [markdownDescription], namely the
    flattening of the response's description, and the response's summary
    as title; and a ticket is returned only when the response was ok. *)
Theorem getTicket_returned_ticket network base64 this id ticket :
  outcome (Jira.getTicket network base64 this id) = Normal (Some ticket) ->
  Jira.ticketId ticket = VString id /\
  Jira.markdownDescription ticket = Jira.description ticket /\
  exists resp body fields d,
    network (Jira.requestUrl this id) (Jira.requestHeaders base64 this)
    = Normal resp /\
    Jira.ok resp = true /\
    Jira.json resp = Normal body /\
    getProp body (lit "fields") = Normal fields /\
    getProp fields (lit "description") = Normal d /\
    Jira.formatDescription d = Normal (Jira.description ticket) /\
    getProp fields (lit "summary") = Normal (Jira.title ticket).
Proof.
  intros H. apply getTicket_inversion in H.
  destruct H as (resp & body & fields & d & summary & parent
                 & Hn & Hok & Hj & Hf & Hd & Hs & _ & Ht & Heq & _).
  rewrite Heq. cbn [Jira.ticketId Jira.markdownDescription Jira.description
                    Jira.title].
  repeat split. exists resp, body, fields, d. repeat split; assumption.
Qed.

(** X3.  [jiraClientFrom] gives a client exactly when the three variables
    are set to non-empty strings (an empty string counts as missing); the
    client then addresses [https://<domain>/rest/api/3] and nothing is
    logged.  The function never throws. *)
Theorem jiraClientFrom_client env :
  (forall domain email token,
      env (lit "JIRA_DOMAIN") = Some domain ->
      env (lit "JIRA_EMAIL") = Some email ->
      env (lit "JIRA_API_TOKEN") = Some token ->
      domain <> [] -> email <> [] -> token <> [] ->
      Jira.jiraClientFrom env
      = Eff [] (Normal (Some (Jira.mkJiraClient
                                (lit "https://" ++ domain ++ lit "/rest/api/3")
                                email token)))) /\
  (forall client,
      outcome (Jira.jiraClientFrom env) = Normal (Some client) ->
      exists domain email token,
        env (lit "JIRA_DOMAIN") = Some domain /\
        env (lit "JIRA_EMAIL") = Some email /\
        env (lit "JIRA_API_TOKEN") = Some token /\
        domain <> [] /\ email <> [] /\ token <> []) /\
  (exists client, outcome (Jira.jiraClientFrom env) = Normal client).
Proof.
  unfold Jira.jiraClientFrom. repeat split.
  - intros d e t Hd He Ht Hdn Hen Htn. rewrite Hd, He, Ht.
    destruct d; [congruence|]. destruct e; [congruence|].
    destruct t; [congruence|]. reflexivity.
  - intros client.
    destruct (env (lit "JIRA_DOMAIN")) as [[|c d]|];
      destruct (env (lit "JIRA_EMAIL")) as [[|c' e]|];
      destruct (env (lit "JIRA_API_TOKEN")) as [[|c'' t]|];
      cbn; try discriminate.
    intros _. do 3 eexists. repeat split; discriminate.
  - destruct (env (lit "JIRA_DOMAIN")) as [[|c d]|];
      destruct (env (lit "JIRA_EMAIL")) as [[|c' e]|];
      destruct (env (lit "JIRA_API_TOKEN")) as [[|c'' t]|];
      cbn; eexists; reflexivity.
Qed.

(** The three ways the route's [getTicket] ends on a [ticketId] of any
    type. *)
Lemma getTicket_value_cases env network base64 (ticketId : value) :
  let unset :=
    Jira.unset (env (lit "JIRA_DOMAIN")) || Jira.unset (env (lit "JIRA_EMAIL"))
    || Jira.unset (env (lit "JIRA_API_TOKEN")) in
  (unset = true ->
   Routes.getTicket env network base64 ticketId
   = Eff [ConsoleError Jira.missingConfiguration None;
          ConsoleError (lit "Error fetching Jira ticket:")
            (Some (JsError Jira.missingConfiguration))]
       (Abrupt (JsError Jira.missingConfiguration))) /\
  (unset = false ->
   forall id, toString ticketId = Normal id ->
   exists ticket,
     outcome (Routes.getTicket env network base64 ticketId) = Normal ticket) /\
  (unset = false ->
   forall e, toString ticketId = Abrupt e ->
   Routes.getTicket env network base64 ticketId
   = Eff [ConsoleError (lit "Error fetching Jira ticket:") (Some e)] (Abrupt e)).
Proof.
  intros unset. subst unset. unfold Routes.getTicket.
  split; [|split]; intros Hun.
  - rewrite (jiraClientFrom_unset env Hun). reflexivity.
  - intros id Hid. unfold Jira.jiraClientFrom. rewrite Hun.
    destruct (env (lit "JIRA_DOMAIN")) as [d|];
      destruct (env (lit "JIRA_EMAIL")) as [em|];
      destruct (env (lit "JIRA_API_TOKEN")) as [t|];
      try (cbn in Hun; rewrite ?orb_true_r in Hun; discriminate).
    rewrite outcome_try_catch, outcome_bind. cbn [outcome ret eff_monad].
    destruct (clientGetTicket_converted network base64
                (Jira.newJiraClient d em t) ticketId Hid) as [[ticket Ht] _].
    rewrite Ht. eauto.
  - intros e He. unfold Jira.jiraClientFrom. rewrite Hun.
    destruct (env (lit "JIRA_DOMAIN")) as [d|];
      destruct (env (lit "JIRA_EMAIL")) as [em|];
      destruct (env (lit "JIRA_API_TOKEN")) as [t|];
      try (cbn in Hun; rewrite ?orb_true_r in Hun; discriminate).
    unfold try_catch. cbn [bind eff_monad outcome trace ret app].
    rewrite (clientGetTicket_unconvertible network base64
               (Jira.newJiraClient d em t) ticketId He).
    reflexivity.
Qed.

(** X4.  The route's [getTicket] raises two errors only, and both before
    any request is sent: the configuration error [Missing Jira
    configuration...] when a variable is missing or empty, and, with a
    complete configuration, the conversion error of a [ticketId] that has
    no string form.  With a complete configuration and a [ticketId] that
    has a string form every failure of the tracker is a normal return. *)
Theorem routeGetTicket_only_configuration_error env network base64
    (ticketId : value) e :
  outcome (Routes.getTicket env network base64 ticketId) = Abrupt e ->
  let unset :=
    Jira.unset (env (lit "JIRA_DOMAIN")) || Jira.unset (env (lit "JIRA_EMAIL"))
    || Jira.unset (env (lit "JIRA_API_TOKEN")) in
  filter isFetch (trace (Routes.getTicket env network base64 ticketId)) = [] /\
  ((unset = true /\ e = JsError Jira.missingConfiguration) \/
   (unset = false /\ toString ticketId = Abrupt e)).
Proof.
  destruct (getTicket_value_cases env network base64 ticketId)
    as [Hmiss [Hok Hbad]].
  cbv zeta in *.
  destruct (Jira.unset (env (lit "JIRA_DOMAIN"))
            || Jira.unset (env (lit "JIRA_EMAIL"))
            || Jira.unset (env (lit "JIRA_API_TOKEN"))) eqn:Hun.
  - rewrite (Hmiss eq_refl). cbn [outcome trace filter isFetch].
    intros H. injection H as <-. split; [reflexivity|]. left. split; reflexivity.
  - destruct (toString ticketId) as [id|e'] eqn:Hid.
    + destruct (Hok eq_refl id eq_refl) as [ticket Ht]. rewrite Ht. discriminate.
    + rewrite (Hbad eq_refl e' eq_refl). cbn [outcome trace filter isFetch].
      intros H. injection H as <-. split; [reflexivity|]. right.
      split; reflexivity.
Qed.

(** ** The walker on arbitrary JSON *)

(** X5.  The walker reads the members [type], [text] and [content] of a
    node and no other: two objects that agree on these three (whatever
    their marks, attributes or order of members) flatten alike. *)
Theorem extractTextFromADF_reads_three_members
    (props props' : list (jsstring * value)) :
  lookup (lit "type") props = lookup (lit "type") props' ->
  lookup (lit "text") props = lookup (lit "text") props' ->
  lookup (lit "content") props = lookup (lit "content") props' ->
  Jira.extractTextFromADF (VObject props) = Jira.extractTextFromADF (VObject props').
Proof.
  intros Hty Htx Hc. rewrite !extractTextFromADF_unfold.
  unfold Jira.walkBody, getProp. rewrite Hty, Htx, Hc. reflexivity.
Qed.

(** The loop of the walker on children that all flatten. *)
Lemma forOf_results (items : list value) (rs : list jsstring) :
  Forall2 (fun c r => Jira.extractTextFromADF c = Normal r) items rs ->
  forall acc,
    forOf items
      (fun child text => t <- Jira.extractTextFromADF child ;; ret (text ++ t))
      acc
    = Normal (acc ++ concat rs).
Proof.
  induction 1 as [|c r items rs Hc _ IH]; intros acc; simpl.
  - now rewrite app_nil_r.
  - rewrite Hc. simpl. rewrite IH, app_assoc. reflexivity.
Qed.

(** X6.  A node whose [type] is none of [text], [paragraph],
    [bulletList], [listItem] (a heading, an ordered list, a node without
    type) adds nothing of its own: its flattening is the concatenation of
    the flattenings of its children, with no line break. *)
Theorem extractTextFromADF_plain_node
    (props : list (jsstring * value)) (items : list value) (rs : list jsstring) :
  Aux.plainType (Aux.memberOf props (lit "type")) = true ->
  lookup (lit "content") props = Some (VArray items) ->
  Forall2 (fun c r => Jira.extractTextFromADF c = Normal r) items rs ->
  Jira.extractTextFromADF (VObject props) = Normal (concat rs).
Proof.
  intros Hplain Hc Hrs. rewrite extractTextFromADF_unfold.
  unfold Jira.walkBody, getProp. rewrite Hc.
  unfold Aux.plainType, Aux.memberOf in Hplain.
  apply negb_true_iff in Hplain.
  apply orb_false_iff in Hplain. destruct Hplain as [Hplain Hli].
  apply orb_false_iff in Hplain. destruct Hplain as [Hplain Hbl].
  apply orb_false_iff in Hplain. destruct Hplain as [Htx Hpa].
  destruct (lookup (lit "type") props) as [type|];
    cbn [bind completion_monad ret truthy iterate];
    rewrite Htx, Hpa, Hbl, Hli; cbn [bind completion_monad ret orb];
    rewrite (forOf_results Hrs); reflexivity.
Qed.

(** A child on which the body throws makes the loop throw. *)
Lemma forOf_abrupt {A : Type} (body : value -> A -> completion A)
    (x : value) (xs : list value) :
  In x xs -> (forall acc, exists e, body x acc = Abrupt e) ->
  forall acc, exists e, forOf xs body acc = Abrupt e.
Proof.
  induction xs as [|y xs IH]; intros Hin Hx acc; [contradiction|].
  simpl. destruct (body y acc) as [acc'|e] eqn:Hy; [|eauto].
  destruct Hin as [->|Hin]; [|now apply IH].
  destruct (Hx acc) as [e He]. congruence.
Qed.

(** X7.  A failure below fails the whole walk: when the walker throws on
    one element of a node's [content], it throws on the node; so a [null]
    among the children of any node makes the flattening throw. *)
Theorem extractTextFromADF_failure_propagates
    (props : list (jsstring * value)) (items : list value) :
  lookup (lit "content") props = Some (VArray items) ->
  (forall child e,
      In child items -> Jira.extractTextFromADF child = Abrupt e ->
      exists e', Jira.extractTextFromADF (VObject props) = Abrupt e') /\
  (In VNull items ->
   exists e', Jira.extractTextFromADF (VObject props) = Abrupt e').
Proof.
  intros Hc.
  assert (H : forall child e,
             In child items -> Jira.extractTextFromADF child = Abrupt e ->
             exists e', Jira.extractTextFromADF (VObject props) = Abrupt e').
  { intros child e Hin Hchild. rewrite extractTextFromADF_unfold.
    unfold Jira.walkBody, getProp. rewrite Hc.
    destruct (lookup (lit "type") props) as [type|];
      cbn [bind completion_monad ret truthy iterate].
    all: match goal with
         | |- context [match ?head with Normal _ => _ | Abrupt _ => _ end] =>
             destruct head as [text|e0]; [|eauto]
         end.
    all: match goal with
         | |- context [forOf ?xs ?body ?start] =>
             let Hloop := fresh "Hloop" in
             assert (Hloop : forall acc, exists e, body child acc = Abrupt e)
               by (intros a; cbv beta; rewrite Hchild; eauto);
             destruct (forOf_abrupt body child xs Hin Hloop start) as [e' He'];
             rewrite He'; eauto
         end. }
  split; [exact H|].
  intros Hnull. apply (H VNull (cannotRead (lit "null") (lit "type")) Hnull).
  reflexivity.
Qed.

(** The flattening of a child is a piece of the flattening of the
    children. *)
Lemma concat_piece {A : Type} (x : list A) (xs : list (list A)) :
  In x xs -> exists a b, concat xs = a ++ x ++ b.
Proof.
  induction xs as [|y xs IH]; [contradiction|].
  intros [->|Hin]; simpl.
  - exists [], (concat xs). reflexivity.
  - destruct (IH Hin) as [a [b Hab]]. exists (y ++ a), b.
    rewrite Hab, <- app_assoc. reflexivity.
Qed.

Lemma runs_in_flatten (t : Jira.adf) :
  forall s, In s (Aux.runs t) -> exists a b, Jira.flatten t = a ++ s ++ b.
Proof.
  induction t as [cs IH|text|cs IH|cs IH|cs IH] using adf_nested_ind;
    intros s Hs; simpl in Hs.
  2: { destruct Hs as [<-|[]]. exists [], []. simpl. now rewrite app_nil_r. }
  all: apply in_flat_map in Hs; destruct Hs as [c [Hc Hs]];
    rewrite Forall_forall in IH; destruct (IH c Hc s Hs) as [a [b Hab]];
    destruct (@concat_piece _ (Jira.flatten c) (map Jira.flatten cs)
                (in_map Jira.flatten cs c Hc)) as [a' [b' Hab']];
    simpl; rewrite Hab', Hab.
  - exists (a' ++ a), (b ++ b'). now rewrite <- !app_assoc.
  - exists (LF :: a' ++ a), (b ++ b' ++ [LF]). simpl. now rewrite <- !app_assoc.
  - exists (LF :: a' ++ a), (b ++ b'). simpl. now rewrite <- !app_assoc.
  - exists (Jira.listItemPrefix ++ a' ++ a), (b ++ b' ++ [LF]).
    now rewrite <- !app_assoc.
Qed.

(** X8.  No text is lost or altered: every text run of a description tree
    stands in the flattened text, verbatim and in one piece. *)
Theorem extractTextFromADF_keeps_text_runs (t : Jira.adf) (s : jsstring) :
  In s (Aux.runs t) ->
  exists out before after,
    Jira.extractTextFromADF (Jira.toJSON t) = Normal out /\
    out = before ++ s ++ after.
Proof.
  intros Hs. destruct (runs_in_flatten t s Hs) as [a [b Hab]].
  exists (Jira.flatten t), a, b. split; [apply extractTextFromADF_flatten | exact Hab].
Qed.

(** ** The browser-side wrapper of the issue route *)

(** X9.  [getJiraTicket] never throws.  It returns [null] when the request
    is rejected, when the status is not ok (whatever the body says, so a
    configuration error of the route looks like a ticket that does not
    exist), when the body is not JSON and when [data] is missing or falsy;
    it returns [data] itself only from an ok response with a truthy
    [data]. *)
Theorem getJiraTicket_null_or_data api ticketId :
  let request :=
    api (VObject [(lit "action", VString (lit "getTicket"));
                  (lit "ticketId", VString ticketId)]) in
  let result := outcome (Browser.getJiraTicket api ticketId) in
  (exists v, result = Normal v) /\
  (forall e, request = Abrupt e -> result = Normal VNull) /\
  (forall resp, request = Normal resp -> Jira.ok resp = false ->
                result = Normal VNull) /\
  (forall resp e, request = Normal resp -> Jira.json resp = Abrupt e ->
                  result = Normal VNull) /\
  (forall resp body data,
      request = Normal resp -> Jira.ok resp = true ->
      Jira.json resp = Normal body -> getProp body (lit "data") = Normal data ->
      result = Normal (if truthy data then data else VNull)).
Proof.
  intros request result. subst request result.
  unfold Browser.getJiraTicket, Browser.post.
  rewrite outcome_try_catch, outcome_bind. cbn [outcome].
  set (request := api _).
  split; [|split; [|split; [|split]]].
  - destruct request as [resp|e]; [|eexists; reflexivity].
    match goal with |- context [outcome ?b] => destruct (outcome b) as [v|e] end;
      eexists; reflexivity.
  - intros e ->. reflexivity.
  - intros resp -> Hok. rewrite outcome_bind. unfold pure. cbn [outcome].
    destruct (Jira.json resp) as [body|e]; [|reflexivity].
    rewrite Hok. cbn [negb]. rewrite outcome_bind. cbn [outcome].
    destruct (getProp body (lit "error")) as [err|e]; [|reflexivity].
    unfold Llm.newError, pure. rewrite outcome_bind. cbn [outcome].
    destruct (toString _); reflexivity.
  - intros resp e -> Hj. rewrite outcome_bind. unfold pure. cbn [outcome].
    rewrite Hj. reflexivity.
  - intros resp body data -> Hok Hj Hd. rewrite outcome_bind. unfold pure.
    cbn [outcome]. rewrite Hj, Hok. cbn [negb]. rewrite outcome_bind.
    cbn [outcome]. rewrite Hd. unfold Llm.orElse. reflexivity.
Qed.

(** ** The VCS adapter *)

(** X10.  [getBranches] never throws and runs at most one command, [git
    branch] in the project directory; when that command fails the result is
    the empty list and the error is logged. *)
Theorem getBranches_one_command existsSync shell projectPath :
  (exists branches,
      outcome (Git.getBranches existsSync shell projectPath) = Normal branches) /\
  filter Aux.external (trace (Git.getBranches existsSync shell projectPath))
  = (if existsSync projectPath
     then [Exec (lit "git branch") projectPath] else []) /\
  (forall e,
      existsSync projectPath = true ->
      shell (lit "git branch") projectPath = Abrupt e ->
      Git.getBranches existsSync shell projectPath
      = Eff [Exec (lit "git branch") projectPath;
             ConsoleError (lit "Error getting git branches:") (Some e)]
          (Normal [])).
Proof.
  unfold Git.getBranches, Git.execSync.
  destruct (existsSync projectPath); cbn [negb].
  - unfold try_catch. cbn [bind eff_monad outcome trace].
    destruct (shell (lit "git branch") projectPath) as [out|e]; step_eff.
    + repeat split; try (eexists; reflexivity). discriminate.
    + repeat split; try (eexists; reflexivity).
      intros e0 _ H. injection H as <-. reflexivity.
  - repeat split; try (eexists; reflexivity). discriminate.
Qed.

(** X11.  [getCurrentBranch] returns the command's output without white
    space at either end; an output of white space only (a detached HEAD
    prints an empty line) gives the empty string, not [null]; [null] is
    returned only when the path is missing or the command fails. *)
Theorem getCurrentBranch_trimmed existsSync shell projectPath :
  (forall branch,
      outcome (Git.getCurrentBranch existsSync shell projectPath)
      = Normal (Some branch) ->
      Git.leadingWhiteSpace branch = false /\
      Git.trailingWhiteSpace branch = false /\
      exists output,
        shell (lit "git branch --show-current") projectPath = Normal output /\
        branch = trim output) /\
  (forall output,
      existsSync projectPath = true ->
      shell (lit "git branch --show-current") projectPath = Normal output ->
      Forall (fun c => isWhiteSpace c = true) output ->
      outcome (Git.getCurrentBranch existsSync shell projectPath)
      = Normal (Some [])) /\
  (outcome (Git.getCurrentBranch existsSync shell projectPath) = Normal None <->
   existsSync projectPath = false \/
   exists e, shell (lit "git branch --show-current") projectPath = Abrupt e).
Proof.
  unfold Git.getCurrentBranch, Git.execSync.
  destruct (existsSync projectPath); cbn [negb].
  - rewrite outcome_try_catch, outcome_bind. cbn [outcome].
    destruct (shell (lit "git branch --show-current") projectPath) as [out|e];
      step_eff.
    + split; [|split].
      * intros branch H. injection H as <-.
        split; [apply trim_no_leading|]. split; [apply trim_no_trailing|].
        exists out. split; reflexivity.
      * intros output _ H Hws. injection H as <-. do 2 f_equal.
        unfold trim.
        assert (Hs : trimStart out = []).
        { induction Hws as [|c s Hc _ IH]; simpl; [reflexivity|].
          rewrite Hc. exact IH. }
        rewrite Hs. reflexivity.
      * split; [discriminate|]. intros [H|[e H]]; discriminate.
    + split; [|split].
      * discriminate.
      * intros output _ H. discriminate.
      * split; [intros _; right; eauto | reflexivity].
  - split; [|split].
    + discriminate.
    + intros output H. discriminate.
    + split; [intros _; left; reflexivity | reflexivity].
Qed.

Lemma split_line (line rest : jsstring) :
  ~ In LF line -> split LF (line ++ LF :: rest) = line :: split LF rest.
Proof.
  induction line as [|c line IH]; intros Hno; simpl.
  - reflexivity.
  - destruct (N.eqb_spec c LF) as [->|Hc]; [exfalso; apply Hno; now left|].
    rewrite IH by (intros H; apply Hno; now right). reflexivity.
Qed.

Lemma parseBranches_line (line rest : jsstring) :
  ~ In LF line -> trim line <> [] ->
  Git.parseBranches (line ++ LF :: rest)
  = (if startsWith (trim line) Git.currentMarker
     then substring 2 (trim line) else trim line)
    :: Git.parseBranches rest.
Proof.
  intros Hno Hne. unfold Git.parseBranches. rewrite (@split_line line rest Hno).
  cbn [map filter]. destruct (trim line) as [|c t] eqn:Ht; [congruence|].
  reflexivity.
Qed.

Lemma trailingWhiteSpace_app (a b : jsstring) :
  b <> [] -> Git.trailingWhiteSpace (a ++ b) = Git.trailingWhiteSpace b.
Proof.
  intros Hb. unfold Git.trailingWhiteSpace. rewrite rev_app_distr.
  destruct (rev b) as [|c r] eqn:Hr; [|reflexivity].
  apply (f_equal (@rev N)) in Hr. rewrite rev_involutive in Hr. contradiction.
Qed.

Lemma parse_listingLine (current : bool) (name : jsstring) :
  Aux.branchName name ->
  let line := (if current then Git.currentMarker else lit "  ") ++ name in
  ~ In LF line /\ trim line <> [] /\
  (if startsWith (trim line) Git.currentMarker
   then substring 2 (trim line) else trim line) = name.
Proof.
  intros [[Hne [Hl [Ht Hm]]] Hlf] line. subst line.
  assert (Hmarker : forall m : jsstring,
             m = Git.currentMarker \/ m = lit "  " -> ~ In LF (m ++ name)).
  { intros m Hm' Hin. apply in_app_or in Hin. destruct Hin as [Hin|Hin];
      [|contradiction].
    destruct Hm' as [-> | ->]; destruct Hin as [H|[H|[]]]; discriminate H. }
  destruct current.
  - assert (Htrim : trim (Git.currentMarker ++ name) = Git.currentMarker ++ name).
    { apply trim_fixed; [reflexivity|].
      now rewrite trailingWhiteSpace_app. }
    rewrite Htrim.
    split; [apply Hmarker; now left|].
    split; [discriminate|]. unfold Git.currentMarker, lit. simpl.
    destruct name; reflexivity.
  - assert (Htrim : trim (lit "  " ++ name) = name).
    { unfold trim. change (trimStart (lit "  " ++ name)) with (trimStart name).
      rewrite (trimStart_fixed _ Hl). now apply trimEnd_fixed. }
    rewrite Htrim, Hm.
    split; [apply Hmarker; now right|].
    split; [exact Hne | reflexivity].
Qed.

(** X12.  Round trip with git's listing: for branch names without white
    space at the ends, line feed or leading marker, parsing the listing
    that [git branch] prints for them (marker or two spaces, name, line
    feed) gives back the names, in order, whichever of them is
    current. *)
Theorem parseBranches_listing (entries : list (bool * jsstring)) :
  Forall (fun entry => Aux.branchName (snd entry)) entries ->
  Git.parseBranches (Aux.listing entries) = map snd entries.
Proof.
  induction 1 as [|[current name] entries Hname _ IH].
  - reflexivity.
  - unfold Aux.listing. cbn [map concat]. unfold Aux.listingLine at 1.
    cbn [fst snd].
    destruct (@parse_listingLine current name Hname) as [Hlf [Hne Hstrip]].
    rewrite <- !app_assoc. rewrite app_assoc. cbn [app].
    change (concat (map Aux.listingLine entries)) with (Aux.listing entries).
    rewrite (@parseBranches_line _ (Aux.listing entries) Hlf Hne), Hstrip, IH.
    reflexivity.
Qed.

(** The inner [try] of [getDefaultBranch] runs one command and logs
    nothing, also when the command fails. *)
Lemma remoteHeadBranch_trace shell projectPath :
  trace (Git.remoteHeadBranch shell projectPath)
  = [Exec (lit "git remote show origin") projectPath].
Proof.
  unfold Git.remoteHeadBranch, Git.execSync, try_catch.
  cbn [bind eff_monad outcome trace].
  destruct (shell (lit "git remote show origin") projectPath) as [out|e];
    [|reflexivity].
  destruct (exec Git.headBranchPattern out) as [m|]; [|reflexivity].
  destruct (group 1 m) as [[|c s]|]; reflexivity.
Qed.

Lemma trace_bind {A B : Type} (c : eff A) (k : A -> eff B) :
  trace (bind c k)
  = match outcome c with
    | Normal a => trace c ++ trace (k a)
    | Abrupt _ => trace c
    end.
Proof. simpl. destruct (outcome c); reflexivity. Qed.

Lemma trace_try_catch {A : Type} (body : eff A) (handler : exn -> eff A) :
  trace (try_catch body handler)
  = match outcome body with
    | Normal _ => trace body
    | Abrupt e => trace body ++ trace (handler e)
    end.
Proof. unfold try_catch. destruct (outcome body); reflexivity. Qed.

(** X13.  [getDefaultBranch] asks the remote only when it has to: when one
    of [develop], [main], [master] is in the branch list its trace is the
    trace of [getBranches]; otherwise one more command, [git remote show
    origin], follows.  A failure of that command is not logged, and the
    outer handler never runs. *)
Theorem getDefaultBranch_commands existsSync shell projectPath branches :
  existsSync projectPath = true ->
  outcome (Git.getBranches existsSync shell projectPath) = Normal branches ->
  trace (Git.getDefaultBranch existsSync shell projectPath)
  = trace (Git.getBranches existsSync shell projectPath)
    ++ match Git.firstCommonBranch branches with
       | Some _ => []
       | None => [Exec (lit "git remote show origin") projectPath]
       end.
Proof.
  intros Hex Hbr. unfold Git.getDefaultBranch. rewrite Hex. cbn [negb].
  rewrite trace_try_catch, outcome_bind, trace_bind, Hbr.
  destruct (Git.firstCommonBranch branches) as [b|]; [reflexivity|].
  rewrite outcome_bind, trace_bind, remoteHeadBranch_outcome,
    remoteHeadBranch_trace.
  match goal with
  | |- context [match ?o with Some _ => _ | None => _ end] => destruct o
  end; cbn [outcome trace ret eff_monad]; rewrite app_nil_r; reflexivity.
Qed.

(** The inner [try] gives nothing exactly when the command fails or its
    output shows nothing after the label anywhere. *)
Lemma remoteHeadBranch_none shell projectPath :
  outcome (Git.remoteHeadBranch shell projectPath) = Normal None <->
  (exists e, shell (lit "git remote show origin") projectPath = Abrupt e) \/
  (exists remoteOutput,
      shell (lit "git remote show origin") projectPath = Normal remoteOutput /\
      forall before after,
        remoteOutput = before ++ Output.headLabel ++ after ->
        match after with [] => True | c :: _ => isLineTerminator c = true end).
Proof.
  rewrite remoteHeadBranch_outcome.
  destruct (shell (lit "git remote show origin") projectPath) as [out|e].
  - destruct (exec Git.headBranchPattern out) as [m|] eqn:Hm.
    + destruct (headBranchPattern_sound out Hm) as [_ [name [_ [_ [_ [_ Hg]]]]]].
      rewrite Hg. split; [discriminate|].
      intros [[e He]|[out' [Hout Hno]]]; [discriminate|].
      injection Hout as <-. apply headBranchPattern_none in Hno. congruence.
    + split; [|reflexivity]. intros _. right. exists out.
      split; [reflexivity|]. now apply headBranchPattern_none.
  - split; [|reflexivity]. intros _. left. eauto.
Qed.

(** X14.  On an existing path [getDefaultBranch] returns [null] exactly
    when the branch list is empty and the remote gives nothing: its
    command fails, or its output shows nothing after the label [HEAD
    branch: ] anywhere.  The text [(unknown)], which git prints after the
    label for a remote without HEAD, is something: with it the result is
    [(unknown)], also for an empty list.  A name that is returned is a
    branch of the list unless it is what the remote's listing shows. *)
Theorem getDefaultBranch_null existsSync shell projectPath branches :
  existsSync projectPath = true ->
  outcome (Git.getBranches existsSync shell projectPath) = Normal branches ->
  let result := outcome (Git.getDefaultBranch existsSync shell projectPath) in
  let remote := shell (lit "git remote show origin") projectPath in
  (result = Normal None <->
   branches = [] /\
   ((exists e, remote = Abrupt e) \/
    (exists remoteOutput,
        remote = Normal remoteOutput /\
        forall before after,
          remoteOutput = before ++ Output.headLabel ++ after ->
          match after with [] => True | c :: _ => isLineTerminator c = true end))) /\
  (forall before after,
      branches = [] ->
      remote = Normal (before ++ Output.headLabel ++ Output.unknownHead
                       ++ [LF] ++ after) ->
      Output.firstLabel before = true ->
      result = Normal (Some Output.unknownHead)) /\
  (forall branch,
      result = Normal (Some branch) ->
      In branch branches \/
      outcome (Git.remoteHeadBranch shell projectPath) = Normal (Some branch)).
Proof.
  intros Hex Hbr result remote. subst result remote.
  rewrite <- remoteHeadBranch_none.
  rewrite (getDefaultBranch_existing existsSync shell projectPath Hex Hbr).
  split; [|split].
  - destruct (Git.firstCommonBranch branches) as [b|] eqn:Hf.
    + assert (Hin : In b branches).
      { unfold Git.firstCommonBranch in Hf. apply find_some in Hf.
        apply includes_In. apply Hf. }
      split; [discriminate|]. intros [-> _]. contradiction.
    + pose proof (remoteHeadBranch_outcome shell projectPath) as Hro.
      destruct (outcome (Git.remoteHeadBranch shell projectPath)) as [[r|]|e];
        [| |discriminate Hro].
      * split; [discriminate|]. intros [_ H]. discriminate.
      * destruct branches as [|b0 bs]; cbn [hd_error].
        -- split; [intros _; split; reflexivity | reflexivity].
        -- split; [discriminate|]. intros [H _]. discriminate.
  - intros before after -> Hout Hfirst.
    cbn [Git.firstCommonBranch]. rewrite remoteHeadBranch_outcome, Hout.
    destruct (@headBranchPattern_first before Output.unknownHead
                ([LF] ++ after) Hfirst ltac:(discriminate)
                ltac:(repeat constructor) eq_refl) as [m [Hm Hg]].
    rewrite Hm, Hg. reflexivity.
  - intros branch.
    destruct (Git.firstCommonBranch branches) as [b|] eqn:Hf.
    + assert (Hin : In b branches).
      { unfold Git.firstCommonBranch in Hf. apply find_some in Hf.
        apply includes_In. apply Hf. }
      intros H. injection H as <-. now left.
    + pose proof (remoteHeadBranch_outcome shell projectPath) as Hro.
      destruct (outcome (Git.remoteHeadBranch shell projectPath)) as [[r|]|e];
        [| |discriminate Hro].
      * intros H. injection H as <-. now right.
      * intros H. injection H as H. left.
        destruct branches as [|b0 bs]; [discriminate|].
        injection H as <-. now left.
Qed.

(** ** The [POST] handlers *)

Lemma try_catch_returns {A : Type} (body : eff A) (handler : exn -> eff A) :
  (forall e, exists a, outcome (handler e) = Normal a) ->
  exists a, outcome (try_catch body handler) = Normal a.
Proof.
  intros H. rewrite outcome_try_catch.
  destruct (outcome body) as [a|e]; [eauto | apply H].
Qed.

Ltac returns_by_catch :=
  apply try_catch_returns; intros ?; eexists; reflexivity.

Lemma getBranches_returns existsSync shell projectPath :
  exists r, outcome (Git.getBranches existsSync shell projectPath) = Normal r.
Proof.
  unfold Git.getBranches. destruct (existsSync projectPath); cbn [negb];
    [returns_by_catch | eexists; reflexivity].
Qed.

Lemma getCurrentBranch_returns existsSync shell projectPath :
  exists r, outcome (Git.getCurrentBranch existsSync shell projectPath) = Normal r.
Proof.
  unfold Git.getCurrentBranch. destruct (existsSync projectPath); cbn [negb];
    [returns_by_catch | eexists; reflexivity].
Qed.

Lemma getDefaultBranch_returns existsSync shell projectPath :
  exists r, outcome (Git.getDefaultBranch existsSync shell projectPath) = Normal r.
Proof.
  unfold Git.getDefaultBranch. destruct (existsSync projectPath); cbn [negb];
    [returns_by_catch | eexists; reflexivity].
Qed.

Lemma onPath_returns {A : Type} fileURLToPath (projectPath : value)
    (sentinel : A) (f : jsstring -> eff A) :
  (forall path, exists r, outcome (f path) = Normal r) ->
  exists r,
    outcome (Routes.onPath fileURLToPath projectPath sentinel f) = Normal r.
Proof.
  intros H. unfold Routes.onPath.
  destruct (Routes.pathOf fileURLToPath projectPath);
    [apply H | eexists; reflexivity].
Qed.

Lemma routeGetDiff_returns existsSync shell fileURLToPath projectPath
    fromBranch toBranch excludePatterns :
  exists r,
    outcome (Routes.getDiff existsSync shell fileURLToPath projectPath
               fromBranch toBranch excludePatterns) = Normal r.
Proof.
  unfold Routes.getDiff. apply onPath_returns. intros path.
  destruct (existsSync path); cbn [negb];
    [returns_by_catch | eexists; reflexivity].
Qed.

(** On a string the route's [getProjectName] is the adapter's. *)
Lemma routeGetProjectName_string existsSync basename fileURLToPath invalidArgType
    path :
  Routes.getProjectName existsSync basename fileURLToPath invalidArgType
    (VString path)
  = Git.getProjectName existsSync basename path.
Proof.
  unfold Routes.getProjectName, Git.getProjectName, Routes.onPath, Routes.pathOf.
  destruct (existsSync path); reflexivity.
Qed.

(** The strings of an array of strings. *)
Lemma excludeEach_strings (patterns : list jsstring) :
  Routes.excludeEach (map VString patterns)
  = Normal (map (fun pattern => lit "':(exclude)" ++ pattern ++ lit "'") patterns).
Proof.
  induction patterns as [|p ps IH]; [reflexivity|].
  cbn [map Routes.excludeEach toString bind completion_monad]. rewrite IH.
  reflexivity.
Qed.

(** X15.  [getDiff] on the arguments of a request: with strings for the
    branches and an array of strings (or nothing) for the patterns it is
    [getDiff] of the adapter; with patterns that are neither [undefined]
    nor an array (a single string, [null], an object) it runs no command:
    it logs the type error of the call of [map] under the label [Error
    getting git diff:] and returns [null]. *)
Theorem routeGetDiff_arguments existsSync shell fileURLToPath path
    fromBranch toBranch :
  (forall patterns,
      Routes.getDiff existsSync shell fileURLToPath (VString path)
        (VString fromBranch) (VString toBranch) (VArray (map VString patterns))
      = Git.getDiff existsSync shell path fromBranch toBranch (Some patterns)) /\
  Routes.getDiff existsSync shell fileURLToPath (VString path)
    (VString fromBranch) (VString toBranch) VUndefined
  = Git.getDiff existsSync shell path fromBranch toBranch None /\
  (forall excludePatterns from to,
      existsSync path = true ->
      match excludePatterns with
      | VUndefined | VArray _ => False
      | _ => True
      end ->
      Routes.getDiff existsSync shell fileURLToPath (VString path) from to
        excludePatterns
      = Eff [ConsoleError (lit "Error getting git diff:")
               (Some (match excludePatterns with
                      | VNull => cannotRead (lit "null") (lit "map")
                      | _ => Routes.notFunction (lit "excludePatterns.map")
                      end))]
          (Normal None)).
Proof.
  split; [|split].
  - intros patterns.
    unfold Routes.getDiff, Git.getDiff, Routes.onPath, Routes.pathOf.
    destruct (existsSync path); [|reflexivity]. cbn [negb].
    unfold Routes.excludeArgsOf. rewrite excludeEach_strings.
    unfold Git.execSync, try_catch, pure.
    cbn [bind eff_monad completion_monad outcome trace ret toString app].
    destruct (shell _ path); reflexivity.
  - unfold Routes.getDiff, Git.getDiff, Routes.onPath, Routes.pathOf.
    destruct (existsSync path); [|reflexivity]. cbn [negb].
    unfold Routes.excludeArgsOf. rewrite excludeEach_strings.
    unfold Git.execSync, try_catch, pure.
    cbn [bind eff_monad completion_monad outcome trace ret toString app].
    destruct (shell _ path); reflexivity.
  - intros excludePatterns from to Hex Hbad.
    unfold Routes.getDiff, Routes.onPath, Routes.pathOf. rewrite Hex.
    cbn [negb].
    destruct excludePatterns; try contradiction; reflexivity.
Qed.

Lemma destructurable_members (first source : jsstring) (v : value) :
  Aux.hasMembers v = true -> Routes.destructurable first source v = Normal tt.
Proof. destruct v; try reflexivity; discriminate. Qed.

Lemma destructurable_nullish (first source : jsstring) (v : value) :
  Aux.hasMembers v = false ->
  exists m, Routes.destructurable first source v = Abrupt (JsError m).
Proof. destruct v; try discriminate; intros _; eexists; reflexivity. Qed.

Lemma trace_after_body (request : Routes.parsed) (first source : jsstring)
    (k : value -> eff Routes.reply) (handler : exn -> eff Routes.reply) :
  trace
    (try_catch
       (body <- Routes.requestJson request ;;
        pure (Routes.destructurable first source body) ;;; k body)
       handler)
  = match request with
    | Routes.Parsed body =>
        match Routes.destructurable first source body with
        | Normal _ =>
            match outcome (k body) with
            | Normal r => trace (k body)
            | Abrupt e => trace (k body) ++ trace (handler e)
            end
        | Abrupt e => trace (handler e)
        end
    | Routes.Rejected m => trace (handler (JsError m))
    end.
Proof.
  rewrite trace_try_catch, outcome_bind, trace_bind.
  destruct request as [body|m];
    cbn [Routes.requestJson outcome trace ret eff_monad throw app];
    [|reflexivity].
  rewrite outcome_bind, trace_bind. unfold pure. cbn [outcome trace app].
  destruct (Routes.destructurable first source body); reflexivity.
Qed.

Lemma isString_eq (v : value) (s : jsstring) :
  isString v s = true -> v = VString s.
Proof.
  destruct v; try discriminate. simpl. intros H.
  destruct (str_eqb_spec s0 s); [congruence | discriminate].
Qed.

(** The outcome of the VCS route on a body with members: the answer to the
    result of the operation the action names. *)
Lemma gitPOST_outcome existsSync shell basename fileURLToPath invalidArgType body :
  Aux.hasMembers body = true ->
  let action := Routes.member body (lit "action") in
  let projectPath := Routes.member body (lit "projectPath") in
  outcome (Routes.gitPOST existsSync shell basename fileURLToPath invalidArgType
             (Routes.Parsed body))
  = Normal
      (if isString action (lit "getBranches")
       then Aux.answerOf Routes.ofBranches
              (outcome (Routes.onPath fileURLToPath projectPath []
                          (Git.getBranches existsSync shell)))
       else if isString action (lit "getCurrentBranch")
       then Aux.answerOf Routes.ofNullable
              (outcome (Routes.onPath fileURLToPath projectPath None
                          (Git.getCurrentBranch existsSync shell)))
       else if isString action (lit "getDefaultBranch")
       then Aux.answerOf Routes.ofNullable
              (outcome (Routes.onPath fileURLToPath projectPath None
                          (Git.getDefaultBranch existsSync shell)))
       else if isString action (lit "getDiff")
       then Aux.answerOf Routes.ofNullable
              (outcome (Routes.getDiff existsSync shell fileURLToPath projectPath
                          (Routes.member body (lit "fromBranch"))
                          (Routes.member body (lit "toBranch"))
                          (Routes.member body (lit "excludePatterns"))))
       else if isString action (lit "getProjectName")
       then Aux.answerOf Routes.ofNullable
              (outcome (Routes.getProjectName existsSync basename fileURLToPath
                          invalidArgType projectPath))
       else Routes.invalidAction).
Proof.
  intros Hm action projectPath. unfold Routes.gitPOST.
  rewrite outcome_after_body, (destructurable_members _ _ _ Hm).
  fold action projectPath.
  repeat match goal with
    | |- context [if isString action ?s then _ else _] =>
        destruct (isString action s);
        [rewrite outcome_bind;
         match goal with
         | |- context [outcome ?c] => destruct (outcome c); reflexivity
         end|]
    end.
  reflexivity.
Qed.

(** On a path that is missing an operation is its sentinel, without an
    event. *)
Lemma onPath_missing {A : Type} existsSync fileURLToPath (projectPath : value)
    (sentinel : A) (f : jsstring -> eff A) :
  match Routes.pathOf fileURLToPath projectPath with
  | Some path => existsSync path = false
  | None => True
  end ->
  (forall path, existsSync path = false -> f path = Eff [] (Normal sentinel)) ->
  Routes.onPath fileURLToPath projectPath sentinel f = Eff [] (Normal sentinel).
Proof.
  intros Hmiss Hf. unfold Routes.onPath.
  destruct (Routes.pathOf fileURLToPath projectPath); [now apply Hf | reflexivity].
Qed.

Lemma gitPOST_missing existsSync shell basename fileURLToPath invalidArgType body :
  Aux.hasMembers body = true ->
  Aux.gitAction (Routes.member body (lit "action")) = true ->
  match Routes.pathOf fileURLToPath (Routes.member body (lit "projectPath")) with
  | Some path => existsSync path = false
  | None => True
  end ->
  Routes.gitPOST existsSync shell basename fileURLToPath invalidArgType
    (Routes.Parsed body)
  = Eff [] (Normal (Routes.Reply 200
                      (Routes.Data
                         (Aux.sentinelOf (Routes.member body (lit "action")))))).
Proof.
  intros Hm Ha Hmiss.
  assert (Hb : Routes.onPath fileURLToPath
                 (Routes.member body (lit "projectPath")) []
                 (Git.getBranches existsSync shell) = Eff [] (Normal [])).
  { apply (@onPath_missing _ existsSync); [exact Hmiss|].
    intros path H. unfold Git.getBranches. rewrite H. reflexivity. }
  assert (Hc : Routes.onPath fileURLToPath
                 (Routes.member body (lit "projectPath")) None
                 (Git.getCurrentBranch existsSync shell) = Eff [] (Normal None)).
  { apply (@onPath_missing _ existsSync); [exact Hmiss|].
    intros path H. unfold Git.getCurrentBranch. rewrite H. reflexivity. }
  assert (Hd : Routes.onPath fileURLToPath
                 (Routes.member body (lit "projectPath")) None
                 (Git.getDefaultBranch existsSync shell) = Eff [] (Normal None)).
  { apply (@onPath_missing _ existsSync); [exact Hmiss|].
    intros path H. unfold Git.getDefaultBranch. rewrite H. reflexivity. }
  assert (Hdiff : Routes.getDiff existsSync shell fileURLToPath
                    (Routes.member body (lit "projectPath"))
                    (Routes.member body (lit "fromBranch"))
                    (Routes.member body (lit "toBranch"))
                    (Routes.member body (lit "excludePatterns"))
                  = Eff [] (Normal None)).
  { unfold Routes.getDiff. apply (@onPath_missing _ existsSync); [exact Hmiss|].
    intros path H. rewrite H. reflexivity. }
  assert (Hn : Routes.getProjectName existsSync basename fileURLToPath
                 invalidArgType (Routes.member body (lit "projectPath"))
               = Eff [] (Normal None)).
  { unfold Routes.getProjectName.
    apply (@onPath_missing _ existsSync); [exact Hmiss|].
    intros path H. rewrite H. reflexivity. }
  unfold Routes.gitPOST, Routes.requestJson, try_catch, pure.
  cbn [bind eff_monad outcome trace ret app].
  rewrite (destructurable_members _ _ _ Hm).
  cbn [bind eff_monad outcome trace ret app].
  rewrite Hb, Hc, Hd, Hdiff, Hn.
  unfold Aux.gitAction in Ha. unfold Aux.sentinelOf.
  set (action := Routes.member body (lit "action")) in *.
  cbn [bind eff_monad outcome trace ret app].
  destruct (isString action (lit "getBranches")); [reflexivity|].
  destruct (isString action (lit "getCurrentBranch")); [reflexivity|].
  destruct (isString action (lit "getDefaultBranch")); [reflexivity|].
  destruct (isString action (lit "getDiff")); [reflexivity|].
  destruct (isString action (lit "getProjectName")); [reflexivity|].
  discriminate Ha.
Qed.

(** In a directory where every command fails the four operations that run
    one end in their sentinels. *)
Lemma failing_commands existsSync shell path :
  existsSync path = true ->
  (forall command, exists e, shell command path = Abrupt e) ->
  outcome (Git.getBranches existsSync shell path) = Normal [] /\
  outcome (Git.getCurrentBranch existsSync shell path) = Normal None /\
  outcome (Git.getDefaultBranch existsSync shell path) = Normal None /\
  (forall fileURLToPath projectPath fromBranch toBranch excludePatterns,
      Routes.pathOf fileURLToPath projectPath = Some path ->
      outcome (Routes.getDiff existsSync shell fileURLToPath projectPath
                 fromBranch toBranch excludePatterns) = Normal None).
Proof.
  intros Hex Hfail.
  assert (Hb : outcome (Git.getBranches existsSync shell path) = Normal []).
  { rewrite (getBranches_existing existsSync shell path Hex).
    destruct (Hfail (lit "git branch")) as [e ->]. reflexivity. }
  split; [exact Hb|]. split; [|split].
  - unfold Git.getCurrentBranch, Git.execSync. rewrite Hex. cbn [negb].
    rewrite outcome_try_catch, outcome_bind. cbn [outcome].
    destruct (Hfail (lit "git branch --show-current")) as [e ->]. reflexivity.
  - rewrite (getDefaultBranch_existing existsSync shell path Hex Hb).
    cbn [Git.firstCommonBranch]. rewrite remoteHeadBranch_outcome.
    destruct (Hfail (lit "git remote show origin")) as [e ->]. reflexivity.
  - intros fileURLToPath projectPath from to patterns Hpath.
    unfold Routes.getDiff, Routes.onPath, Git.execSync.
    rewrite Hpath, Hex. cbn [negb].
    rewrite outcome_try_catch, outcome_bind. unfold pure. cbn [outcome].
    destruct (Routes.excludeArgsOf patterns) as [args|e]; [|reflexivity].
    rewrite outcome_bind. cbn [outcome].
    destruct (toString from) as [f|e]; [|reflexivity].
    rewrite outcome_bind. cbn [outcome].
    destruct (toString to) as [t|e]; [|reflexivity].
    rewrite outcome_bind. cbn [outcome].
    match goal with |- context [shell ?c path] =>
      destruct (Hfail c) as [e ->] end.
    reflexivity.
Qed.

Lemma gitPOST_other existsSync shell basename fileURLToPath invalidArgType body :
  Aux.hasMembers body = true ->
  Aux.gitAction (Routes.member body (lit "action")) = false ->
  Routes.gitPOST existsSync shell basename fileURLToPath invalidArgType
    (Routes.Parsed body)
  = Eff [] (Normal Routes.invalidAction).
Proof.
  intros Hm Ha. unfold Routes.gitPOST, Routes.requestJson, try_catch, pure.
  cbn [bind eff_monad outcome trace ret app].
  rewrite (destructurable_members _ _ _ Hm).
  unfold Aux.gitAction in Ha.
  repeat (apply orb_false_iff in Ha; destruct Ha as [Ha ?]).
  cbn [bind eff_monad outcome trace ret app].
  repeat match goal with H : isString _ _ = false |- _ => rewrite H; clear H end.
  reflexivity.
Qed.

(** X16.  The VCS route answers every request.  For the four operations
    that run a command the status is 200 with [data], whatever the path,
    the branches and the commands do.  A path that is missing is the
    sentinel of the operation inside a 200, and no command is run; so is,
    for those four, a directory in which every command fails.
    [getProjectName] answers 200 with the base name of a string, and 500
    with the message of [basename]'s type error for a path that exists and
    is no string.  Any other action gets status 400 and no command; a body
    that is not JSON, [null] or missing gets status 500 and no command. *)
Theorem gitPOST_statuses existsSync shell basename fileURLToPath invalidArgType
    request :
  let post :=
    Routes.gitPOST existsSync shell basename fileURLToPath invalidArgType in
  (exists r, outcome (post request) = Normal r) /\
  (forall body,
      request = Routes.Parsed body -> Aux.hasMembers body = true ->
      let action := Routes.member body (lit "action") in
      let projectPath := Routes.member body (lit "projectPath") in
      let missing :=
        match Routes.pathOf fileURLToPath projectPath with
        | Some path => existsSync path = false
        | None => True
        end in
      (Aux.commandAction action = true ->
       exists data,
         outcome (post request) = Normal (Routes.Reply 200 (Routes.Data data))) /\
      (Aux.gitAction action = true -> missing ->
       post request
       = Eff [] (Normal (Routes.Reply 200 (Routes.Data (Aux.sentinelOf action))))) /\
      (Aux.commandAction action = true ->
       forall path,
         Routes.pathOf fileURLToPath projectPath = Some path ->
         existsSync path = true ->
         (forall command, exists e, shell command path = Abrupt e) ->
         outcome (post request)
         = Normal (Routes.Reply 200 (Routes.Data (Aux.sentinelOf action)))) /\
      (isString action (lit "getProjectName") = true ->
       forall path,
         Routes.pathOf fileURLToPath projectPath = Some path ->
         existsSync path = true ->
         outcome (post request)
         = Normal (match projectPath with
                   | VString s =>
                       Routes.Reply 200 (Routes.Data (VString (basename s)))
                   | _ =>
                       Routes.Reply 500
                         (Routes.ErrorText
                            (Routes.messageOf (invalidArgType projectPath)))
                   end)) /\
      (Aux.gitAction action = false ->
       post request = Eff [] (Normal Routes.invalidAction))) /\
  ((exists m, request = Routes.Rejected m) \/
   (exists body, request = Routes.Parsed body /\ Aux.hasMembers body = false) ->
   exists m,
     outcome (post request) = Normal (Routes.Reply 500 (Routes.ErrorText m)) /\
     filter Aux.external (trace (post request)) = []).
Proof.
  intros post. subst post. split; [|split].
  - unfold Routes.gitPOST. returns_by_catch.
  - intros body -> Hm action projectPath missing.
    pose proof (gitPOST_outcome existsSync shell basename fileURLToPath
                  invalidArgType body Hm) as Hout.
    cbv zeta in Hout. fold action projectPath in Hout.
    split; [|split; [|split; [|split]]].
    + intros Ha. rewrite Hout. unfold Aux.commandAction in Ha.
      destruct (isString action (lit "getBranches")).
      { destruct (onPath_returns fileURLToPath projectPath []
                    (Git.getBranches existsSync shell)
                    (getBranches_returns existsSync shell)) as [r ->].
        eexists. reflexivity. }
      destruct (isString action (lit "getCurrentBranch")).
      { destruct (onPath_returns fileURLToPath projectPath None
                    (Git.getCurrentBranch existsSync shell)
                    (getCurrentBranch_returns existsSync shell)) as [r ->].
        eexists. reflexivity. }
      destruct (isString action (lit "getDefaultBranch")).
      { destruct (onPath_returns fileURLToPath projectPath None
                    (Git.getDefaultBranch existsSync shell)
                    (getDefaultBranch_returns existsSync shell)) as [r ->].
        eexists. reflexivity. }
      destruct (isString action (lit "getDiff")); [|discriminate Ha].
      destruct (routeGetDiff_returns existsSync shell fileURLToPath projectPath
                  (Routes.member body (lit "fromBranch"))
                  (Routes.member body (lit "toBranch"))
                  (Routes.member body (lit "excludePatterns"))) as [r ->].
      eexists. reflexivity.
    + intros Ha Hmiss. now apply gitPOST_missing.
    + intros Ha path Hpath Hex Hfail. rewrite Hout.
      destruct (failing_commands existsSync shell path Hex Hfail)
        as (Hb & Hc & Hd & Hdiff).
      unfold Routes.onPath.
      rewrite (Hdiff fileURLToPath projectPath _ _ _ Hpath), Hpath, Hb, Hc, Hd.
      unfold Aux.commandAction in Ha. unfold Aux.sentinelOf.
      destruct (isString action (lit "getBranches")); [reflexivity|].
      destruct (isString action (lit "getCurrentBranch")); [reflexivity|].
      destruct (isString action (lit "getDefaultBranch")); [reflexivity|].
      destruct (isString action (lit "getDiff")); [reflexivity|].
      discriminate Ha.
    + intros Ha path Hpath Hex. rewrite Hout.
      apply isString_eq in Ha. rewrite Ha.
      replace (isString (VString (lit "getProjectName")) (lit "getBranches"))
        with false by reflexivity.
      replace (isString (VString (lit "getProjectName"))
                 (lit "getCurrentBranch")) with false by reflexivity.
      replace (isString (VString (lit "getProjectName"))
                 (lit "getDefaultBranch")) with false by reflexivity.
      replace (isString (VString (lit "getProjectName")) (lit "getDiff"))
        with false by reflexivity.
      replace (isString (VString (lit "getProjectName"))
                 (lit "getProjectName")) with true by reflexivity.
      unfold Routes.getProjectName, Routes.onPath. rewrite Hpath, Hex.
      cbn [negb]. destruct projectPath; reflexivity.
    + intros Ha. now apply gitPOST_other.
  - intros [[m ->]|[body [-> Hm]]].
    + exists m. split; reflexivity.
    + destruct (destructurable_nullish (lit "action") (lit "body") body Hm)
        as [m Hd].
      exists m. unfold Routes.gitPOST.
      rewrite outcome_after_body, trace_after_body, Hd. split; reflexivity.
Qed.

Lemma routeValidate_returns provider ticketDescription gitDiff :
  exists text,
    outcome (Routes.validateDiffAgainstTicket provider ticketDescription gitDiff)
    = Normal text.
Proof. unfold Routes.validateDiffAgainstTicket. returns_by_catch. Qed.

(** X17.  The model route answers the action
    [validateDiffAgainstTicket] with status 200 in every case, for
    arguments of any type and for every behaviour of the model: a failure
    of the model travels as [data], the text [Error validating diff: ...],
    not as an error status.  Any other action gets status 400 and no model
    call. *)
Theorem llmPOST_always_200 provider request body :
  request = Routes.Parsed body -> Aux.hasMembers body = true ->
  (isString (Routes.member body (lit "action"))
     (lit "validateDiffAgainstTicket") = true ->
   (exists text,
       outcome (Routes.llmPOST provider request)
       = Normal (Routes.Reply 200 (Routes.Data (VString text)))) /\
   (forall ticketDescription gitDiff,
       Routes.member body (lit "ticketDescription") = VString ticketDescription ->
       Routes.member body (lit "gitDiff") = VString gitDiff ->
       (forall text,
           provider Llm.systemPrompt (Llm.userPrompt ticketDescription gitDiff)
           = Normal text ->
           outcome (Routes.llmPOST provider request)
           = Normal (Routes.Reply 200 (Routes.Data (VString text)))) /\
       (forall e,
           provider Llm.systemPrompt (Llm.userPrompt ticketDescription gitDiff)
           = Abrupt e ->
           outcome (Routes.llmPOST provider request)
           = Normal (Routes.Reply 200
                       (Routes.Data (VString (lit "Error validating diff: "
                                              ++ Llm.describe e))))))) /\
  (isString (Routes.member body (lit "action"))
     (lit "validateDiffAgainstTicket") = false ->
   Routes.llmPOST provider request = Eff [] (Normal Routes.invalidAction)).
Proof.
  intros -> Hm. split; intros Ha.
  - unfold Routes.llmPOST. rewrite outcome_after_body.
    rewrite (destructurable_members _ _ _ Hm), Ha.
    split.
    + destruct (routeValidate_returns provider
                  (Routes.member body (lit "ticketDescription"))
                  (Routes.member body (lit "gitDiff"))) as [text Ht].
      exists text. rewrite outcome_bind, Ht. reflexivity.
    + intros td gd -> ->. rewrite outcome_bind, routeValidate_strings.
      unfold Llm.validateDiffAgainstTicket, Llm.generateText.
      rewrite outcome_try_catch, outcome_bind. cbn [outcome].
      split; intros r ->; reflexivity.
  - unfold Routes.llmPOST, Routes.requestJson, try_catch, pure.
    cbn [bind eff_monad outcome trace ret app].
    rewrite (destructurable_members _ _ _ Hm).
    cbn [bind eff_monad outcome trace ret app]. rewrite Ha. reflexivity.
Qed.

(** X18.  End to end through the model route: the browser-side
    [validateDiffAgainstTicket], answered by the route's [POST], returns
    exactly the text the server-side function returned, so a failure of the
    model reaches the page as [Error validating diff: ...] with the prefix
    once. *)
Theorem validateDiffAgainstTicket_end_to_end
    provider stringOf statusText ticketDescription gitDiff text :
  outcome (Llm.validateDiffAgainstTicket provider ticketDescription gitDiff)
  = Normal text ->
  outcome (Llm.clientValidateDiffAgainstTicket
             (Aux.served (Routes.llmPOST provider) stringOf statusText)
             ticketDescription gitDiff)
  = Normal (VString text).
Proof.
  intros Ht. unfold Llm.clientValidateDiffAgainstTicket, Llm.post.
  rewrite outcome_try_catch, outcome_bind. cbn [outcome].
  unfold Aux.served, Routes.llmPOST. rewrite outcome_after_body.
  cbn [Routes.destructurable].
  replace (isString _ (lit "validateDiffAgainstTicket")) with true
    by reflexivity.
  cbv iota. rewrite outcome_bind.
  replace (Routes.member _ (lit "ticketDescription"))
    with (VString ticketDescription) by reflexivity.
  replace (Routes.member _ (lit "gitDiff")) with (VString gitDiff)
    by reflexivity.
  rewrite routeValidate_strings, Ht.
  cbn [outcome ret eff_monad]. unfold Aux.wire.
  cbn [Routes.status Routes.body Routes.present].
  change (N.leb 200 200 && N.leb 200 299) with true.
  rewrite outcome_bind. unfold pure. cbn [outcome Jira.json Jira.ok negb].
  rewrite outcome_bind. cbn [outcome].
  replace (getProp _ (lit "data")) with (Normal (VString text)) by reflexivity.
  unfold Llm.orElse. destruct text; reflexivity.
Qed.

Lemma routeGetTicket_string env network base64 id :
  Routes.getTicket env network base64 (VString id)
  = Jira.routeGetTicket env network base64 id.
Proof. reflexivity. Qed.

(** X19.  The issue route answers [getTicket] with status 500, and sends no
    request to the tracker, when the configuration is incomplete, and, with
    a complete configuration, when the [ticketId] of the request has no
    string form.  With a complete configuration and a [ticketId] that has a
    string form (a string, a number, nothing at all) it answers 200
    whatever the tracker does, [data] being the ticket or [null].  Any
    other action gets status 400 and touches neither the configuration nor
    the network. *)
Theorem jiraPOST_statuses env network base64 request body :
  request = Routes.Parsed body -> Aux.hasMembers body = true ->
  let action := Routes.member body (lit "action") in
  let ticketId := Routes.member body (lit "ticketId") in
  let unset :=
    Jira.unset (env (lit "JIRA_DOMAIN")) || Jira.unset (env (lit "JIRA_EMAIL"))
    || Jira.unset (env (lit "JIRA_API_TOKEN")) in
  let answer := Routes.jiraPOST env network base64 request in
  (isString action (lit "getTicket") = true ->
   (unset = true ->
    outcome answer
    = Normal (Routes.Reply 500
                (Routes.ErrorString (JsError Jira.missingConfiguration))) /\
    filter isFetch (trace answer) = []) /\
   (unset = false ->
    forall id, toString ticketId = Normal id ->
    exists ticket,
      outcome (Routes.getTicket env network base64 ticketId) = Normal ticket /\
      outcome answer
      = Normal (Routes.Reply 200 (Routes.Data (Routes.ofTicketOrNull ticket)))) /\
   (unset = false ->
    forall e, toString ticketId = Abrupt e ->
    outcome answer = Normal (Routes.Reply 500 (Routes.ErrorString e)) /\
    filter isFetch (trace answer) = [])) /\
  (isString action (lit "getTicket") = false ->
   answer = Eff [] (Normal Routes.invalidAction)).
Proof.
  intros -> Hm action ticketId unset answer. subst answer. split.
  - intros Ha.
    destruct (getTicket_value_cases env network base64 ticketId)
      as [Hmiss [Hok Hbad]].
    cbv zeta in Hmiss, Hok, Hbad. fold unset in Hmiss, Hok, Hbad.
    unfold Routes.jiraPOST.
    rewrite outcome_after_body, trace_after_body.
    rewrite (destructurable_members _ _ _ Hm). fold action ticketId.
    rewrite Ha, outcome_bind, trace_bind.
    split; [|split]; intros Hun.
    + rewrite (Hmiss Hun). cbn [outcome trace]. split; reflexivity.
    + intros id Hid. destruct (Hok Hun id Hid) as [ticket Ht].
      exists ticket. rewrite Ht. split; reflexivity.
    + intros e He. rewrite (Hbad Hun e He). cbn [outcome trace].
      split; reflexivity.
  - intros Ha. unfold Routes.jiraPOST, Routes.requestJson, try_catch, pure.
    cbn [bind eff_monad outcome trace ret app].
    rewrite (destructurable_members _ _ _ Hm).
    cbn [bind eff_monad outcome trace ret app]. fold action. rewrite Ha.
    reflexivity.
Qed.

(** X20.  End to end through the issue route: the browser-side
    [getJiraTicket], answered by the route's [POST], returns the ticket the
    route's [getTicket] found, as JSON, and [null] in every other case; in
    particular a missing configuration reaches the page as [null], like a
    ticket that does not exist. *)
Theorem getJiraTicket_end_to_end env network base64 stringOf statusText id :
  outcome (Browser.getJiraTicket
             (Aux.served (Routes.jiraPOST env network base64) stringOf statusText)
             id)
  = Normal (match outcome (Jira.routeGetTicket env network base64 id) with
            | Normal (Some ticket) => Routes.ofTicket ticket
            | _ => VNull
            end).
Proof.
  unfold Browser.getJiraTicket, Browser.post.
  rewrite outcome_try_catch, outcome_bind. cbn [outcome].
  unfold Aux.served, Routes.jiraPOST. rewrite outcome_after_body.
  cbn [Routes.destructurable].
  replace (isString _ (lit "getTicket")) with true by reflexivity.
  cbv iota. rewrite outcome_bind.
  replace (Routes.member _ (lit "ticketId")) with (VString id) by reflexivity.
  rewrite routeGetTicket_string.
  destruct (outcome (Jira.routeGetTicket env network base64 id)) as [[ticket|]|e];
    cbn [outcome ret eff_monad bind console_error trace]; unfold Aux.wire, pure;
    cbn [Routes.status Routes.body Routes.ofTicketOrNull].
  - change (N.leb 200 200 && N.leb 200 299) with true.
    assert (Hobj : exists props, Routes.ofTicket ticket = VObject props)
      by (destruct ticket; eexists; reflexivity).
    destruct Hobj as [props Hobj]. rewrite Hobj.
    cbn [Routes.present bind eff_monad outcome trace ret negb Jira.json Jira.ok].
    replace (getProp _ (lit "data")) with (Normal (VObject props)) by reflexivity.
    reflexivity.
  - change (N.leb 200 200 && N.leb 200 299) with true.
    cbn [Routes.present bind eff_monad outcome trace ret negb Jira.json Jira.ok].
    replace (getProp _ (lit "data")) with (Normal VNull) by reflexivity.
    reflexivity.
  - change (N.leb 200 500 && N.leb 500 299) with false.
    cbn [Routes.present bind eff_monad outcome trace ret negb Jira.json Jira.ok].
    replace (getProp _ (lit "error")) with (Normal (VString (stringOf e)))
      by reflexivity.
    unfold Llm.newError, Llm.orElse, pure.
    cbn [bind eff_monad outcome trace ret].
    destruct (truthy (VString (stringOf e)));
      cbn [toString bind eff_monad outcome trace ret]; reflexivity.
Qed.

(** X25.  What the browser-side [validateDiffAgainstTicket] makes of an
    answer: from a status that is not ok it returns the route's [error]
    text behind the prefix [Error validating diff: ], or a fixed text when
    the answer names no error; from an ok answer it returns [data] as it
    came, the empty string when [data] is missing; a body that is not JSON
    is reported behind the same prefix. *)
Theorem clientValidateDiffAgainstTicket_answers api ticketDescription gitDiff :
  let request :=
    api (VObject [(lit "action", VString (lit "validateDiffAgainstTicket"));
                  (lit "ticketDescription", VString ticketDescription);
                  (lit "gitDiff", VString gitDiff)]) in
  let result :=
    outcome (Llm.clientValidateDiffAgainstTicket api ticketDescription gitDiff) in
  (forall resp body c message,
      request = Normal resp -> Jira.ok resp = false ->
      Jira.json resp = Normal body ->
      getProp body (lit "error") = Normal (VString (c :: message)) ->
      result = Normal (VString (lit "Error validating diff: " ++ c :: message))) /\
  (forall resp body error,
      request = Normal resp -> Jira.ok resp = false ->
      Jira.json resp = Normal body ->
      getProp body (lit "error") = Normal error -> truthy error = false ->
      result
      = Normal (VString (lit "Error validating diff: "
                         ++ lit "Failed to validate diff against ticket"))) /\
  (forall resp body data,
      request = Normal resp -> Jira.ok resp = true ->
      Jira.json resp = Normal body ->
      getProp body (lit "data") = Normal data ->
      result = Normal (if truthy data then data else VString [])) /\
  (forall resp e,
      request = Normal resp -> Jira.json resp = Abrupt e ->
      result = Normal (VString (lit "Error validating diff: " ++ Llm.describe e))).
Proof.
  intros request result. subst request result.
  unfold Llm.clientValidateDiffAgainstTicket, Llm.post.
  rewrite outcome_try_catch, outcome_bind. cbn [outcome].
  set (request := api _).
  split; [|split; [|split]].
  - intros resp body c message -> Hok Hj He.
    rewrite outcome_bind. unfold pure. cbn [outcome]. rewrite Hj, Hok.
    cbn [negb]. rewrite outcome_bind. cbn [outcome]. rewrite He.
    reflexivity.
  - intros resp body error -> Hok Hj He Hfalsy.
    rewrite outcome_bind. unfold pure. cbn [outcome]. rewrite Hj, Hok.
    cbn [negb]. rewrite outcome_bind. cbn [outcome]. rewrite He.
    unfold Llm.orElse. rewrite Hfalsy. reflexivity.
  - intros resp body data -> Hok Hj Hd.
    rewrite outcome_bind. unfold pure. cbn [outcome]. rewrite Hj, Hok.
    cbn [negb]. rewrite outcome_bind. cbn [outcome]. rewrite Hd.
    reflexivity.
  - intros resp e -> Hj. rewrite outcome_bind. unfold pure. cbn [outcome].
    rewrite Hj. reflexivity.
Qed.

(** ** Ticket-identifier inference and the form *)

(** A repeated class with a continuation that always succeeds does so
    too. *)
Lemma repeat_class_total (member : N -> bool) (k : mstate -> option mstate) :
  (forall y, exists z, k y = Some z) ->
  forall fuel x, exists z, repeat (matchRe (Class member)) fuel x k = Some z.
Proof.
  intros Hk fuel. induction fuel as [|fuel IH]; intros x; [apply Hk|].
  cbn [repeat].
  destruct (matchRe (Class member) x _) as [z|] eqn:Hm; [eauto | apply Hk].
Qed.

(** ... and stops only where the class ends. *)
Lemma repeat_class_maximal (member : N -> bool) (f : mstate -> mstate) :
  (forall y, rest (f y) = rest y) ->
  forall fuel x z,
    List.length (rest x) <= fuel ->
    repeat (matchRe (Class member)) fuel x (fun y => Some (f y)) = Some z ->
    match rest z with
    | [] => True
    | c :: _ => member c = false
    end.
Proof.
  intros Hf fuel. induction fuel as [|fuel IH]; intros x z Hfuel H.
  - simpl in H. injection H as <-. rewrite Hf.
    destruct (rest x); [exact I | simpl in Hfuel; lia].
  - cbn [repeat] in H. destruct x as [index s caps]. cbn [rest] in *.
    destruct s as [|c s].
    + simpl in H. injection H as <-. rewrite Hf. exact I.
    + destruct (member c) eqn:Hc.
      * rewrite matchRe_Class_cons in H by exact Hc. cbn [rest] in H.
        replace (Nat.ltb (List.length s) (List.length (c :: s))) with true in H
          by (symmetry; apply Nat.ltb_lt; simpl; lia).
        destruct (repeat_class_total member (fun y => Some (f y))
                    (fun y => ex_intro _ (f y) eq_refl) fuel
                    (MState (S index) s caps)) as [z' Hz'].
        rewrite Hz' in H. injection H as <-.
        apply (IH (MState (S index) s caps)); [simpl in *; lia | exact Hz'].
      * rewrite matchRe_Class_stop in H by exact Hc.
        injection H as <-. rewrite Hf. exact Hc.
Qed.

Lemma group_plus_class_maximal (i : nat) (member : N -> bool) (x z : mstate) :
  matchRe (Group i (Plus (Class member))) x Some = Some z ->
  match rest z with
  | [] => True
  | c :: _ => member c = false
  end.
Proof.
  rewrite matchRe_Group, matchRe_Plus. intros H.
  destruct x as [index s caps]. destruct s as [|c s]; [discriminate H|].
  destruct (member c) eqn:Hc.
  - rewrite matchRe_Class_cons in H by exact Hc. cbn [rest] in H.
    eapply (repeat_class_maximal member
              (fun y => MState (endIndex y) (rest y)
                          ((i, firstn (endIndex y - index) (c :: s))
                           :: captures y)));
      [reflexivity | | exact H].
    apply le_n.
  - rewrite matchRe_Class_stop in H by exact Hc. discriminate H.
Qed.

(** A match of the ticket pattern, with what is left of the name. *)
Lemma ticketPattern_rest (branch : jsstring) (m : mstate) :
  exec Page.ticketPattern branch = Some m ->
  exists pre key number,
    branch = pre ++ key ++ [HYPHEN] ++ number ++ rest m /\
    slashPrefix pre /\
    group 1 m = Some key /\ group 2 m = Some number /\
    match rest m with
    | [] => True
    | c :: _ => isDigit c = false
    end.
Proof.
  unfold Page.ticketPattern. rewrite exec_Bol. intros H.
  assert (Hmax : match rest m with [] => True | c :: _ => isDigit c = false end).
  { rewrite matchRe_Seq in H. apply matchRe_sound in H. destruct H as [y0 [_ H]].
    rewrite matchRe_Seq in H. apply matchRe_sound in H. destruct H as [y1 [_ H]].
    rewrite matchRe_Seq in H. apply matchRe_sound in H. destruct H as [y2 [_ H]].
    rewrite matchRe_Seq in H. apply matchRe_sound in H. destruct H as [y3 [_ H]].
    exact (@group_plus_class_maximal _ _ _ _ H). }
  apply matchRe_sound in H. destruct H as [y [H Hk]]. injection Hk as ->.
  inversion H as [| | |r1 r2 x0 x1 z Hbol H1| | | |]; subst.
  inversion Hbol; subst.
  inversion H1 as [| | |r1 r2 x0 x2 z Hpre H2| | | |]; subst.
  inversion H2 as [| | |r1 r2 x0 x3 z Hkey H3| | | |]; subst.
  inversion H3 as [| | |r1 r2 x0 x4 z Hhyp Hnum| | | |]; subst.
  apply Steps_slashPrefix in Hpre.
  destruct Hpre as [pre [Hpre [Hr1 [He1 Hc1]]]].
  apply Steps_Group_Plus_Class in Hkey.
  destruct Hkey as [key [Hkne [Hkey [Hr2 [He2 Hc2]]]]].
  inversion Hhyp as [|c x' rest' Hr3| | | | | |]; subst.
  apply Steps_Group_Plus_Class in Hnum.
  destruct Hnum as [number [Hnne [Hnum [Hr4 [He4 Hc4]]]]].
  simpl in *.
  exists pre, key, number. repeat split; try assumption.
  - rewrite Hr1, Hr2, Hr3, Hr4. reflexivity.
  - unfold group. rewrite Hc4, Hc2. reflexivity.
  - unfold group. rewrite Hc4. reflexivity.
Qed.

(** X21.  The inferred identifier stands in the branch name, right after
    the slash-delimited prefix, and takes the whole number: the code unit
    after it, if any, is not a digit (from [PROJ-1234] the inference never
    gives [PROJ-123]). *)
Theorem inferTicketId_whole_number (branch id : jsstring) :
  Page.inferTicketId branch = Some id ->
  exists pre tail,
    branch = pre ++ id ++ tail /\
    slashPrefix pre /\
    match tail with
    | [] => True
    | c :: _ => isDigit c = false
    end.
Proof.
  unfold Page.inferTicketId. intros H.
  destruct (exec Page.ticketPattern branch) as [m|] eqn:Hm; [|discriminate].
  destruct (ticketPattern_rest branch Hm)
    as (pre & key & number & Hb & Hpre & H1 & H2 & Hmax).
  unfold Page.ticketIdOf in H. rewrite H1, H2 in H. injection H as <-.
  exists pre, (rest m). repeat split; try assumption.
  rewrite Hb, <- !app_assoc. reflexivity.
Qed.

(** X22.  [setWorkingBranch] never replaces a ticket identifier that is
    set, be it typed, inferred before, or the empty string: after a first
    branch gave an identifier, a second branch leaves it as it is, and only
    the working branch changes. *)
Theorem setWorkingBranch_keeps_ticketId (first second : jsstring) (cfg : Ui.Config) :
  Ui.nullish (Ui.ticketId (Ui.setWorkingBranch first cfg)) = false ->
  Ui.setWorkingBranch second (Ui.setWorkingBranch first cfg)
  = Ui.mkConfig (Ui.ticketId (Ui.setWorkingBranch first cfg))
      (Ui.ticketDescription cfg) (Ui.targetBranch cfg) (VString second)
      (Ui.projectPath cfg) (Ui.projectName cfg) (Ui.additionalInfo cfg) /\
  (Ui.nullish (Ui.ticketId cfg) = true ->
   forall id, Page.inferTicketId first = Some id ->
   Ui.ticketId (Ui.setWorkingBranch second (Ui.setWorkingBranch first cfg))
   = VString id).
Proof.
  intros H. split.
  - unfold Ui.setWorkingBranch at 1. cbn [Ui.ticketId Ui.ticketDescription
      Ui.targetBranch Ui.projectPath Ui.projectName Ui.additionalInfo].
    unfold Ui.coalesce at 1. rewrite H. reflexivity.
  - intros Hnull id Hid.
    unfold Ui.setWorkingBranch, Ui.coalesce. cbn [Ui.ticketId].
    rewrite Hnull, Hid. reflexivity.
Qed.

Lemma uiValidate_returns llmApi ticketDescription gitDiff :
  exists v,
    outcome (Ui.validateDiffAgainstTicket llmApi ticketDescription gitDiff)
    = Normal v.
Proof. unfold Ui.validateDiffAgainstTicket. returns_by_catch. Qed.

(** The request of the browser-side wrapper is the first event of its
    trace. *)
Lemma uiValidate_request llmApi ticketDescription gitDiff :
  exists more,
    trace (Ui.validateDiffAgainstTicket llmApi ticketDescription gitDiff)
    = Fetch (lit "POST") (lit "/api/llm")
        [(lit "Content-Type", lit "application/json")]
        (Some (VObject
                 ([(lit "action", VString (lit "validateDiffAgainstTicket"))]
                  ++ Routes.present (lit "ticketDescription") ticketDescription
                  ++ Routes.present (lit "gitDiff") gitDiff)))
      :: more.
Proof.
  unfold Ui.validateDiffAgainstTicket. rewrite trace_try_catch, outcome_bind.
  rewrite trace_bind. cbn [outcome trace].
  destruct (llmApi _) as [resp|e]; cbn [app].
  - match goal with
    | |- context [outcome ?b] => destruct (outcome b)
    end; eexists; reflexivity.
  - eexists; reflexivity.
Qed.

(** X23.  [handleValidate] never throws.  Without a project path, a
    working branch or a target branch it only sets the message asking for
    them, and without a ticket description the message saying so: nothing
    leaves the browser and the loading flag is untouched.  Past these
    guards the loading flag is off when the handler is done, on every path
    (also when [getDiff] or the request fails); and when [getDiff] gives
    [null] or an empty diff the model is not asked: the trace is that of
    [getDiff] alone. *)
Theorem handleValidate_paths llmApi getDiff config view :
  let ready :=
    truthy (Ui.projectPath config) && truthy (Ui.workingBranch config)
    && truthy (Ui.targetBranch config) in
  let run := Ui.handleValidate llmApi getDiff config view in
  (exists v, outcome run = Normal v) /\
  (ready = false ->
   run = Eff [] (Normal (Ui.mkView (VString Ui.selectFirst) (Ui.isLoading view)))) /\
  (ready = true -> truthy (Ui.ticketDescription config) = false ->
   run = Eff [] (Normal (Ui.mkView (VString Ui.noDescription)
                           (Ui.isLoading view)))) /\
  (ready = true -> truthy (Ui.ticketDescription config) = true ->
   (forall v, outcome run = Normal v -> Ui.isLoading v = false) /\
   (forall diff,
       outcome (getDiff (Ui.projectPath config) (Ui.targetBranch config)
                  (Ui.workingBranch config)) = Normal diff ->
       truthy diff = false ->
       run = Eff (trace (getDiff (Ui.projectPath config) (Ui.targetBranch config)
                           (Ui.workingBranch config)))
               (Normal (Ui.mkView (VString Ui.noDifferences) false)))).
Proof.
  intros ready run. subst ready run. unfold Ui.handleValidate.
  destruct (truthy (Ui.projectPath config)) eqn:Hp;
    destruct (truthy (Ui.workingBranch config)) eqn:Hw;
    destruct (truthy (Ui.targetBranch config)) eqn:Ht;
    cbn [andb negb orb];
    try (repeat split; try (eexists; reflexivity); try discriminate;
         intros; discriminate).
  destruct (truthy (Ui.ticketDescription config)) eqn:Hd; cbn [negb].
  2: { repeat split; try (eexists; reflexivity); try discriminate;
       intros; discriminate. }
  set (diffCall := getDiff (Ui.projectPath config) (Ui.targetBranch config)
                     (Ui.workingBranch config)).
  split; [|split; [discriminate|split; [discriminate|intros _ _; split]]].
  - rewrite outcome_bind.
    match goal with
    | |- context [outcome (try_catch ?b ?h)] =>
        destruct (@try_catch_returns _ b h
                    (fun e => ex_intro _ _ eq_refl)) as [v Hv]
    end.
    rewrite Hv. eexists; reflexivity.
  - intros v. rewrite outcome_bind.
    match goal with
    | |- context [outcome (try_catch ?b ?h)] =>
        destruct (outcome (try_catch b h)) as [v'|e]
    end; [|discriminate].
    intros H. injection H as <-. reflexivity.
  - intros diff Hdiff Hfalsy. unfold try_catch.
    cbn [bind eff_monad outcome trace]. rewrite Hdiff, Hfalsy.
    cbn [negb bind eff_monad outcome trace ret app Ui.validationResult].
    rewrite !app_nil_r. reflexivity.
Qed.

(** X24.  A ticket that cannot be fetched still yields a description: when
    [getJiraTicket] gives [null], [fetchJiraTicket] stores the text [Could
    not find Jira ticket: <id>] as the ticket description.  That text is
    truthy, so [handleValidate] passes its description guard and, given a
    diff, sends the text to the model as the ticket description. *)
Theorem fetchJiraTicket_not_found_is_validated
    jiraApi llmApi getDiff ticketId cfg view diff :
  outcome (Browser.getJiraTicket jiraApi ticketId) = Normal VNull ->
  truthy (Ui.projectPath cfg) = true ->
  truthy (Ui.workingBranch cfg) = true ->
  truthy (Ui.targetBranch cfg) = true ->
  outcome (getDiff (Ui.projectPath cfg) (Ui.targetBranch cfg)
             (Ui.workingBranch cfg)) = Normal diff ->
  truthy diff = true ->
  exists update,
    outcome (Ui.fetchJiraTicket jiraApi ticketId) = Normal update /\
    Ui.ticketId (update cfg) = VString ticketId /\
    Ui.ticketDescription (update cfg)
    = VString (lit "Could not find Jira ticket: " ++ ticketId) /\
    In (Fetch (lit "POST") (lit "/api/llm")
          [(lit "Content-Type", lit "application/json")]
          (Some (VObject
                   ([(lit "action", VString (lit "validateDiffAgainstTicket"));
                     (lit "ticketDescription",
                      VString (lit "Could not find Jira ticket: " ++ ticketId))]
                    ++ Routes.present (lit "gitDiff") diff))))
       (trace (Ui.handleValidate llmApi getDiff (update cfg) view)).
Proof.
  intros Hnull Hp Hw Ht Hdiff Htruthy.
  unfold Ui.fetchJiraTicket. rewrite outcome_bind, outcome_try_catch, outcome_bind.
  rewrite Hnull. cbn [truthy outcome ret eff_monad].
  eexists. split; [reflexivity|].
  cbn [Ui.ticketId Ui.ticketDescription]. split; [reflexivity|].
  split; [reflexivity|].
  unfold Ui.handleValidate.
  cbn [Ui.projectPath Ui.workingBranch Ui.targetBranch Ui.ticketDescription].
  rewrite Hp, Hw, Ht. cbn [negb orb].
  replace (truthy (VString (lit "Could not find Jira ticket: " ++ ticketId)))
    with true by reflexivity.
  cbn [negb]. rewrite trace_bind, outcome_try_catch, trace_try_catch.
  rewrite outcome_bind, trace_bind, Hdiff, Htruthy. cbn [negb].
  rewrite outcome_bind, trace_bind.
  destruct (uiValidate_returns llmApi
              (VString (lit "Could not find Jira ticket: " ++ ticketId)) diff)
    as [v Hv].
  destruct (uiValidate_request llmApi
              (VString (lit "Could not find Jira ticket: " ++ ticketId)) diff)
    as [more Hmore].
  rewrite Hv. cbn [outcome ret eff_monad trace].
  rewrite Hmore. cbn [Routes.present app].
  apply in_or_app. left. apply in_or_app. right. left. reflexivity.
Qed.

(** ** The further statements on the sample worlds *)

Lemma getTicket_returned_ticket_witness :
  Jira.ticketId Worlds.ticketWithParent = VString (lit "PROJ-123") /\
  Jira.markdownDescription Worlds.ticketWithParent
  = Jira.description Worlds.ticketWithParent.
Proof.
  destruct (getTicket_returned_ticket Samples.networkWithParent Samples.base64
              Samples.client (lit "PROJ-123") (ticket := Worlds.ticketWithParent))
    as [H1 [H2 _]].
  - vm_compute. reflexivity.
  - split; assumption.
Defined.

Lemma routeGetTicket_only_configuration_error_witness :
  filter isFetch
    (trace (Routes.getTicket Samples.envComplete Samples.networkWithParent
              Samples.base64 Worlds.oddTicketId)) = [] /\
  ((Jira.unset (Samples.envComplete (lit "JIRA_DOMAIN"))
    || Jira.unset (Samples.envComplete (lit "JIRA_EMAIL"))
    || Jira.unset (Samples.envComplete (lit "JIRA_API_TOKEN")) = true /\
    notConvertible = JsError Jira.missingConfiguration) \/
   (Jira.unset (Samples.envComplete (lit "JIRA_DOMAIN"))
    || Jira.unset (Samples.envComplete (lit "JIRA_EMAIL"))
    || Jira.unset (Samples.envComplete (lit "JIRA_API_TOKEN")) = false /\
    toString Worlds.oddTicketId = Abrupt notConvertible)).
Proof.
  apply (routeGetTicket_only_configuration_error Samples.envComplete
           Samples.networkWithParent Samples.base64 Worlds.oddTicketId).
  vm_compute. reflexivity.
Defined.

Lemma extractTextFromADF_reads_three_members_witness :
  Jira.extractTextFromADF (VObject Worlds.markedText)
  = Jira.extractTextFromADF (VObject Worlds.bareText).
Proof.
  apply extractTextFromADF_reads_three_members; vm_compute; reflexivity.
Defined.

Lemma extractTextFromADF_plain_node_witness :
  Jira.extractTextFromADF (VObject Worlds.heading) = Normal (concat [lit "Title"]).
Proof.
  apply (extractTextFromADF_plain_node Worlds.heading
           (items := Worlds.headingContent) (rs := [lit "Title"])).
  - vm_compute. reflexivity.
  - vm_compute. reflexivity.
  - constructor; [vm_compute; reflexivity | constructor].
Defined.

Lemma extractTextFromADF_failure_propagates_witness :
  exists e, Jira.extractTextFromADF (VObject Worlds.brokenParagraph) = Abrupt e.
Proof.
  apply (proj2 (extractTextFromADF_failure_propagates Worlds.brokenParagraph
                  (items := [VNull]) eq_refl)).
  simpl. left. reflexivity.
Defined.

Lemma extractTextFromADF_keeps_text_runs_witness :
  exists out before after,
    Jira.extractTextFromADF (Jira.toJSON (Jira.Doc Jira.example_tree))
    = Normal out /\
    out = before ++ lit "A" ++ after.
Proof.
  apply extractTextFromADF_keeps_text_runs.
  simpl. right. left. reflexivity.
Defined.

Lemma parseBranches_listing_witness :
  Git.parseBranches (Aux.listing Worlds.entries)
  = [lit "main"; lit "feature/PROJ-123-add-button"].
Proof.
  apply (@parseBranches_listing Worlds.entries).
  repeat constructor; try (vm_compute; reflexivity); try discriminate;
    intros H; vm_compute in H;
    repeat (destruct H as [H|H]; [discriminate H|]); exact H.
Defined.

Lemma getDefaultBranch_commands_witness :
  trace (Git.getDefaultBranch Samples.existsSync Samples.shell Samples.repository)
  = trace (Git.getBranches Samples.existsSync Samples.shell Samples.repository)
    ++ match Git.firstCommonBranch Worlds.sampleBranches with
       | Some _ => []
       | None => [Exec (lit "git remote show origin") Samples.repository]
       end.
Proof.
  apply getDefaultBranch_commands; vm_compute; reflexivity.
Defined.

Lemma getDefaultBranch_null_witness :
  outcome (Git.getBranches Samples.existsSync Worlds.shellFresh
             Samples.repository) = Normal [] /\
  outcome (Git.getDefaultBranch Samples.existsSync Worlds.shellFresh
             Samples.repository) = Normal None.
Proof.
  split; [reflexivity|].
  destruct (getDefaultBranch_null Samples.existsSync Worlds.shellFresh
              Samples.repository (branches := []) eq_refl eq_refl)
    as [Hnull _].
  apply Hnull. split; [reflexivity|]. left. eexists. reflexivity.
Defined.

Lemma llmPOST_always_200_witness :
  exists text,
    outcome (Routes.llmPOST Worlds.failingProvider
               (Routes.Parsed Worlds.validateBody))
    = Normal (Routes.Reply 200 (Routes.Data (VString text))).
Proof.
  apply (proj1 (llmPOST_always_200 Worlds.failingProvider
                  (body := Worlds.validateBody) eq_refl eq_refl)).
  vm_compute. reflexivity.
Defined.

Lemma validateDiffAgainstTicket_end_to_end_witness :
  outcome (Llm.clientValidateDiffAgainstTicket
             (Aux.served (Routes.llmPOST Worlds.failingProvider)
                Worlds.stringOf (lit "OK"))
             (lit "Add a button") (lit "+<button/>"))
  = Normal (VString (lit "Error validating diff: Incorrect API key provided")).
Proof.
  apply validateDiffAgainstTicket_end_to_end. vm_compute. reflexivity.
Defined.

Lemma jiraPOST_statuses_witness :
  exists ticket,
    outcome (Routes.getTicket Samples.envComplete Samples.networkWithParent
               Samples.base64 (VString (lit "PROJ-123"))) = Normal ticket /\
    outcome (Routes.jiraPOST Samples.envComplete Samples.networkWithParent
               Samples.base64 (Routes.Parsed Worlds.getTicketBody))
    = Normal (Routes.Reply 200 (Routes.Data (Routes.ofTicketOrNull ticket))).
Proof.
  destruct (jiraPOST_statuses Samples.envComplete Samples.networkWithParent
              Samples.base64 (body := Worlds.getTicketBody) eq_refl eq_refl)
    as [Hget _].
  destruct (Hget eq_refl) as (_ & Hanswer & _).
  apply (Hanswer eq_refl (lit "PROJ-123") eq_refl).
Defined.

Lemma inferTicketId_whole_number_witness :
  exists pre tail,
    lit "feature/PROJ-123-add-button" = pre ++ lit "PROJ-123" ++ tail /\
    slashPrefix pre /\
    match tail with
    | [] => True
    | c :: _ => isDigit c = false
    end.
Proof.
  apply inferTicketId_whole_number. vm_compute. reflexivity.
Defined.

Lemma setWorkingBranch_keeps_ticketId_witness :
  Ui.ticketId
    (Ui.setWorkingBranch (lit "feature/PROJ-2-other")
       (Ui.setWorkingBranch (lit "feature/PROJ-1-first") Ui.emptyConfig))
  = VString (lit "PROJ-1").
Proof.
  apply (proj2 (setWorkingBranch_keeps_ticketId (lit "feature/PROJ-1-first")
                  (lit "feature/PROJ-2-other") Ui.emptyConfig eq_refl)).
  - reflexivity.
  - vm_compute. reflexivity.
Defined.

Lemma fetchJiraTicket_not_found_is_validated_witness :
  exists update,
    outcome (Ui.fetchJiraTicket Worlds.failingApi (lit "PROJ-123"))
    = Normal update /\
    Ui.ticketId (update Worlds.readyConfig) = VString (lit "PROJ-123") /\
    Ui.ticketDescription (update Worlds.readyConfig)
    = VString (lit "Could not find Jira ticket: " ++ lit "PROJ-123") /\
    In (Fetch (lit "POST") (lit "/api/llm")
          [(lit "Content-Type", lit "application/json")]
          (Some (VObject
                   ([(lit "action", VString (lit "validateDiffAgainstTicket"));
                     (lit "ticketDescription",
                      VString (lit "Could not find Jira ticket: "
                               ++ lit "PROJ-123"))]
                    ++ Routes.present (lit "gitDiff")
                         (VString (lit "+<button/>"))))))
       (trace (Ui.handleValidate Worlds.idleApi Worlds.getDiff
                 (update Worlds.readyConfig) Worlds.idleView)).
Proof.
  apply (fetchJiraTicket_not_found_is_validated Worlds.failingApi Worlds.idleApi
           Worlds.getDiff (lit "PROJ-123") Worlds.readyConfig Worlds.idleView
           (diff := VString (lit "+<button/>")));
    vm_compute; reflexivity.
Defined.
